(** * UptimeMonitor: the monitoring engine, embedded and verified

    Shallow embedding of [database_manager.py], [notification_service.py],
    [dockerized/backend/monitoring_service.py] and the endpoints of
    [dockerized/backend/api_backend.py] that register, log in and track.

    - SQLite tables are lists of rows, in insertion (rowid) order.
    - Timestamps are the TEXT values SQLite stores; they are compared the
      way SQLite compares TEXT under the BINARY collation, byte by byte.
    - Python floats are binary64 values, represented by the rational they
      denote; every operation rounds to nearest, ties to even.
    - Exceptions are an explicit result type; [try/except] is a handler. *)

From Stdlib Require Import ZArith QArith Qround List String Ascii Bool Lia Lqa.
From Stdlib Require Import Permutation Sorted.
Import ListNotations.

Open Scope Z_scope.

(* ================================================================== *)
(** * Wall-clock time: the calendar and the two text renderings *)

Module Clock.

(** An instant is a number of microseconds since 1970-01-01T00:00:00 UTC. *)
Definition instant := Z.

Definition usec_per_sec : Z := 1000000.
Definition sec_per_day : Z := 86400.
Definition usec_per_day : Z := sec_per_day * usec_per_sec.

Definition seconds (s : Z) : instant := s * usec_per_sec.
Definition hours (h : Z) : instant := seconds (3600 * h).

Record date := mkDate { year : Z; month : Z; day : Z }.

Definition is_leap (y : Z) : bool :=
  ((y mod 4 =? 0) && negb (y mod 100 =? 0)) || (y mod 400 =? 0).

Definition days_in_month (y m : Z) : Z :=
  if m =? 2 then (if is_leap y then 29 else 28)
  else if (m =? 4) || (m =? 6) || (m =? 9) || (m =? 11) then 30
  else 31.

Definition next_day (d : date) : date :=
  if day d <? days_in_month (year d) (month d)
  then mkDate (year d) (month d) (day d + 1)
  else if month d <? 12
       then mkDate (year d) (month d + 1) 1
       else mkDate (year d + 1) 1 1.

Definition epoch : date := mkDate 1970 1 1.

(** The Gregorian date [n] days after the epoch. *)
Fixpoint date_of_days (n : nat) : date :=
  match n with
  | O => epoch
  | S k => next_day (date_of_days k)
  end.

(** The broken-down fields of a [datetime] object. *)
Record datetime := mkDatetime {
  dt_date : date;
  hour : Z;
  minute : Z;
  second : Z;
  microsecond : Z
}.

Definition fields_of (t : instant) : datetime :=
  let days := t / usec_per_day in
  let rest := t mod usec_per_day in
  let secs := rest / usec_per_sec in
  mkDatetime (date_of_days (Z.to_nat days))
             (secs / 3600) ((secs / 60) mod 60) (secs mod 60)
             (rest mod usec_per_sec).

(** ** Fixed-width decimal fields *)

Definition digit (n : Z) : ascii := ascii_of_nat (48 + Z.to_nat (n mod 10)).

Fixpoint pad (width : nat) (n : Z) : string :=
  match width with
  | O => EmptyString
  | S w => pad w (n / 10) ++ String (digit n) EmptyString
  end.

Definition date_text (d : date) : string :=
  pad 4 (year d) ++ "-" ++ pad 2 (month d) ++ "-" ++ pad 2 (day d).

Definition time_text (d : datetime) : string :=
  pad 2 (hour d) ++ ":" ++ pad 2 (minute d) ++ ":" ++ pad 2 (second d).

(** SQLite's [CURRENT_TIMESTAMP]: UTC, ['YYYY-MM-DD HH:MM:SS']. *)
Definition current_timestamp (t : instant) : string :=
  let d := fields_of t in
  date_text (dt_date d) ++ " " ++ time_text d.

(** [datetime.isoformat()]: ['YYYY-MM-DDTHH:MM:SS'], followed by
    ['.ffffff'] when the microsecond field is not zero. *)
Definition isoformat (d : datetime) : string :=
  date_text (dt_date d) ++ "T" ++ time_text d ++
  (if microsecond d =? 0 then "" else "." ++ pad 6 (microsecond d)).

(** [datetime.now()]: the naive local time of a host whose zone is
    [utcoffset] seconds east of UTC.  A naive datetime is kept as the
    instant that has the same fields in UTC. *)
Definition datetime_now (utcoffset : Z) (t : instant) : instant :=
  t + seconds utcoffset.

(** [d - timedelta(days=n)] on a naive datetime. *)
Definition minus_days (d : instant) (n : Z) : instant := d - n * usec_per_day.

(** SQLite compares two TEXT values under BINARY collation with [memcmp];
    a proper prefix sorts first. *)
Definition text_gt (a b : string) : bool := String.ltb b a.
Definition text_le (a b : string) : bool := String.leb a b.

(** ** Orders on dates and times of day *)

(** Lexicographic combination of two comparisons. *)
Definition lex (c1 c2 : comparison) : comparison :=
  match c1 with
  | Eq => c2
  | _ => c1
  end.

(** A date and a time of day as the numbers their digits spell. *)
Definition date_key (d : date) : Z := (year d * 100 + month d) * 100 + day d.

Definition clock_key (d : datetime) : Z :=
  (hour d * 100 + minute d) * 100 + second d.

Definition valid_date (d : date) : Prop :=
  1 <= month d <= 12 /\ 1 <= day d <= days_in_month (year d) (month d).

(** Days of a common year before the first of month [m]. *)
Definition days_before_month (m : Z) : Z :=
  if m =? 1 then 0 else if m =? 2 then 31 else if m =? 3 then 59
  else if m =? 4 then 90 else if m =? 5 then 120 else if m =? 6 then 151
  else if m =? 7 then 181 else if m =? 8 then 212 else if m =? 9 then 243
  else if m =? 10 then 273 else if m =? 11 then 304 else 334.

Definition day_number (t : instant) : Z := t / usec_per_day.

Definition second_of_day (t : instant) : Z :=
  (t mod usec_per_day) / usec_per_sec.

(** An instant of the year 9994: before it, every year has four digits. *)
Definition horizon : instant := 365 * 8030 * usec_per_day.

End Clock.

(* ================================================================== *)
(** * Python numbers: [int] and binary64 [float] *)

Module Py.

(** Nearest integer, ties to the even one. *)
Definition rne (q : Q) : Z :=
  let f := Qfloor q in
  match Qcompare (q - inject_Z f) (1 # 2) with
  | Lt => f
  | Gt => f + 1
  | Eq => if Z.even f then f else f + 1
  end.

Definition pow2 (k : Z) : Q :=
  if 0 <=? k then inject_Z (2 ^ k) else 1 # Z.to_pos (2 ^ (- k)).

(** For [x > 0], the exponent [e] with [2^e <= x < 2^(e+1)]. *)
Definition ilog2 (x : Q) : Z :=
  let e := Z.log2 (Qnum x) - Z.log2 (Zpos (Qden x)) in
  if Qle_bool (pow2 e) x then e else e - 1.

(** Round a positive rational to 53 significant bits (to a multiple of
    [2^-1074] in the subnormal range).  Overflow is not represented: no
    value met here exceeds [2^64]. *)
Definition round53_pos (x : Q) : Q :=
  let k := Z.min (52 - ilog2 x) 1074 in
  Qred (inject_Z (rne (x * pow2 k)) * pow2 (- k)).

Definition round53 (x : Q) : Q :=
  match Qcompare x 0 with
  | Eq => 0
  | Gt => round53_pos x
  | Lt => Qred (- round53_pos (- x))
  end.

(** [a / b] on two ints ([b <> 0]): the correctly rounded quotient. *)
Definition int_truediv (a b : Z) : Q := round53 (inject_Z a / inject_Z b).

(** [x * y] on floats. *)
Definition fmul (x y : Q) : Q := round53 (x * y).

(** [round(x, 2)] on a float: the decimal with two places nearest to the
    exact value of [x], ties to even, read back as a float. *)
Definition hundredths (x : Q) : Z := rne (x * 100).
Definition float_round2 (x : Q) : Q := round53 (inject_Z (hundredths x) / 100).

Inductive number :=
| Int (z : Z)
| Float (x : Q).

Definition value (n : number) : Q :=
  match n with
  | Int z => inject_Z z
  | Float x => x
  end.

(** [round(n, 2)]: an int is returned unchanged. *)
Definition round2 (n : number) : number :=
  match n with
  | Int z => Int z
  | Float x => Float (float_round2 x)
  end.

(** [n < k] for an int literal [k]. *)
Definition lt_int (n : number) (k : Z) : bool :=
  negb (Qle_bool (inject_Z k) (value n)).

End Py.

(* ================================================================== *)
(** * Exceptions *)

Module Exc.

(** The exception classes the engine can meet.  All of them derive from
    [Exception]; [except Exception] therefore catches every one. *)
Inductive exn :=
| TimeoutError            (* asyncio.TimeoutError *)
| ClientError             (* aiohttp.ClientError and its subclasses *)
| RuntimeError            (* e.g. aiohttp's "Session is closed" *)
| AttributeError          (* attribute access on None *)
| TypeError
| OperationalError        (* sqlite3 *)
| SMTPAuthenticationError
| SMTPRecipientsRefused
| ValueError
| OSError.

Inductive result (A : Type) :=
| Ok (a : A)
| Raise (e : exn).
Arguments Ok {A} a.
Arguments Raise {A} e.

Definition raises {A} (r : result A) : bool :=
  match r with Ok _ => false | Raise _ => true end.

(** Effectful code: a state is threaded through, and an exception aborts
    what follows while keeping the effects already performed. *)
Definition M (S A : Type) : Type := S -> S * result A.

Section StateAndExceptions.
Context {S : Type}.

Definition ret {A} (a : A) : M S A := fun s => (s, Ok a).

Definition raise {A} (e : exn) : M S A := fun s => (s, Raise e).

Definition bind {A B} (m : M S A) (k : A -> M S B) : M S B :=
  fun s =>
    match m s with
    | (s', Ok a) => k a s'
    | (s', Raise e) => (s', Raise e)
    end.

Definition gets {A} (f : S -> A) : M S A := fun s => (s, Ok (f s)).

Definition modify (f : S -> S) : M S unit := fun s => (f s, Ok tt).

Definition of_result {A} (r : result A) : M S A := fun s => (s, r).

(** [try: body except ...: handler e]. *)
Definition try_except {A} (body : M S A) (handler : exn -> M S A) : M S A :=
  fun s =>
    match body s with
    | (s', Ok a) => (s', Ok a)
    | (s', Raise e) => handler e s'
    end.

(** A task awaited by [gather(..., return_exceptions=True)]: its
    exception becomes its result. *)
Definition capture {A} (m : M S A) : M S (result A) :=
  fun s => let (s', r) := m s in (s', Ok r).

(** [for x in xs: body x]. *)
Fixpoint for_each {A} (xs : list A) (body : A -> M S unit) : M S unit :=
  match xs with
  | [] => ret tt
  | x :: rest => bind (body x) (fun _ => for_each rest body)
  end.
End StateAndExceptions.

End Exc.

Notation "x <- c ;; k" := (Exc.bind c (fun x => k))
  (at level 61, c at next level, right associativity).
Notation "c ;;; k" := (Exc.bind c (fun _ => k))
  (at level 61, right associativity).

(* ================================================================== *)
(** * SQL fragments: [ORDER BY] *)

Module Sql.

Section OrderBy.
Context {A : Type}.
Variable before : A -> A -> bool.

Fixpoint insert (x : A) (l : list A) : list A :=
  match l with
  | [] => [x]
  | y :: l' => if before x y then x :: l else y :: insert x l'
  end.

(** A stable sort: rows that tie keep their rowid order. *)
Fixpoint order_by (l : list A) : list A :=
  match l with
  | [] => []
  | x :: l' => insert x (order_by l')
  end.
End OrderBy.

(** [ORDER BY key DESC] on a TEXT column. *)
Definition desc {A} (key : A -> string) (a b : A) : bool :=
  Clock.text_le (key b) (key a).

(** [COUNT( * )]. *)
Definition count {A} (l : list A) : Z := Z.of_nat (List.length l).

(** [SUM(e)]: NULL over no rows. *)
Definition sum {A} (e : A -> Z) (l : list A) : option Z :=
  match l with
  | [] => None
  | _ => Some (fold_right (fun r acc => e r + acc) 0 l)
  end.

End Sql.

(* ================================================================== *)
(** * database_manager.py *)

Module Db.
Import Exc.

Record user_row := mkUser {
  uid : Z;
  username : string;
  email : string
}.

Record url_row := mkUrl {
  id : Z;
  url : string;
  created_at : string;
  user_id : Z;
  category : option string
}.

(** A row of [checks]; its own rowid is never read and is left out. *)
Record check_row := mkCheck {
  url_id : Z;
  timestamp : string;
  response_code : Z;
  status : string;
  response_time_ms : Z
}.

Record database := mkDb {
  users : list user_row;
  urls : list url_row;
  checks : list check_row
}.

(** The dict returned by [get_url_status]; the key ["category"] is
    present only when the column holds a non-empty text. *)
Record url_status := mkStatus {
  st_url : string;
  uptime_percentage : Py.number;
  last_checked : option string;
  st_category : option string
}.

(** Python truthiness of an [Optional[int]] and of an [Optional[str]]. *)
Definition truthy_int (n : option Z) : bool :=
  match n with
  | Some z => negb (z =? 0)
  | None => false
  end.

Definition truthy_str (s : option string) : option string :=
  match s with
  | Some EmptyString => None
  | other => other
  end.

Definition get_user_urls (db : database) (user : Z) : list url_row :=
  Sql.order_by (Sql.desc created_at)
               (filter (fun r => user_id r =? user) (urls db)).

Definition get_all_urls (db : database) : list url_row := urls db.

(** [INSERT INTO checks (url_id, response_code, status, response_time_ms)]
    at instant [t]: the timestamp column takes its default. *)
Definition add_check_result (t : Clock.instant) (db : database)
    (url_id response_code : Z) (status : string) (response_time_ms : Z)
  : database :=
  mkDb (users db) (urls db)
       (checks db ++ [mkCheck url_id (Clock.current_timestamp t)
                              response_code status response_time_ms]).

(** [SELECT id, category FROM urls WHERE url = ? (AND user_id = ?)],
    [fetchone()]. *)
Definition select_url (db : database) (u : string) (user : option Z)
  : option url_row :=
  match user with
  | Some n =>
      if truthy_int user
      then find (fun r => String.eqb (url r) u && (user_id r =? n)) (urls db)
      else find (fun r => String.eqb (url r) u) (urls db)
  | None => find (fun r => String.eqb (url r) u) (urls db)
  end.

(** [SELECT timestamp, status, response_code FROM checks WHERE url_id = ?
    ORDER BY timestamp DESC LIMIT 1], [fetchone()]. *)
Definition latest_check (db : database) (target : Z) : option check_row :=
  hd_error (Sql.order_by (Sql.desc timestamp)
                         (filter (fun c => url_id c =? target) (checks db))).

(** The rows of [WHERE url_id = ? AND timestamp > ?]. *)
Definition window_rows (db : database) (target : Z) (since : string)
  : list check_row :=
  filter (fun c => (url_id c =? target) && Clock.text_gt (timestamp c) since)
         (checks db).

Definition is_success (c : check_row) : Z :=
  if String.eqb (status c) "success" then 1 else 0.

(** [SELECT COUNT( * ), SUM(CASE WHEN status = 'success' THEN 1 ELSE 0 END)]. *)
Definition uptime_data (db : database) (target : Z) (since : string)
  : Z * option Z :=
  let rows := window_rows db target since in
  (Sql.count rows, Sql.sum is_success rows).

(** [(successful_checks / total_checks * 100) if total_checks > 0 else 0];
    dividing [None] raises [TypeError]. *)
Definition percentage (total : Z) (successful : option Z)
  : result Py.number :=
  if 0 <? total
  then match successful with
       | Some s => Ok (Py.Float (Py.fmul (Py.int_truediv s total) 100))
       | None => Raise TypeError
       end
  else Ok (Py.Int 0).

(** The bound of the window: [(datetime.now() - timedelta(days=1)).isoformat()]. *)
Definition yesterday (utcoffset : Z) (now : Clock.instant) : string :=
  Clock.isoformat
    (Clock.fields_of (Clock.minus_days (Clock.datetime_now utcoffset now) 1)).

Definition get_url_status (utcoffset : Z) (now : Clock.instant)
    (db : database) (u : string) (user : option Z)
  : result (option url_status) :=
  match select_url db u user with
  | None => Ok None
  | Some row =>
      let latest := latest_check db (id row) in
      let '(total_checks, successful_checks) :=
        uptime_data db (id row) (yesterday utcoffset now) in
      match percentage total_checks successful_checks with
      | Raise e => Raise e
      | Ok uptime =>
          Ok (Some (mkStatus u (Py.round2 uptime)
                             (option_map timestamp latest)
                             (truthy_str (category row))))
      end
  end.

Definition get_user_info (db : database) (user : Z) : option user_row :=
  find (fun r => uid r =? user) (users db).

(** [SELECT DISTINCT u.id, u.username, u.email FROM users u
     INNER JOIN urls url ON u.id = url.user_id]. *)
Definition get_users_with_urls (db : database) : list user_row :=
  filter (fun u => existsb (fun r => user_id r =? uid u) (urls db)) (users db).

End Db.

(* ================================================================== *)
(** * The outside world: network, mail relay, process environment *)

Module Env.
Import Exc.

(** An [aiohttp.ClientSession]: the long-lived one made by
    [start_monitoring], or the one made for a single immediate check. *)
Inductive session_kind := Shared | Temporary.

Record session := mkSession {
  kind : session_kind;
  closed : bool
}.

(** What a GET comes to: a response with its status code, or an exception. *)
Inductive reply :=
| Response (code : Z)
| Failure (e : exn).

Record http_outcome := mkOutcome {
  elapsed : Z;            (* microseconds from request start to outcome *)
  reply_of : reply
}.

(** The arguments handed to [create_user_summary_email]. *)
Record summary := mkSummary {
  sm_username : string;
  summary_data : list Db.url_status;
  total_sites : Z;
  down_sites : Z
}.

Inductive subject :=
| NeedAttention (name : string) (down : Z)
| AllOperational (name : string).

(** Observable steps, in the order they happen. *)
Inductive event :=
| EvPass (targets : list Z)                  (* check_all_urls fetched these ids *)
| EvGet (s : option session) (u : string)    (* self.session.get(u) *)
| EvSleep (secs : Z)                         (* asyncio.sleep(secs) *)
| EvBroadcast                                (* send_notifications_to_all_users() *)
| EvNoBroadcast                              (* "skipping emails" *)
| EvSummary (user : Z)                       (* send_user_uptime_summary(user, _) *)
| EvMail (recipient : string) (subj : subject) (body : summary).

(** [os.getenv("SMTP_PORT")]: unset, an integer literal, or a text that
    [int()] rejects. *)
Inductive port_setting := Unset | Number (n : Z) | Malformed.

Record environment := mkEnv {
  utcoffset : Z;                                 (* host zone, seconds east *)
  http : string -> Clock.instant -> http_outcome; (* the monitored sites *)
  smtp : string -> result unit;                  (* the relay, per recipient *)
  storage_fault : Z -> option exn;               (* sqlite failing on a user's rows *)
  stop_requested : nat -> bool;                  (* stop_monitoring() during the k-th sleep *)
  smtp_port : port_setting;
  email_user : option string;
  app_password : option string
}.

Record world := mkWorld {
  db : Db.database;
  clock : Clock.instant;
  log : list event
}.

Definition emit (e : event) : M world unit :=
  modify (fun w => mkWorld (db w) (clock w) (log w ++ [e])).

Definition write_db (f : Db.database -> Db.database) : M world unit :=
  modify (fun w => mkWorld (f (db w)) (clock w) (log w)).

(** Time never runs backwards. *)
Definition advance_to (t : Clock.instant) : M world unit :=
  modify (fun w => mkWorld (db w) (Z.max (clock w) t) (log w)).

End Env.

(* ================================================================== *)
(** * notification_service.py *)

Module Notification.
Import Exc Env.

Record service := mkService {
  email_enabled : bool
}.

(** [NotificationService.__init__]. *)
Definition init (env : environment) : result service :=
  match smtp_port env with
  | Malformed => Raise ValueError
  | _ =>
      match Db.truthy_str (email_user env), Db.truthy_str (app_password env) with
      | Some _, Some _ => Ok (mkService true)
      | _, _ => Ok (mkService false)
      end
  end.

Definition send_email (env : environment) (recipient : string)
    (subj : subject) (body : summary) : M world bool :=
  try_except
    (emit (EvMail recipient subj body) ;;;
     _ <- of_result (smtp env recipient) ;;
     ret true)
    (fun e =>
       match e with
       | SMTPAuthenticationError => ret false
       | SMTPRecipientsRefused => ret false
       | _ => ret false
       end).

(** A read of one user's rows, which the store may refuse. *)
Definition read_user_urls (env : environment) (user : Z)
  : M world (list Db.url_row) :=
  match storage_fault env user with
  | Some e => raise e
  | None => gets (fun w => Db.get_user_urls (db w) user)
  end.

(** The [for url_data in user_urls] loop with its two accumulators. *)
Fixpoint summary_loop (env : environment) (user : Z)
    (user_urls : list Db.url_row)
    (summary_data : list Db.url_status) (down_sites : Z)
  : M world (list Db.url_status * Z) :=
  match user_urls with
  | [] => ret (summary_data, down_sites)
  | url_data :: rest =>
      r <- gets (fun w => Db.get_url_status (utcoffset env) (clock w) (db w)
                                            (Db.url url_data) (Some user)) ;;
      status <- of_result r ;;
      match status with
      | Some st =>
          summary_loop env user rest (summary_data ++ [st])
            (if Py.lt_int (Db.uptime_percentage st) 99
             then down_sites + 1 else down_sites)
      | None => summary_loop env user rest summary_data down_sites
      end
  end.

Definition send_user_uptime_summary (self : service) (env : environment)
    (user : Z) (user_email : string) : M world bool :=
  emit (EvSummary user) ;;;
  if negb (email_enabled self) then ret false
  else
    try_except
      (user_urls <- read_user_urls env user ;;
       match user_urls with
       | [] => ret false
       | _ =>
           acc <- summary_loop env user user_urls [] 0 ;;
           let '(summary_data, down_sites) := acc in
           user_info <- gets (fun w => Db.get_user_info (db w) user) ;;
           let username :=
             match user_info with
             | Some r => Db.username r
             | None => "User"%string
             end in
           let email_body :=
             mkSummary username summary_data (Sql.count user_urls) down_sites in
           let subj :=
             if 0 <? down_sites then NeedAttention username down_sites
             else AllOperational username in
           success <- send_email env user_email subj email_body ;;
           if success : bool then ret true else ret false
       end)
      (fun _ => ret false).

Definition send_notifications_to_all_users (self : service)
    (env : environment) : M world unit :=
  emit EvBroadcast ;;;
  if negb (email_enabled self) then ret tt
  else
    try_except
      (users_with_urls <- gets (fun w => Db.get_users_with_urls (db w)) ;;
       match users_with_urls with
       | [] => ret tt
       | _ =>
           for_each users_with_urls
             (fun user_data =>
                _ <- send_user_uptime_summary self env
                       (Db.uid user_data) (Db.email user_data) ;;
                ret tt)
       end)
      (fun _ => ret tt).

End Notification.

(* ================================================================== *)
(** * monitoring_service.py *)

Module Monitoring.
Import Exc Env.

(** The fields of a [MonitoringService] object. *)
Record service := mkService {
  notification_service : option Notification.service;
  session : option Env.session;
  running : bool
}.

Record state := mkState {
  self : service;
  world : Env.world
}.

(** Run code that only touches the world. *)
Definition lift {A} (m : M Env.world A) : M state A :=
  fun st => let (w, r) := m (world st) in (mkState (self st) w, r).

Definition set_session (s : option Env.session) : M state unit :=
  modify (fun st =>
    mkState (mkService (notification_service (self st)) s (running (self st)))
            (world st)).

Definition set_running (b : bool) : M state unit :=
  modify (fun st =>
    mkState (mkService (notification_service (self st)) (session (self st)) b)
            (world st)).

(** [MonitoringService.__init__]. *)
Definition init (env : environment) : service :=
  mkService
    (match Notification.init env with
     | Ok ns => Some ns
     | Raise _ => None
     end)
    None false.

Definition timeout_total : Z := Clock.seconds 30.

(** [ClientTimeout(total=30)]: a request still pending after 30 seconds
    ends in [asyncio.TimeoutError]. *)
Definition with_timeout (o : http_outcome) : http_outcome :=
  if timeout_total <? elapsed o
  then mkOutcome timeout_total (Failure TimeoutError)
  else o.

(** [self.session.get(url, ...)] started at [start]. *)
Definition session_get (env : environment) (s : option Env.session)
    (u : string) (start : Clock.instant) : http_outcome :=
  match s with
  | None => mkOutcome 0 (Failure AttributeError)
  | Some sess =>
      if closed sess then mkOutcome 0 (Failure RuntimeError)
      else with_timeout (http env u start)
  end.

(** [int((time.time() - start_time) * 1000)]. *)
Definition response_time_ms (o : http_outcome) : Z := elapsed o / 1000.

Definition record (t : Clock.instant) (url_id response_code : Z)
    (status : string) (ms : Z) : M state unit :=
  lift (write_db (fun d => Db.add_check_result t d url_id response_code status ms)).

(** [check_single_url], its [start_time] being [start]. *)
Definition check_single_url_at (env : environment) (start : Clock.instant)
    (url_data : Db.url_row) : M state unit :=
  let url_id := Db.id url_data in
  let url := Db.url url_data in
  s <- gets (fun st => session (self st)) ;;
  let o := session_get env s url start in
  let finish := start + elapsed o in
  lift (emit (EvGet s url)) ;;;
  lift (advance_to finish) ;;;
  try_except
    (match reply_of o with
     | Response code =>
         let status := if code <? 400 then "success"%string else "error"%string in
         record finish url_id code status (response_time_ms o)
     | Failure e => raise e
     end)
    (fun e =>
       match e with
       | TimeoutError => record finish url_id 0 "error" (response_time_ms o)
       | ClientError => record finish url_id 0 "error" (response_time_ms o)
       | _ => record finish url_id 0 "error" (response_time_ms o)
       end).

Definition check_single_url (env : environment) (url_data : Db.url_row)
  : M state unit :=
  start <- gets (fun st => clock (world st)) ;;
  check_single_url_at env start url_data.

(** When the probe of [url_data], started at [start], reaches its outcome. *)
Definition finish_time (env : environment) (s : option Env.session)
    (start : Clock.instant) (url_data : Db.url_row) : Clock.instant :=
  start + elapsed (session_get env s (Db.url url_data) start).

(** [await asyncio.gather( *tasks, return_exceptions=True)]. *)
Fixpoint gather (tasks : list (M state unit)) : M state (list (result unit)) :=
  match tasks with
  | [] => ret []
  | t :: rest =>
      r <- capture t ;;
      rs <- gather rest ;;
      ret (r :: rs)
  end.

(** The probes of a pass start together and finish in the order of their
    completion times; each writes its row when it finishes. *)
Definition check_all_urls (env : environment) : M state unit :=
  urls <- gets (fun st => Db.get_all_urls (db (world st))) ;;
  lift (emit (EvPass (map Db.id urls))) ;;;
  match urls with
  | [] => ret tt
  | _ =>
      start <- gets (fun st => clock (world st)) ;;
      s <- gets (fun st => session (self st)) ;;
      let completion :=
        Sql.order_by
          (fun a b => finish_time env s start a <=? finish_time env s start b)
          urls in
      results <- gather (map (check_single_url_at env start) completion) ;;
      ret tt
  end.

Definition check_single_url_immediately (env : environment) (u : string)
  : M state unit :=
  urls <- gets (fun st => Db.get_all_urls (db (world st))) ;;
  let url_data := find (fun r => String.eqb (Db.url r) u) urls in
  s <- gets (fun st => session (self st)) ;;
  match url_data, s with
  | Some row, Some _ => check_single_url env row
  | Some row, None =>
      set_session (Some (mkSession Temporary false)) ;;;
      check_single_url env row ;;;
      set_session None
  | None, _ => ret tt
  end.

Definition send_user_notification (env : environment) (user : Z)
    (user_email : string) : M state bool :=
  ns <- gets (fun st => notification_service (self st)) ;;
  match ns with
  | Some n => lift (Notification.send_user_uptime_summary n env user user_email)
  | None => ret false
  end.

Definition stop_monitoring : M state unit :=
  set_running false ;;;
  s <- gets (fun st => session (self st)) ;;
  match s with
  | Some sess => set_session (Some (mkSession (kind sess) true))
  | None => ret tt
  end.

Definition sleep (secs : Z) : M state unit :=
  lift (emit (EvSleep secs)) ;;;
  lift (modify (fun w => mkWorld (db w) (clock w + Clock.seconds secs) (log w))).

Definition notify (env : environment) : M state unit :=
  ns <- gets (fun st => notification_service (self st)) ;;
  match ns with
  | Some n => lift (Notification.send_notifications_to_all_users n env)
  | None => lift (emit EvNoBroadcast)
  end.

(** [while self.running: ...], at most [fuel] iterations; [k] numbers the
    iteration.  A [stop_monitoring()] from another task lands while the
    loop is suspended in its sleep. *)
Fixpoint monitoring_loop (env : environment) (fuel k : nat) : M state unit :=
  match fuel with
  | O => ret tt
  | S fuel' =>
      r <- gets (fun st => running (self st)) ;;
      if r : bool
      then
        sleep 300 ;;;
        (if stop_requested env k then stop_monitoring else ret tt) ;;;
        check_all_urls env ;;;
        notify env ;;;
        monitoring_loop env fuel' (S k)
      else ret tt
  end.

(** The prologue of [start_monitoring]: the state becomes Running and the
    shared session is created. *)
Definition enter_running : M state unit :=
  set_running true ;;;
  set_session (Some (mkSession Shared false)).

Definition start_monitoring (env : environment) (fuel : nat) : M state unit :=
  enter_running ;;;
  check_all_urls env ;;;
  monitoring_loop env fuel 0.

End Monitoring.

(* ================================================================== *)
(** * Notions the properties are stated with *)

Module Spec.
Import Exc Env.

(** The constraints of the schema: [id] is the primary key of [urls], and
    [UNIQUE(url, user_id)]. *)
Definition unique_targets (d : Db.database) : Prop :=
  forall a b, In a (Db.urls d) -> In b (Db.urls d) ->
    Db.url a = Db.url b -> Db.user_id a = Db.user_id b -> Db.id a = Db.id b.

(** The targets a user owns, and the checks of a target, in rowid order. *)
Definition targets_of (d : Db.database) (user : Z) : list Db.url_row :=
  filter (fun r => Db.user_id r =? user) (Db.urls d).

Definition checks_of (d : Db.database) (target : Z) : list Db.check_row :=
  filter (fun c => Db.url_id c =? target) (Db.checks d).

(** A probe as the specification sees it: when it completed, and whether
    it succeeded. *)
Record probe := mkProbe {
  completed : Clock.instant;
  succeeded : bool
}.

(** The trailing 24-hour window of the specification: strictly after
    [now - 24h], up to [now]. *)
Definition in_trailing_24h (now : Clock.instant) (p : probe) : bool :=
  (now - Clock.hours 24 <? completed p) && (completed p <=? now).

(** The specification's percentage over a history of probes:
    [100 * successful_count / total_count], 0 when the window is empty. *)
Definition uptime_24h (now : Clock.instant) (history : list probe) : Q :=
  let window := filter (in_trailing_24h now) history in
  match window with
  | [] => 0
  | _ => inject_Z (100 * Z.of_nat (List.length (filter succeeded window)))
         / inject_Z (Z.of_nat (List.length window))
  end.

(** The store after the probes of [history], oldest first, were recorded
    for [target] through [add_check_result]. *)
Definition recorded (target : Z) (history : list probe) (d : Db.database)
  : Db.database :=
  fold_left
    (fun acc p =>
       if succeeded p
       then Db.add_check_result (completed p) acc target 200 "success" 120
       else Db.add_check_result (completed p) acc target 500 "error" 120)
    history d.

(** The percentage before rounding, from the rows the window query counts. *)
Definition raw_uptime (rows : list Db.check_row) : Py.number :=
  match rows with
  | [] => Py.Int 0
  | _ => Py.Float (Py.fmul
                     (Py.int_truediv
                        (fold_right (fun r acc => Db.is_success r + acc) 0 rows)
                        (Sql.count rows))
                     100)
  end.

(** Whether the snapshot taken for [user] through the URL of [row] is
    below 99. *)
Definition below_99 (env : environment) (w : world) (user : Z)
    (row : Db.url_row) : bool :=
  match Db.get_url_status (utcoffset env) (clock w) (db w)
                          (Db.url row) (Some user) with
  | Ok (Some st) => Py.lt_int (Db.uptime_percentage st) 99
  | _ => false
  end.

(** A target is degraded when its current snapshot is below 99. *)
Definition degraded (env : environment) (w : world) (row : Db.url_row) : bool :=
  below_99 env w (Db.user_id row) row.

(** The scheduler's own steps, read off the log. *)
Inductive step := Pass | Sleep (secs : Z) | Broadcast | NoBroadcast.

Definition step_of (e : event) : option step :=
  match e with
  | EvPass _ => Some Pass
  | EvSleep s => Some (Sleep s)
  | EvBroadcast => Some Broadcast
  | EvNoBroadcast => Some NoBroadcast
  | _ => None
  end.

Fixpoint steps_of (l : list event) : list step :=
  match l with
  | [] => []
  | e :: rest =>
      match step_of e with
      | Some s => s :: steps_of rest
      | None => steps_of rest
      end
  end.

(** How an iteration of the scheduler ends: with the broadcast when the
    notification service exists, with a skip otherwise. *)
Definition closing_step (ns : option Notification.service) : step :=
  match ns with
  | Some _ => Broadcast
  | None => NoBroadcast
  end.

Definition iteration (ns : option Notification.service) : list step :=
  [Sleep 300; Pass; closing_step ns].

(** The users [send_user_uptime_summary] was called for. *)
Fixpoint summarised (l : list event) : list Z :=
  match l with
  | [] => []
  | EvSummary u :: rest => u :: summarised rest
  | _ :: rest => summarised rest
  end.

End Spec.

(* ================================================================== *)
(** * Concrete runs *)

Module Scenario.
Import Exc Env.
Open Scope string_scope.

Definition site : string := "https://a.example/".

(** One user, one registered target, no check yet. *)
Definition db0 : Db.database :=
  Db.mkDb [Db.mkUser 1 "ann" "ann@example.org"]
          [Db.mkUrl 1 site "2023-12-01 10:00:00" 1 None]
          [].

(** A healthy site that answers 200 in a quarter of a second; a host on
    UTC; mail configured and accepted. *)
Definition healthy (u : string) (t : Clock.instant) : http_outcome :=
  mkOutcome 250000 (Response 200).

Definition env0 : environment :=
  mkEnv 0 healthy (fun _ => Ok tt) (fun _ => None) (fun _ => false)
        Unset (Some "monitor@example.org") (Some "app-password").

(** 2024-01-02 01:30:00 UTC. *)
Definition t0 : Clock.instant := Clock.seconds 1704159000.

Definition st0 : Monitoring.state :=
  Monitoring.mkState (Monitoring.init env0) (mkWorld db0 t0 []).

(** The service was started and then stopped. *)
Definition after_stop : Monitoring.state :=
  fst ((Monitoring.enter_running ;;; Monitoring.stop_monitoring) st0).

(** The history of the specification's example: a success 25 hours ago,
    an error 2 hours ago, a success 1 hour ago. *)
Definition spec_example (now : Clock.instant) : list Spec.probe :=
  [Spec.mkProbe (now - Clock.hours 25) true;
   Spec.mkProbe (now - Clock.hours 2) false;
   Spec.mkProbe (now - Clock.hours 1) true].

Definition db_example : Db.database := Spec.recorded 1 (spec_example t0) db0.

(** 2024-01-02 00:30:00 UTC, and two probes of the last hour: a success
    45 minutes ago and an error 40 minutes ago. *)
Definition t1 : Clock.instant := Clock.seconds 1704155400.

Definition last_hour (now : Clock.instant) : list Spec.probe :=
  [Spec.mkProbe (now - Clock.seconds 2700) true;
   Spec.mkProbe (now - Clock.seconds 2400) false].

Definition db_last_hour : Db.database := Spec.recorded 1 (last_hour t1) db0.

(** Three targets of two users.  The first site answers 200, the second
    answers 503, the third does not answer within the timeout; the relay
    refuses the second user's address. *)
Definition db_three : Db.database :=
  Db.mkDb [Db.mkUser 1 "ann" "ann@example.org";
           Db.mkUser 2 "bob" "bob@example.org"]
          [Db.mkUrl 1 "https://a.example/" "2023-12-01 10:00:00" 1 None;
           Db.mkUrl 2 "https://b.example/" "2023-12-02 11:00:00" 1 (Some "blog");
           Db.mkUrl 3 "https://c.example/" "2023-12-03 12:00:00" 2 None]
          [].

Definition mixed (u : string) (t : Clock.instant) : http_outcome :=
  if String.eqb u "https://a.example/" then mkOutcome 250000 (Response 200)
  else if String.eqb u "https://b.example/" then mkOutcome 90000 (Response 503)
  else mkOutcome 40000000 (Response 200).

Definition env_mixed : environment :=
  mkEnv 0 mixed
        (fun r => if String.eqb r "bob@example.org"
                  then Raise SMTPRecipientsRefused else Ok tt)
        (fun _ => None) (fun _ => false)
        Unset (Some "monitor@example.org") (Some "app-password").

Definition st_mixed : Monitoring.state :=
  Monitoring.mkState (Monitoring.init env_mixed) (mkWorld db_three t0 []).

(** [SMTP_PORT] holds a text that is not a number: the notification
    service cannot be constructed. *)
Definition env_no_mail : environment :=
  mkEnv 0 healthy (fun _ => Ok tt) (fun _ => None) (fun _ => false)
        Malformed (Some "monitor@example.org") (Some "app-password").

Definition st_no_mail : Monitoring.state :=
  Monitoring.mkState (Monitoring.init env_no_mail) (mkWorld db0 t0 []).

(** The same service once Running, and the world after one pass over the
    three targets. *)
Definition st_running : Monitoring.state :=
  fst (Monitoring.enter_running st_mixed).

Definition w_probed : world :=
  Monitoring.world (fst (Monitoring.check_all_urls env_mixed st_running)).

End Scenario.

(* ================================================================== *)
(** * database_manager.py: accounts, registration of targets, logs *)

Module Registry.
Import Exc.

(** The columns [password_hash] and [salt] of a row of [users]. *)
Record secret := mkSecret {
  owner : Z;
  password_hash : string;
  salt : string
}.

(** The database file: the three tables, and for the two tables that are
    written with [AUTOINCREMENT] keys the entry of [sqlite_sequence], the
    largest key the table has ever held. *)
Record store := mkStore {
  tables : Db.database;
  secrets : list secret;
  user_seq : Z;
  url_seq : Z
}.

(** [init_database] on a new file. *)
Definition empty : store := mkStore (Db.mkDb [] [] []) [] 0 0.

Definition largest (keys : list Z) : Z := fold_right Z.max 0 keys.

(** The key an [AUTOINCREMENT] column gives to a new row. *)
Definition next_rowid (keys : list Z) (seq : Z) : Z :=
  Z.max (largest keys) seq + 1.

Definition with_tables (s : store) (d : Db.database) : store :=
  mkStore d (secrets s) (user_seq s) (url_seq s).

Section Passwords.
(** [hashlib.pbkdf2_hmac('sha256', password, salt, 100000).hex()]. *)
Variable pbkdf2 : string -> string -> string.

(** [token_hex] is what [secrets.token_hex(16)] returns if it is called. *)
Definition hash_password (token_hex : string) (password : string)
    (given : option string) : string * string :=
  let s := match given with
           | Some s => s
           | None => token_hex
           end in
  (pbkdf2 password s, s).

Definition verify_password (password hashed_password salt : string) : bool :=
  String.eqb (fst (hash_password EmptyString password (Some salt)))
             hashed_password.

(** [INSERT INTO users]; the [IntegrityError] of [username UNIQUE] gives
    [None]. *)
Definition create_user (token_hex : string) (s : store)
    (username password email : string) : store * option Z :=
  let '(pwd_hash, salt) := hash_password token_hex password None in
  let users := Db.users (tables s) in
  if existsb (fun u => String.eqb (Db.username u) username) users
  then (s, None)
  else
    let user_id := next_rowid (map Db.uid users) (user_seq s) in
    (mkStore (Db.mkDb (users ++ [Db.mkUser user_id username email])
                      (Db.urls (tables s)) (Db.checks (tables s)))
             (secrets s ++ [mkSecret user_id pwd_hash salt])
             user_id (url_seq s),
     Some user_id).

(** [SELECT id, email, password_hash, salt FROM users WHERE username = ?]. *)
Definition verify_user (s : store) (username password : string)
  : option (Z * string) :=
  match find (fun u => String.eqb (Db.username u) username)
             (Db.users (tables s)) with
  | None => None
  | Some u =>
      match find (fun c => owner c =? Db.uid u) (secrets s) with
      | None => None
      | Some c =>
          if verify_password password (password_hash c) (salt c)
          then Some (Db.uid u, Db.email u)
          else None
      end
  end.
End Passwords.

Definition user_owns_url (d : Db.database) (u : string) (user : Z) : bool :=
  match find (fun r => String.eqb (Db.url r) u && (Db.user_id r =? user))
             (Db.urls d) with
  | Some _ => true
  | None => false
  end.

(** [get_url_id]: the query of [get_url_status] without the category. *)
Definition get_url_id (d : Db.database) (u : string) (user : option Z)
  : option Z :=
  option_map Db.id (Db.select_url d u user).

(** [INSERT INTO urls (url, user_id, category)] at instant [t]; the
    [IntegrityError] of [UNIQUE(url, user_id)] gives [False].  Foreign
    keys are not enforced: the owner need not exist. *)
Definition add_url (t : Clock.instant) (s : store) (u : string) (user : Z)
    (category : option string) : store * bool :=
  let d := tables s in
  if user_owns_url d u user
  then (s, false)
  else
    let key := next_rowid (map Db.id (Db.urls d)) (url_seq s) in
    (mkStore (Db.mkDb (Db.users d)
                      (Db.urls d ++ [Db.mkUrl key u (Clock.current_timestamp t)
                                              user category])
                      (Db.checks d))
             (secrets s) (user_seq s) key,
     true).

(** [remove_url]: the checks of the target go first, then the target. *)
Definition remove_url (s : store) (u : string) (user : Z) : store * bool :=
  let d := tables s in
  match find (fun r => String.eqb (Db.url r) u && (Db.user_id r =? user))
             (Db.urls d) with
  | None => (s, false)
  | Some row =>
      let url_id := Db.id row in
      (with_tables s
         (Db.mkDb (Db.users d)
                  (filter (fun r => negb (Db.id r =? url_id)) (Db.urls d))
                  (filter (fun c => negb (Db.url_id c =? url_id)) (Db.checks d))),
       true)
  end.

(** [UPDATE urls SET category = ? WHERE url = ? AND user_id = ?];
    [cursor.rowcount > 0]. *)
Definition update_url_category (s : store) (u : string) (user : Z)
    (category : string) : store * bool :=
  let d := tables s in
  let hit r := String.eqb (Db.url r) u && (Db.user_id r =? user) in
  (with_tables s
     (Db.mkDb (Db.users d)
              (map (fun r => if hit r
                             then Db.mkUrl (Db.id r) (Db.url r) (Db.created_at r)
                                           (Db.user_id r) (Some category)
                             else r)
                   (Db.urls d))
              (Db.checks d)),
   existsb hit (Db.urls d)).

(** [LIMIT ?]: a negative bound is no bound. *)
Definition sql_limit {A} (n : Z) (rows : list A) : list A :=
  if n <? 0 then rows else firstn (Z.to_nat n) rows.

(** [get_url_logs]: the join of [checks] with the rows of [urls] that carry
    the URL (and belong to the user, when one is given), newest first. *)
Definition get_url_logs (d : Db.database) (u : string) (user : option Z)
    (limit : Z) : list Db.check_row :=
  let wanted r :=
    String.eqb (Db.url r) u
    && (if Db.truthy_int user
        then match user with
             | Some n => Db.user_id r =? n
             | None => true
             end
        else true) in
  let joined :=
    flat_map (fun c =>
                map (fun _ => c)
                    (filter (fun r => (Db.url_id c =? Db.id r) && wanted r)
                            (Db.urls d)))
             (Db.checks d) in
  sql_limit limit (Sql.order_by (Sql.desc Db.timestamp) joined).

(** What the schema and the code keep true of a store. *)
Definition consistent (s : store) : Prop :=
  let d := tables s in
  NoDup (map Db.id (Db.urls d))
  /\ (forall r, In r (Db.urls d) -> 1 <= Db.id r <= url_seq s)
  /\ (forall a b, In a (Db.urls d) -> In b (Db.urls d) ->
        Db.url a = Db.url b -> Db.user_id a = Db.user_id b -> Db.id a = Db.id b)
  /\ NoDup (map Db.username (Db.users d))
  /\ NoDup (map Db.uid (Db.users d))
  /\ (forall u, In u (Db.users d) -> 1 <= Db.uid u <= user_seq s)
  /\ map owner (secrets s) = map Db.uid (Db.users d)
  /\ (forall c, In c (Db.checks d) ->
        exists r, In r (Db.urls d) /\ Db.id r = Db.url_id c).

(** [WHERE url = ? AND user_id = ?]. *)
Definition owned_by (u : string) (user : Z) (r : Db.url_row) : bool :=
  String.eqb (Db.url r) u && (Db.user_id r =? user).

(** [ORDER BY c.timestamp DESC] as a relation between neighbours. *)
Definition newer_first (a b : Db.check_row) : Prop :=
  Clock.text_le (Db.timestamp b) (Db.timestamp a) = true.

(** [ORDER BY created_at DESC], likewise. *)
Definition created_later_first (a b : Db.url_row) : Prop :=
  Clock.text_le (Db.created_at b) (Db.created_at a) = true.

End Registry.

(* ================================================================== *)
(** * Histories of the database file *)

Module History.
Import Exc Env Registry.

(** Everything that writes to the database: the four writes of
    [DatabaseManager] that the API calls, and the two ways in which the
    monitoring service records checks. *)
Inductive write :=
| CreateUser (token_hex username password email : string)
| AddUrl (t : Clock.instant) (u : string) (user : Z) (category : option string)
| RemoveUrl (u : string) (user : Z)
| UpdateCategory (u : string) (user : Z) (category : string)
| CheckAll (env : environment) (svc : Monitoring.service) (t : Clock.instant)
| CheckNow (env : environment) (svc : Monitoring.service) (t : Clock.instant)
    (u : string).

(** The store after the monitoring service [svc] ran [m] at instant [t]. *)
Definition monitored (s : store) (svc : Monitoring.service)
    (t : Clock.instant) (m : M Monitoring.state unit) : store :=
  with_tables s
    (db (Monitoring.world
           (fst (m (Monitoring.mkState svc (mkWorld (tables s) t [])))))).

Section Replay.
Variable pbkdf2 : string -> string -> string.

Definition perform (s : store) (w : write) : store :=
  match w with
  | CreateUser token_hex username password email =>
      fst (create_user pbkdf2 token_hex s username password email)
  | AddUrl t u user category => fst (add_url t s u user category)
  | RemoveUrl u user => fst (remove_url s u user)
  | UpdateCategory u user category =>
      fst (update_url_category s u user category)
  | CheckAll env svc t => monitored s svc t (Monitoring.check_all_urls env)
  | CheckNow env svc t u =>
      monitored s svc t (Monitoring.check_single_url_immediately env u)
  end.

(** The writes of a history, one after the other, on a new file. *)
Definition replay (ws : list write) : store := fold_left perform ws empty.
End Replay.

(** A check written by a probe whose request could not even be sent. *)
Definition failed_at_once (c : Db.check_row) : Prop :=
  Db.status c = "error"%string /\ Db.response_code c = 0
  /\ Db.response_time_ms c = 0.


End History.

(* ================================================================== *)
(** * The summary mail *)

Module Report.
Import Env.

(** [uptime >= k] for an int literal [k]. *)
Definition ge_int (n : Py.number) (k : Z) : bool :=
  Qle_bool (inject_Z k) (Py.value n).

(** The class of a line of the table in [create_user_summary_email]. *)
Inductive uptime_class := success | warning | error.

Definition class_of (site : Db.url_status) : uptime_class :=
  let uptime := Db.uptime_percentage site in
  if ge_int uptime 99 then success
  else if ge_int uptime 95 then warning
  else error.

(** [overall_status]: the headline of the mail. *)
Inductive headline := Operational | Attention (down : Z).

Definition overall_status (down_sites : Z) : headline :=
  if down_sites =? 0 then Operational else Attention down_sites.

(** The lines of the table, one per snapshot. *)
Definition table (body : summary) : list (string * uptime_class) :=
  map (fun site => (Db.st_url site, class_of site)) (summary_data body).

Definition green (c : uptime_class) : bool :=
  match c with success => true | _ => false end.

(** The snapshots [send_user_uptime_summary] collects for the rows of a
    user, in the order of the rows. *)
Definition snapshots (env : environment) (w : world) (user : Z)
    (rows : list Db.url_row) : list Db.url_status :=
  flat_map
    (fun row =>
       match Db.get_url_status (utcoffset env) (clock w) (db w)
                               (Db.url row) (Some user) with
       | Exc.Ok (Some st) => [st]
       | _ => []
       end)
    rows.

(** [status.get("uptime_percentage", 100) < 99]. *)
Definition low (st : Db.url_status) : bool :=
  Py.lt_int (Db.uptime_percentage st) 99.



End Report.

(* ================================================================== *)
(** * dockerized/backend/api_backend.py *)

Module Api.
Import Exc Env Registry.

(** How a request ends: with the value the endpoint returns, with an
    [HTTPException], or with an exception nobody handles. *)
Inductive outcome (A : Type) :=
| Answer (a : A)
| HttpError (code : Z)
| Uncaught (e : exn).
Arguments Answer {A} a.
Arguments HttpError {A} code.
Arguments Uncaught {A} e.

Record current_user := mkCurrent {
  user_id : Z;
  username : string;
  email : string
}.

(** The process: the database file, the monitoring service, the clock and
    what has been observed. *)
Record app := mkApp {
  registry : store;
  monitor : Monitoring.service;
  now : Clock.instant;
  trace : list event
}.

(** A call into [monitoring_service]. *)
Definition monitoring {A} (m : M Monitoring.state A) : M app A :=
  fun a =>
    let st := Monitoring.mkState (monitor a)
                (mkWorld (tables (registry a)) (now a) (trace a)) in
    let (st', r) := m st in
    (mkApp (with_tables (registry a) (db (Monitoring.world st')))
           (Monitoring.self st')
           (clock (Monitoring.world st'))
           (log (Monitoring.world st')),
     r).

Section Endpoints.
Variable pbkdf2 : string -> string -> string.

(** [user_id, email = db_manager.verify_user(...)]: unpacking [None]
    raises [TypeError]. *)
Definition get_current_user (s : store) (name password : string)
  : outcome current_user :=
  match verify_user pbkdf2 s name password with
  | None => Uncaught TypeError
  | Some (uid, mail) =>
      if uid =? 0 then HttpError 401
      else Answer (mkCurrent uid name mail)
  end.

(** [POST /register]. *)
Definition register_user (token_hex : string) (s : store)
    (name password mail : string) : store * outcome Z :=
  match create_user pbkdf2 token_hex s name password mail with
  | (s', Some uid) =>
      if uid =? 0 then (s', HttpError 400) else (s', Answer uid)
  | (s', None) => (s', HttpError 400)
  end.
End Endpoints.

(** [POST /track] for the authenticated [user]; [url_str] is
    [str(request.url)]. *)
Definition track_url (env : environment) (user : Z) (url_str : string)
    (category : option string) (a : app) : app * outcome unit :=
  let (s', added) := add_url (now a) (registry a) url_str user category in
  if added
  then
    let a1 := mkApp s' (monitor a) (now a) (trace a) in
    let (a2, _) :=
      try_except
        (monitoring (Monitoring.check_single_url_immediately env url_str))
        (fun _ => ret tt) a1 in
    (a2, Answer tt)
  else (a, HttpError 400).






(** [POST /send-report]: the [HTTPException] raised inside the [try] is
    caught by its [except Exception] and raised again as a 500. *)
Definition send_my_report (env : environment) (cu : current_user) (a : app)
  : app * outcome unit :=
  match
    try_except
      (success <- monitoring
                    (Monitoring.send_user_notification env (user_id cu)
                                                       (email cu)) ;;
       if success : bool then ret (Answer tt) else ret (HttpError 500))
      (fun _ => ret (HttpError 500)) a
  with
  | (a', Ok r) => (a', r)
  | (a', Raise e) => (a', Uncaught e)
  end.

End Api.

(* ================================================================== *)
(** * A sample store *)

(** A store to run the registry on: the users and targets of
    [Scenario.db_three] with their credentials, and four checks. *)
Module Sample.
Import Exc Env Registry.
Open Scope string_scope.

(** A stand-in for the key derivation that can be evaluated. *)
Definition kdf (password salt : string) : string := salt ++ "$" ++ password.

Definition checks0 : list Db.check_row :=
  [Db.mkCheck 1 "2024-01-02 01:00:00" 200 "success" 250;
   Db.mkCheck 2 "2024-01-02 01:00:00" 503 "error" 90;
   Db.mkCheck 1 "2024-01-02 01:05:00" 200 "success" 240;
   Db.mkCheck 1 "2024-01-02 01:10:00" 0 "error" 30000].

Definition store0 : store :=
  mkStore (Db.mkDb (Db.users Scenario.db_three) (Db.urls Scenario.db_three)
                   checks0)
          [mkSecret 1 (kdf "ann-pw" "5f1c") "5f1c";
           mkSecret 2 (kdf "bob-pw" "a07e") "a07e"]
          2 3.

(** The sites of [Scenario.env_mixed], with a [stop_monitoring()] during
    the second sleep of the loop. *)
Definition env_stop : environment :=
  mkEnv 0 Scenario.mixed (fun _ => Ok tt) (fun _ => None)
        (fun k => Nat.eqb k 1)
        Unset (Some "monitor@example.org") (Some "app-password").


(** The process before monitoring was started. *)
Definition app0 : Api.app :=
  Api.mkApp store0 (Monitoring.init Scenario.env_mixed) Scenario.t0 [].

End Sample.

(* ================================================================== *)
(** * Properties *)

Section ListFacts.
Context {A : Type}.

Lemma find_absent (f : A -> bool) (l : list A) :
  (forall x, In x l -> f x = false) -> find f l = None.
Proof.
  induction l as [|a l IH]; intros H; simpl; [reflexivity|].
  rewrite (H a (or_introl eq_refl)). apply IH.
  intros x Hx. apply H. now right.
Qed.
End ListFacts.

Module MonitoringFacts.
Import Exc Env Monitoring.

Ltac run := unfold bind, gets, ret, modify, lift, try_except, raise; simpl.

(** ** One probe *)

Lemma check_single_url_at_run env start row st :
  let o := session_get env (session (self st)) (Db.url row) start in
  let t := start + elapsed o in
  let code := match reply_of o with Response c => c | Failure _ => 0 end in
  let status :=
    match reply_of o with
    | Response c => if c <? 400 then "success"%string else "error"%string
    | Failure _ => "error"%string
    end in
  check_single_url_at env start row st =
  (mkState (self st)
     (mkWorld (Db.add_check_result t (db (world st)) (Db.id row) code status
                                   (response_time_ms o))
              (Z.max (clock (world st)) t)
              (log (world st) ++ [EvGet (session (self st)) (Db.url row)])),
   Ok tt).
Proof.
  unfold check_single_url_at, record, emit, advance_to, write_db. run.
  destruct (reply_of _) as [c|e]; simpl; [reflexivity|].
  destruct e; reflexivity.
Qed.

(** C4.  Whatever a probe comes to, it leaves exactly one new row for its
    target: a response below 400 is recorded as "success" with its code,
    a response of 400 or more as "error" with its code, a timeout as
    "error" with code 0, and every other failure as "error" with code 0. *)
Theorem probe_outcome_classification env row st :
  let o := session_get env (session (self st)) (Db.url row) (clock (world st)) in
  exists c st',
    check_single_url env row st = (st', Ok tt)
    /\ Db.checks (db (world st')) = Db.checks (db (world st)) ++ [c]
    /\ Db.url_id c = Db.id row
    /\ (forall code, reply_of o = Response code ->
          Db.response_code c = code
          /\ Db.status c = if code <? 400 then "success"%string else "error"%string)
    /\ (reply_of o = Failure TimeoutError ->
          Db.response_code c = 0 /\ Db.status c = "error"%string)
    /\ (forall e, reply_of o = Failure e ->
          Db.response_code c = 0 /\ Db.status c = "error"%string).
Proof.
  intros o. unfold check_single_url.
  unfold bind at 1, gets at 1. cbv beta iota.
  rewrite check_single_url_at_run. fold o.
  eexists. eexists. split; [reflexivity|]. simpl.
  split; [reflexivity|]. split; [reflexivity|].
  repeat split; intros; simpl;
    match goal with H : reply_of o = _ |- _ => rewrite H end; reflexivity.
Qed.

(** C10.  An immediate check of a URL that no row of [urls] carries
    changes nothing: no row is written, nothing is requested, the
    service keeps its fields, and no exception is raised. *)
Theorem immediate_check_of_unknown_url env u st :
  (forall r, In r (Db.urls (db (world st))) -> Db.url r <> u) ->
  check_single_url_immediately env u st = (st, Ok tt).
Proof.
  intros H. unfold check_single_url_immediately, Db.get_all_urls. run.
  rewrite find_absent.
  - destruct st; reflexivity.
  - intros r Hr. apply String.eqb_neq. now apply H.
Qed.

Lemma immediate_check_of_unknown_url_witness :
  check_single_url_immediately Scenario.env0 "https://nowhere.example/"
                               Scenario.st0
  = (Scenario.st0, Ok tt).
Proof.
  apply immediate_check_of_unknown_url.
  intros r [<-|[]]. discriminate.
Defined.

(** X18.  The session an immediate check goes through.  With no session at
    all, a temporary one is made for the probe and dropped afterwards;
    with a session in [self.session], open or closed, that one is used. *)
Lemma immediate_check_without_session env u st row :
  find (fun r => String.eqb (Db.url r) u) (Db.urls (db (world st))) = Some row ->
  session (self st) = None ->
  exists w',
    check_single_url_immediately env u st = (mkState (self st) w', Ok tt)
    /\ log w'
       = log (world st) ++ [EvGet (Some (mkSession Temporary false)) (Db.url row)].
Proof.
  intros Hrow Hs. unfold check_single_url_immediately, Db.get_all_urls.
  unfold bind at 1, gets at 1. cbv beta iota. rewrite Hrow.
  unfold bind at 1, gets at 1. cbv beta iota. rewrite Hs.
  unfold bind at 1, set_session at 1, modify. cbv beta iota.
  unfold bind at 1, check_single_url, bind at 1, gets at 1. cbv beta iota.
  rewrite check_single_url_at_run. cbv beta iota zeta.
  unfold set_session, modify. cbn [self world session notification_service running].
  destruct st as [[ns sess run] w]. cbn in Hs. subst sess.
  cbn [self world session notification_service running].
  eexists. split; reflexivity.
Qed.


(** C7 (defect).  After [start_monitoring] and [stop_monitoring] the
    service is Stopped, yet an immediate check of a registered, healthy
    target goes through the shared session, which is closed: the request
    fails at once and the target gets an "error" row with code 0.  No
    temporary session is made. *)
Theorem immediate_check_after_stop :
  running (self Scenario.after_stop) = false
  /\ check_single_url_immediately Scenario.env0 Scenario.site Scenario.after_stop
     = (mkState (self Scenario.after_stop)
          (mkWorld
             (Db.mkDb (Db.users Scenario.db0) (Db.urls Scenario.db0)
                      [Db.mkCheck 1 "2024-01-02 01:30:00" 0 "error" 0])
             Scenario.t0
             [EvGet (Some (mkSession Shared true)) Scenario.site]),
        Ok tt).
Proof. split; vm_compute; reflexivity. Qed.

End MonitoringFacts.

(** ** The order on TEXT values *)

Module TextFacts.

Lemma ascii_compare_refl (c : ascii) : Ascii.compare c c = Eq.
Proof. unfold Ascii.compare. apply N.compare_refl. Qed.

Lemma ascii_compare_lt_trans (x y z : ascii) :
  Ascii.compare x y = Lt -> Ascii.compare y z = Lt -> Ascii.compare x z = Lt.
Proof.
  unfold Ascii.compare. rewrite !N.compare_lt_iff. apply N.lt_trans.
Qed.

Lemma compare_refl (s : string) : String.compare s s = Eq.
Proof.
  induction s as [|c s IH]; simpl; [reflexivity|].
  now rewrite ascii_compare_refl.
Qed.

Lemma compare_not_gt_trans (a : string) :
  forall b c, String.compare a b <> Gt -> String.compare b c <> Gt ->
              String.compare a c <> Gt.
Proof.
  induction a as [|x a IH]; intros [|y b] [|z c]; simpl; try congruence.
  destruct (Ascii.compare x y) eqn:Exy; [| |congruence].
  - apply Ascii.compare_eq_iff in Exy. subst y.
    destruct (Ascii.compare x z); [apply IH|congruence|congruence].
  - destruct (Ascii.compare y z) eqn:Eyz; [| |congruence]; intros _ _.
    + apply Ascii.compare_eq_iff in Eyz. subst z. rewrite Exy. congruence.
    + rewrite (ascii_compare_lt_trans x y z Exy Eyz). congruence.
Qed.

Lemma leb_not_gt (a b : string) :
  String.leb a b = true <-> String.compare a b <> Gt.
Proof.
  unfold String.leb. destruct (String.compare a b); split; congruence.
Qed.

Lemma leb_refl (s : string) : Clock.text_le s s = true.
Proof. apply leb_not_gt. rewrite compare_refl. congruence. Qed.

Lemma leb_trans (a b c : string) :
  Clock.text_le a b = true -> Clock.text_le b c = true ->
  Clock.text_le a c = true.
Proof.
  unfold Clock.text_le. rewrite !leb_not_gt. apply compare_not_gt_trans.
Qed.

Lemma leb_total (a b : string) :
  Clock.text_le a b = true \/ Clock.text_le b a = true.
Proof. apply String.leb_total. Qed.

End TextFacts.

(** ** Timestamps: the order of the texts and the order of time *)

Module ClockFacts.
Import Clock.

Lemma append_assoc (a b c : string) :
  ((a ++ b) ++ c)%string = (a ++ (b ++ c))%string.
Proof. induction a as [|x a IH]; simpl; [reflexivity|]. now rewrite IH. Qed.

Lemma lex_assoc (a b c : comparison) : lex (lex a b) c = lex a (lex b c).
Proof. now destruct a. Qed.

Lemma compare_cons (c1 c2 : ascii) (s1 s2 : string) :
  String.compare (String c1 s1) (String c2 s2)
  = lex (Ascii.compare c1 c2) (String.compare s1 s2).
Proof. simpl. now destruct (Ascii.compare c1 c2). Qed.

Lemma digit_code (n : Z) :
  0 <= n < 10 -> N_of_ascii (ascii_of_nat (48 + Z.to_nat n)) = Z.to_N (48 + n).
Proof.
  intros H. unfold ascii_of_nat.
  rewrite N_ascii_embedding by lia. lia.
Qed.

Lemma digit_compare (a b : Z) :
  Ascii.compare (digit a) (digit b) = (a mod 10 ?= b mod 10).
Proof.
  unfold Ascii.compare, digit.
  assert (Ha : 0 <= a mod 10 < 10) by (apply Z.mod_pos_bound; lia).
  assert (Hb : 0 <= b mod 10 < 10) by (apply Z.mod_pos_bound; lia).
  rewrite !digit_code by assumption.
  rewrite Z2N.inj_compare by lia.
  apply Z.add_compare_mono_l.
Qed.

(** Comparing two numbers is comparing their quotients, then their
    remainders. *)
Lemma compare_div_mod (k a b : Z) :
  0 < k ->
  (a ?= b) = lex (a / k ?= b / k) (a mod k ?= b mod k).
Proof.
  intros Hk.
  pose proof (Z.div_mod a k) as Ea. pose proof (Z.div_mod b k) as Eb.
  pose proof (Z.mod_pos_bound a k Hk). pose proof (Z.mod_pos_bound b k Hk).
  destruct (Z.compare_spec (a / k) (b / k)) as [E|L|G]; simpl.
  - destruct (Z.compare_spec (a mod k) (b mod k)) as [E'|L'|G'].
    + apply Z.compare_eq_iff. rewrite Ea, Eb by lia. congruence.
    + apply Z.compare_lt_iff. rewrite Ea, Eb by lia. rewrite E. lia.
    + apply Z.compare_gt_iff. rewrite Ea, Eb by lia. rewrite E. lia.
  - apply Z.compare_lt_iff. rewrite Ea, Eb by lia. nia.
  - apply Z.compare_gt_iff. rewrite Ea, Eb by lia. nia.
Qed.

Lemma pad_compare (w : nat) :
  forall a b r1 r2,
    0 <= a < 10 ^ Z.of_nat w -> 0 <= b < 10 ^ Z.of_nat w ->
    String.compare (pad w a ++ r1) (pad w b ++ r2)
    = lex (a ?= b) (String.compare r1 r2).
Proof.
  induction w as [|w IH]; intros a b r1 r2 Ha Hb.
  - simpl in *. assert (a = 0) by lia. assert (b = 0) by lia. now subst.
  - cbn [pad]. rewrite !append_assoc. cbn [append].
    rewrite Nat2Z.inj_succ, Z.pow_succ_r in Ha, Hb by lia.
    rewrite IH.
    + rewrite compare_cons, digit_compare, <- lex_assoc.
      now rewrite <- compare_div_mod by lia.
    + split; [apply Z.div_pos; lia|apply Z.div_lt_upper_bound; lia].
    + split; [apply Z.div_pos; lia|apply Z.div_lt_upper_bound; lia].
Qed.

Lemma lex_key (k a b c d : Z) :
  0 <= c < k -> 0 <= d < k ->
  lex (a ?= b) (c ?= d) = (a * k + c ?= b * k + d).
Proof.
  intros Hc Hd. rewrite (compare_div_mod k (a * k + c) (b * k + d)) by lia.
  rewrite !(Z.add_comm (_ * k)).
  rewrite !Z.div_add, !Z.mod_add, !Z.div_small, !Z.mod_small by lia.
  reflexivity.
Qed.

Lemma compare_same_head (c : ascii) (s1 s2 : string) :
  String.compare (String c s1) (String c s2) = String.compare s1 s2.
Proof. rewrite compare_cons, TextFacts.ascii_compare_refl. reflexivity. Qed.

(** The text of a date orders as the date. *)
Lemma date_text_compare (d1 d2 : date) (r1 r2 : string) :
  0 <= year d1 < 10000 -> 0 <= year d2 < 10000 ->
  0 <= month d1 < 100 -> 0 <= month d2 < 100 ->
  0 <= day d1 < 100 -> 0 <= day d2 < 100 ->
  String.compare (date_text d1 ++ r1) (date_text d2 ++ r2)
  = lex (date_key d1 ?= date_key d2) (String.compare r1 r2).
Proof.
  intros. unfold date_text, date_key. rewrite !append_assoc.
  rewrite (pad_compare 4) by (simpl; lia). cbn [append].
  rewrite compare_same_head, ?append_assoc.
  rewrite (pad_compare 2) by (simpl; lia). cbn [append].
  rewrite compare_same_head.
  rewrite (pad_compare 2) by (simpl; lia).
  rewrite <- !lex_assoc. f_equal.
  rewrite (lex_key 100), (lex_key 100) by lia. reflexivity.
Qed.

Lemma time_text_compare (d1 d2 : datetime) :
  0 <= hour d1 < 100 -> 0 <= hour d2 < 100 ->
  0 <= minute d1 < 100 -> 0 <= minute d2 < 100 ->
  0 <= second d1 < 100 -> 0 <= second d2 < 100 ->
  String.compare (time_text d1) (time_text d2)
  = (clock_key d1 ?= clock_key d2).
Proof.
  intros. unfold time_text, clock_key.
  rewrite (pad_compare 2) by (simpl; lia). cbn [append].
  rewrite compare_same_head.
  rewrite (pad_compare 2) by (simpl; lia). cbn [append].
  rewrite compare_same_head.
  replace (pad 2 (second d1)) with (pad 2 (second d1) ++ "")%string
    by (clear; induction (pad 2 (second d1)); simpl; congruence).
  replace (pad 2 (second d2)) with (pad 2 (second d2) ++ "")%string
    by (clear; induction (pad 2 (second d2)); simpl; congruence).
  rewrite (pad_compare 2) by (simpl; lia). simpl String.compare.
  assert (E : forall c, lex c Eq = c) by (now intros []).
  rewrite E, <- lex_assoc, (lex_key 100), (lex_key 100) by lia. reflexivity.
Qed.

(** ** The calendar *)

Lemma days_in_month_bounds (y m : Z) : 28 <= days_in_month y m <= 31.
Proof.
  unfold days_in_month.
  destruct (m =? 2); [destruct (is_leap y); lia|].
  destruct ((m =? 4) || (m =? 6) || (m =? 9) || (m =? 11))%bool; lia.
Qed.

Lemma next_day_valid (d : date) : valid_date d -> valid_date (next_day d).
Proof.
  intros [Hm Hd]. unfold next_day, valid_date.
  pose proof (days_in_month_bounds (year d) (month d)).
  destruct (Z.ltb_spec (day d) (days_in_month (year d) (month d)));
    cbn [year month day].
  - lia.
  - destruct (Z.ltb_spec (month d) 12); cbn [year month day].
    + pose proof (days_in_month_bounds (year d) (month d + 1)) as [B _].
      repeat split; lia.
    + pose proof (days_in_month_bounds (year d + 1) 1) as [B _].
      repeat split; lia.
Qed.

Lemma date_of_days_valid (n : nat) : valid_date (date_of_days n).
Proof.
  induction n as [|n IH]; simpl.
  - repeat split; vm_compute; discriminate.
  - now apply next_day_valid.
Qed.

Lemma next_day_key (d : date) :
  valid_date d -> date_key d < date_key (next_day d).
Proof.
  intros [Hm Hd]. unfold next_day, date_key.
  pose proof (days_in_month_bounds (year d) (month d)).
  destruct (Z.ltb_spec (day d) (days_in_month (year d) (month d))); simpl.
  - lia.
  - destruct (Z.ltb_spec (month d) 12); simpl; lia.
Qed.

Lemma date_key_increasing (n m : nat) :
  (n < m)%nat -> date_key (date_of_days n) < date_key (date_of_days m).
Proof.
  induction 1 as [|m Hle IH]; simpl.
  - apply next_day_key, date_of_days_valid.
  - etransitivity; [exact IH|]. apply next_day_key, date_of_days_valid.
Qed.

Lemma date_key_compare (n m : nat) :
  (date_key (date_of_days n) ?= date_key (date_of_days m))
  = (Z.of_nat n ?= Z.of_nat m).
Proof.
  destruct (Z.compare_spec (Z.of_nat n) (Z.of_nat m)) as [E|L|G].
  - apply Nat2Z.inj in E. subst. apply Z.compare_refl.
  - apply Z.compare_lt_iff, date_key_increasing. lia.
  - apply Z.compare_gt_iff, date_key_increasing. lia.
Qed.

(** A year has at least 365 days: the year of day [n] is at most
    [1970 + n / 365]. *)
Lemma days_before_month_step (y m : Z) :
  1 <= m < 12 ->
  days_before_month (m + 1) - days_before_month m <= days_in_month y m.
Proof.
  intros H.
  assert (E : m = 1 \/ m = 2 \/ m = 3 \/ m = 4 \/ m = 5 \/ m = 6 \/ m = 7
              \/ m = 8 \/ m = 9 \/ m = 10 \/ m = 11) by lia.
  repeat destruct E as [E|E]; subst m; unfold days_in_month;
    cbn - [is_leap]; try lia; destruct (is_leap y); lia.
Qed.

Lemma year_lower_bound (n : nat) :
  365 * (year (date_of_days n) - 1970)
  + days_before_month (month (date_of_days n)) + (day (date_of_days n) - 1)
  <= Z.of_nat n.
Proof.
  induction n as [|n IH]; [simpl; lia|].
  rewrite Nat2Z.inj_succ. cbn [date_of_days].
  pose proof (date_of_days_valid n) as [Hm Hd].
  revert IH Hm Hd. generalize (date_of_days n) as d0. intros d0 IH Hm Hd.
  unfold next_day.
  destruct (Z.ltb_spec (day d0) (days_in_month (year d0) (month d0)));
    cbn [year month day].
  - lia.
  - destruct (Z.ltb_spec (month d0) 12); cbn [year month day].
    + pose proof (days_before_month_step (year d0) (month d0)). lia.
    + assert (E : month d0 = 12) by lia. rewrite E in *.
      change (days_in_month (year d0) 12) with 31 in *.
      change (days_before_month 12) with 334 in *.
      change (days_before_month 1) with 0. lia.
Qed.

Lemma year_bounds (n : nat) :
  1970 <= year (date_of_days n) <= 1970 + Z.of_nat n / 365.
Proof.
  split.
  - induction n as [|n IH]; simpl; [lia|].
    unfold next_day.
    destruct (_ <? _); simpl; [lia|]. destruct (_ <? _); simpl; lia.
  - pose proof (year_lower_bound n) as H.
    pose proof (date_of_days_valid n) as [Hm Hd].
    assert (0 <= days_before_month (month (date_of_days n))).
    { unfold days_before_month. repeat (destruct (_ =? _); [lia|]). lia. }
    assert (year (date_of_days n) - 1970 <= Z.of_nat n / 365)
      by (apply Z.div_le_lower_bound; lia).
    lia.
Qed.

Lemma day_number_range t : 0 <= t < horizon -> 0 <= day_number t < 365 * 8030.
Proof.
  unfold horizon, day_number, usec_per_day, usec_per_sec, sec_per_day.
  intros H. split; [apply Z.div_pos; lia|apply Z.div_lt_upper_bound; lia].
Qed.

Lemma second_of_day_range t : 0 <= second_of_day t < 86400.
Proof.
  unfold second_of_day, usec_per_day, usec_per_sec, sec_per_day.
  pose proof (Z.mod_pos_bound t (86400 * 1000000)).
  split; [apply Z.div_pos; lia|apply Z.div_lt_upper_bound; lia].
Qed.

Lemma seconds_split t :
  t / usec_per_sec = day_number t * 86400 + second_of_day t.
Proof.
  unfold day_number, second_of_day, usec_per_day, usec_per_sec, sec_per_day.
  Z.to_euclidean_division_equations. lia.
Qed.

Lemma date_in_range t :
  0 <= t < horizon ->
  let d := dt_date (fields_of t) in
  0 <= year d < 10000 /\ 0 <= month d < 100 /\ 0 <= day d < 100.
Proof.
  intros H d. subst d. unfold fields_of. cbn [dt_date].
  fold (day_number t). pose proof (day_number_range t H) as Hn.
  set (n := Z.to_nat (day_number t)).
  pose proof (year_bounds n) as [Hy1 Hy2].
  pose proof (date_of_days_valid n) as [Hm Hd].
  pose proof (days_in_month_bounds (year (date_of_days n)) (month (date_of_days n))).
  assert (Z.of_nat n / 365 < 8030).
  { apply Z.div_lt_upper_bound; [lia|]. unfold n. rewrite Z2Nat.id; lia. }
  repeat split; lia.
Qed.

Lemma clock_in_range t :
  let d := fields_of t in
  0 <= hour d < 100 /\ 0 <= minute d < 100 /\ 0 <= second d < 100.
Proof.
  intros d. subst d. unfold fields_of. cbn [hour minute second].
  fold (second_of_day t). pose proof (second_of_day_range t) as H.
  repeat split; try (apply Z.div_pos; lia);
    try (apply Z.div_lt_upper_bound; lia);
    try (apply Z.mod_pos_bound; lia).
  - pose proof (Z.mod_pos_bound (second_of_day t / 60) 60). lia.
  - pose proof (Z.mod_pos_bound (second_of_day t) 60). lia.
Qed.

Lemma clock_key_of_second t :
  clock_key (fields_of t)
  = second_of_day t + 40 * (second_of_day t / 60)
    + 4000 * (second_of_day t / 3600).
Proof.
  unfold clock_key, fields_of. cbn [hour minute second].
  fold (second_of_day t).
  Z.to_euclidean_division_equations. lia.
Qed.

Lemma clock_key_compare t1 t2 :
  (clock_key (fields_of t1) ?= clock_key (fields_of t2))
  = (second_of_day t1 ?= second_of_day t2).
Proof.
  rewrite !clock_key_of_second.
  assert (M : forall a b, a <= b ->
            a + 40 * (a / 60) + 4000 * (a / 3600)
            <= b + 40 * (b / 60) + 4000 * (b / 3600)).
  { intros a b Hab.
    pose proof (Z.div_le_mono a b 60). pose proof (Z.div_le_mono a b 3600). lia. }
  destruct (Z.compare_spec (second_of_day t1) (second_of_day t2)) as [E|L|G].
  - rewrite E. apply Z.compare_refl.
  - apply Z.compare_lt_iff.
    pose proof (M (second_of_day t1 + 1) (second_of_day t2)).
    pose proof (Z.div_le_mono (second_of_day t1) (second_of_day t1 + 1) 60).
    pose proof (Z.div_le_mono (second_of_day t1) (second_of_day t1 + 1) 3600).
    lia.
  - apply Z.compare_gt_iff.
    pose proof (M (second_of_day t2 + 1) (second_of_day t1)).
    pose proof (Z.div_le_mono (second_of_day t2) (second_of_day t2 + 1) 60).
    pose proof (Z.div_le_mono (second_of_day t2) (second_of_day t2 + 1) 3600).
    lia.
Qed.

Lemma date_key_of_instant t1 t2 :
  0 <= t1 -> 0 <= t2 ->
  (date_key (dt_date (fields_of t1)) ?= date_key (dt_date (fields_of t2)))
  = (day_number t1 ?= day_number t2).
Proof.
  intros H1 H2. unfold fields_of. cbn [dt_date]. fold (day_number t1) (day_number t2).
  rewrite date_key_compare, !Z2Nat.id; [reflexivity| |];
    unfold day_number, usec_per_day, sec_per_day, usec_per_sec;
    apply Z.div_pos; lia.
Qed.

(** The texts of [CURRENT_TIMESTAMP] order as the seconds they render. *)
Lemma current_timestamp_compare t1 t2 :
  0 <= t1 < horizon -> 0 <= t2 < horizon ->
  String.compare (current_timestamp t1) (current_timestamp t2)
  = (t1 / usec_per_sec ?= t2 / usec_per_sec).
Proof.
  intros H1 H2. unfold current_timestamp.
  destruct (date_in_range t1 H1) as (? & ? & ?).
  destruct (date_in_range t2 H2) as (? & ? & ?).
  destruct (clock_in_range t1) as (? & ? & ?).
  destruct (clock_in_range t2) as (? & ? & ?).
  rewrite date_text_compare by assumption. cbn [append].
  rewrite compare_same_head, time_text_compare by assumption.
  rewrite date_key_of_instant, clock_key_compare by lia.
  rewrite !seconds_split.
  pose proof (second_of_day_range t1). pose proof (second_of_day_range t2).
  now rewrite (lex_key 86400) by assumption.
Qed.

(** The window test of the query: a row written at [t] compares greater
    than the ISO text of [b] exactly when [t] falls on a later calendar
    day than [b]; on the same day the space sorts before the ['T']. *)
Lemma window_test t b :
  0 <= t < horizon -> 0 <= b < horizon ->
  text_gt (current_timestamp t) (isoformat (fields_of b))
  = (day_number b <? day_number t).
Proof.
  intros H1 H2. unfold text_gt, String.ltb, current_timestamp, isoformat.
  destruct (date_in_range t H1) as (? & ? & ?).
  destruct (date_in_range b H2) as (? & ? & ?).
  rewrite date_text_compare by assumption. cbn [append].
  rewrite compare_cons. change (Ascii.compare "T" " ") with Gt. cbn [lex].
  rewrite date_key_of_instant by lia.
  unfold Z.ltb. now destruct (day_number b ?= day_number t).
Qed.

End ClockFacts.

(** ** binary64 arithmetic of the percentage *)

Module PyFacts.
Import Py.

Lemma frac_pos (y f : Q) :
  (y - f == 1 # 2)%Q \/ (1 # 2 < y - f)%Q -> (f < y)%Q.
Proof. intros [H|H]; lra. Qed.

Lemma rne_bounds (y : Q) (n : Z) :
  (0 <= y)%Q -> (y <= inject_Z n)%Q -> 0 <= rne y <= n.
Proof.
  intros H0 Hn. unfold rne.
  pose proof (Qfloor_le y) as Hf. pose proof (Qlt_floor y) as Hc.
  assert (F0 : 0 <= Qfloor y).
  { assert (H : (inject_Z 0 < inject_Z (Qfloor y + 1))%Q)
      by (apply Qle_lt_trans with y; assumption).
    rewrite <- Zlt_Qlt in H. lia. }
  assert (Fn : Qfloor y <= n).
  { rewrite Zle_Qle. apply Qle_trans with y; assumption. }
  assert (Up : (inject_Z (Qfloor y) < y)%Q -> Qfloor y + 1 <= n).
  { intros H. assert (H' : (inject_Z (Qfloor y) < inject_Z n)%Q)
      by (apply Qlt_le_trans with y; assumption).
    rewrite <- Zlt_Qlt in H'. lia. }
  destruct (Qcompare_spec (y - inject_Z (Qfloor y)) (1 # 2)) as [E|L|G].
  - destruct (Z.even (Qfloor y)); [lia|].
    assert (P : (inject_Z (Qfloor y) < y)%Q) by (apply frac_pos; now left).
    specialize (Up P). lia.
  - lia.
  - assert (P : (inject_Z (Qfloor y) < y)%Q) by (apply frac_pos; now right).
    specialize (Up P). lia.
Qed.

Lemma rne_near (y : Q) :
  (inject_Z (rne y) - (1 # 2) <= y <= inject_Z (rne y) + (1 # 2))%Q.
Proof.
  unfold rne.
  pose proof (Qfloor_le y) as Hf. pose proof (Qlt_floor y) as Hc.
  rewrite inject_Z_plus in Hc. change (inject_Z 1) with 1%Q in Hc.
  destruct (Qcompare_spec (y - inject_Z (Qfloor y)) (1 # 2)) as [E|L|G];
    [destruct (Z.even (Qfloor y))| |];
    rewrite ?inject_Z_plus; change (inject_Z 1) with 1%Q;
    generalize dependent (inject_Z (Qfloor y)); intros f; intros; lra.
Qed.

Lemma pow2_pos (k : Z) : (0 < pow2 k)%Q.
Proof.
  unfold pow2. destruct (0 <=? k) eqn:E.
  - apply Z.leb_le in E. change 0%Q with (inject_Z 0). rewrite <- Zlt_Qlt.
    apply Z.pow_pos_nonneg; lia.
  - reflexivity.
Qed.

Lemma pow2_inverse (k : Z) : 0 <= k -> (pow2 k * pow2 (- k) == 1)%Q.
Proof.
  intros Hk. unfold pow2.
  destruct (Z.eq_dec k 0) as [->|Hne]; [reflexivity|].
  replace (0 <=? k) with true by (symmetry; apply Z.leb_le; lia).
  replace (0 <=? - k) with false by (symmetry; apply Z.leb_gt; lia).
  rewrite Z.opp_involutive.
  assert (Hp : 0 < 2 ^ k) by (apply Z.pow_pos_nonneg; lia).
  unfold Qeq, Qmult, inject_Z. simpl.
  rewrite Z2Pos.id by assumption. lia.
Qed.

Lemma pow2_nonneg_exp (k : Z) : 0 <= k -> pow2 k = inject_Z (2 ^ k).
Proof. intros H. unfold pow2. now apply Z.leb_le in H as ->. Qed.

(** A value of at most [2^m] has a binary exponent of at most [m + 1]. *)
Lemma ilog2_upper (x : Q) (m : Z) :
  (0 < x)%Q -> (x <= inject_Z (2 ^ m))%Q -> 0 <= m -> ilog2 x <= m + 1.
Proof.
  intros Hpos Hle Hm. unfold ilog2.
  assert (E : Z.log2 (Qnum x) - Z.log2 (Z.pos (Qden x)) <= m + 1).
  { destruct x as [p q]. unfold Qlt, Qle, inject_Z in *. cbn [Qnum Qden] in *.
    rewrite Z.mul_1_r in *.
    assert (Hp : 0 < p) by lia.
    assert (H2 : 0 < 2 ^ m) by (apply Z.pow_pos_nonneg; lia).
    pose proof (Z.log2_le_mono p (2 ^ m * Z.pos q) Hle) as L1.
    pose proof (Z.log2_mul_above (2 ^ m) (Z.pos q)) as L2.
    rewrite Z.log2_pow2 in L2 by lia. lia. }
  destruct (Qle_bool _ _); lia.
Qed.

Section Round53.
Variables (x : Q) (m : Z).
Hypothesis x_pos : (0 < x)%Q.
Hypothesis x_le : (x <= inject_Z (2 ^ m))%Q.
Hypothesis m_range : 0 <= m <= 50.

Let k : Z := Z.min (52 - ilog2 x) 1074.

Lemma scale_pos : 0 < k.
Proof.
  unfold k. pose proof (ilog2_upper x m x_pos x_le (proj1 m_range)). lia.
Qed.

Lemma round53_pos_value :
  (round53_pos x == inject_Z (rne (x * pow2 k)) * pow2 (- k))%Q.
Proof. unfold round53_pos. fold k. apply Qred_correct. Qed.

(** Rounding keeps a value below any integer bound it respects. *)
Lemma round53_pos_bounds (B : Z) :
  (x <= inject_Z B)%Q -> (0 <= round53_pos x <= inject_Z B)%Q.
Proof.
  intros HB. rewrite round53_pos_value.
  pose proof scale_pos as Hk.
  pose proof (pow2_pos k) as HP. pose proof (pow2_pos (- k)) as HI.
  pose proof (pow2_inverse k ltac:(lia)) as HPI.
  assert (Hr : 0 <= rne (x * pow2 k) <= B * 2 ^ k).
  { apply rne_bounds.
    - apply Qmult_le_0_compat; [now apply Qlt_le_weak|now apply Qlt_le_weak].
    - rewrite inject_Z_mult, <- pow2_nonneg_exp by lia.
      apply Qmult_le_compat_r; [exact HB|now apply Qlt_le_weak]. }
  destruct Hr as [Hr0 HrB].
  rewrite Zle_Qle in Hr0, HrB.
  rewrite inject_Z_mult, <- pow2_nonneg_exp in HrB by lia.
  change (inject_Z 0) with 0%Q in Hr0.
  set (r := inject_Z (rne (x * pow2 k))) in *.
  split.
  - apply Qmult_le_0_compat; [exact Hr0|now apply Qlt_le_weak].
  - assert (E : (inject_Z B * pow2 k * pow2 (- k) == inject_Z B)%Q)
      by (rewrite <- Qmult_assoc, HPI; ring).
    rewrite <- E. apply Qmult_le_compat_r; [exact HrB|now apply Qlt_le_weak].
Qed.

(** The rounding error is at most half a unit of the last place. *)
Lemma round53_pos_error :
  (- (1 # 2) * pow2 (- k) <= round53_pos x - x <= (1 # 2) * pow2 (- k))%Q.
Proof.
  rewrite round53_pos_value.
  pose proof scale_pos as Hk.
  pose proof (pow2_pos (- k)) as HI.
  pose proof (pow2_inverse k ltac:(lia)) as HPI.
  pose proof (rne_near (x * pow2 k)) as [N1 N2].
  set (r := inject_Z (rne (x * pow2 k))) in *.
  assert (E : (x == x * pow2 k * pow2 (- k))%Q)
    by (rewrite <- Qmult_assoc, HPI; ring).
  assert (M1 : ((r - (1 # 2)) * pow2 (- k) <= x * pow2 k * pow2 (- k))%Q)
    by (apply Qmult_le_compat_r; [exact N1|now apply Qlt_le_weak]).
  assert (M2 : (x * pow2 k * pow2 (- k) <= (r + (1 # 2)) * pow2 (- k))%Q)
    by (apply Qmult_le_compat_r; [exact N2|now apply Qlt_le_weak]).
  rewrite <- E in M1, M2.
  generalize dependent (pow2 (- k)). intros i. intros.
  split; lra.
Qed.

Lemma ulp_small : (pow2 (- k) <= pow2 (m - 51))%Q.
Proof.
  pose proof scale_pos as Hk.
  pose proof (ilog2_upper x m x_pos x_le (proj1 m_range)) as Hl.
  assert (Hk' : 51 - m <= k) by (unfold k; lia).
  unfold pow2.
  replace (0 <=? - k) with false by (symmetry; apply Z.leb_gt; lia).
  replace (0 <=? m - 51) with false by (symmetry; apply Z.leb_gt; lia).
  rewrite Z.opp_involutive. replace (- (m - 51)) with (51 - m) by lia.
  unfold Qle. cbn [Qnum Qden].
  assert (0 < 2 ^ (51 - m)) by (apply Z.pow_pos_nonneg; lia).
  assert (0 < 2 ^ k) by (apply Z.pow_pos_nonneg; lia).
  rewrite !Z2Pos.id, !Z.mul_1_l by assumption.
  apply Z.pow_le_mono_r; lia.
Qed.
End Round53.

Lemma round53_bounds (x : Q) (B m : Z) :
  (0 <= x)%Q -> (x <= inject_Z B)%Q -> B <= 2 ^ m -> 0 <= m <= 50 ->
  (0 <= round53 x <= inject_Z B)%Q.
Proof.
  intros H0 HB Hm Hr. unfold round53.
  assert (HB0 : (0 <= inject_Z B)%Q) by (now apply Qle_trans with x).
  destruct (Qcompare_spec x 0) as [E|L|G].
  - split; [apply Qle_refl|exact HB0].
  - exfalso. apply (Qlt_not_le _ _ L H0).
  - apply (round53_pos_bounds x m G); [|exact Hr|exact HB].
    apply Qle_trans with (inject_Z B); [exact HB|now rewrite <- Zle_Qle].
Qed.

Lemma round53_error (x : Q) (m : Z) :
  (0 <= x)%Q -> (x <= inject_Z (2 ^ m))%Q -> 0 <= m <= 50 ->
  (- ((1 # 2) * pow2 (m - 51)) <= round53 x - x <= (1 # 2) * pow2 (m - 51))%Q.
Proof.
  intros H0 Hx Hr. unfold round53.
  pose proof (pow2_pos (m - 51)) as Hp.
  destruct (Qcompare_spec x 0) as [E|L|G].
  - rewrite E. generalize dependent (pow2 (m - 51)). intros u ?. split; lra.
  - exfalso. apply (Qlt_not_le _ _ L H0).
  - pose proof (round53_pos_error x m G Hx Hr) as [E1 E2].
    pose proof (ulp_small x m G Hx Hr) as U.
    generalize dependent (pow2 (m - 51)). intros u. intros.
    generalize dependent (pow2 (- Z.min (52 - ilog2 x) 1074)). intros v. intros.
    split; lra.
Qed.

(** ** The percentage from the two counts *)

Section Percentage.
Variables s t : Z.
Hypothesis counts : 0 <= s <= t.
Hypothesis t_pos : 0 < t.

Let exact : Q := 100 * (inject_Z s / inject_Z t).
Let ratio : Q := int_truediv s t.
Let percent : Q := fmul ratio 100.

Lemma quotient_range : (0 <= inject_Z s / inject_Z t <= inject_Z 1)%Q.
Proof.
  assert (Ht : (0 < inject_Z t)%Q)
    by (change 0%Q with (inject_Z 0); now rewrite <- Zlt_Qlt).
  split.
  - apply Qle_shift_div_l; [exact Ht|].
    rewrite Qmult_0_l. change 0%Q with (inject_Z 0). rewrite <- Zle_Qle. lia.
  - apply Qle_shift_div_r; [exact Ht|].
    rewrite <- inject_Z_mult, <- Zle_Qle. lia.
Qed.

Lemma ratio_range : (0 <= ratio <= 1)%Q.
Proof.
  destruct quotient_range as [Q0 Q1].
  apply (round53_bounds _ 1 0 Q0 Q1); [apply Z.leb_le; reflexivity|lia].
Qed.

Lemma percent_range : (0 <= percent <= 100)%Q.
Proof.
  destruct ratio_range as [R0 R1]. unfold percent, fmul.
  apply (round53_bounds _ 100 7);
    [lra|change (inject_Z 100) with 100%Q; lra|apply Z.leb_le; reflexivity|lia].
Qed.

Lemma hundredths_range : 0 <= hundredths percent <= 10000.
Proof.
  destruct percent_range as [P0 P1]. unfold hundredths.
  apply rne_bounds; [lra|change (inject_Z 10000) with 10000%Q; lra].
Qed.

Lemma rounded_range : (0 <= float_round2 percent <= 100)%Q.
Proof.
  pose proof hundredths_range as [H0 H1]. unfold float_round2.
  rewrite Zle_Qle in H0, H1.
  change (inject_Z 0) with 0%Q in H0. change (inject_Z 10000) with 10000%Q in H1.
  apply (round53_bounds _ 100 7); [| |apply Z.leb_le; reflexivity|lia].
  - apply Qle_shift_div_l; [reflexivity|]. lra.
  - apply Qle_shift_div_r; [reflexivity|].
    change (inject_Z 100 * 100)%Q with 10000%Q. exact H1.
Qed.

(** The two-place decimal is within half a hundredth, and the error of
    the two float operations, of [100 * s / t]. *)
Lemma hundredths_near :
  (- ((1 # 200) + pow2 (- 44))
   <= inject_Z (hundredths percent) / 100 - exact
   <= (1 # 200) + pow2 (- 44))%Q.
Proof.
  destruct quotient_range as [Q0 Q1]. destruct ratio_range as [R0 R1].
  pose proof (round53_error _ 0 Q0 Q1 ltac:(lia)) as [E1 E2].
  fold (int_truediv s t) in E1, E2. fold ratio in E1, E2.
  assert (P1 : (ratio * 100 <= inject_Z (2 ^ 7))%Q)
    by (change (inject_Z (2 ^ 7)) with 128%Q; lra).
  assert (P0 : (0 <= ratio * 100)%Q) by lra.
  pose proof (round53_error _ 7 P0 P1 ltac:(lia)) as [E3 E4].
  fold (fmul ratio 100) in E3, E4. fold percent in E3, E4.
  pose proof (rne_near (percent * 100)) as [N1 N2].
  fold (hundredths percent) in N1, N2.
  let c := eval vm_compute in (pow2 (0 - 51)) in
    change (pow2 (0 - 51)) with c in E1, E2.
  let c := eval vm_compute in (pow2 (7 - 51)) in
    change (pow2 (7 - 51)) with c in E3, E4.
  let c := eval vm_compute in (pow2 (- 44)) in change (pow2 (- 44)) with c.
  unfold exact.
  generalize dependent (inject_Z (hundredths percent)). intros d. intros.
  generalize dependent (inject_Z s / inject_Z t)%Q. intros e. intros.
  assert (D : (d / 100 == d * (1 # 100))%Q) by (unfold Qdiv; reflexivity).
  rewrite D. clear D.
  split; lra.
Qed.
End Percentage.

(** The model against values CPython prints: [round(1/3*100, 2)] is the
    double nearest to 33.33, and [round(23/160*100, 2)] is 14.37, because
    the product is a double just below the tie 14.375. *)
Example one_third :
  float_round2 (fmul (int_truediv 1 3) 100)
  = (2345390243441541 # 70368744177664)%Q.
Proof. vm_compute. reflexivity. Qed.

Example below_the_tie :
  hundredths (fmul (int_truediv 23 160) 100) = 1437
  /\ (fmul (int_truediv 23 160) 100 < 14375 # 1000)%Q.
Proof. split; vm_compute; reflexivity. Qed.

End PyFacts.

(** ** ORDER BY *)

Module SqlFacts.

Section Sorting.
Context {A : Type}.
Variable before : A -> A -> bool.

Lemma insert_perm (x : A) (l : list A) :
  Permutation (Sql.insert before x l) (x :: l).
Proof.
  induction l as [|y l IH]; simpl; [reflexivity|].
  destruct (before x y); [reflexivity|].
  rewrite IH. apply perm_swap.
Qed.

Lemma order_by_perm (l : list A) : Permutation (Sql.order_by before l) l.
Proof.
  induction l as [|x l IH]; simpl; [reflexivity|].
  rewrite insert_perm. now constructor.
Qed.

Lemma order_by_nil (l : list A) : Sql.order_by before l = [] -> l = [].
Proof.
  intros H. apply Permutation_nil. rewrite <- H. apply order_by_perm.
Qed.

Hypothesis before_total : forall a b, before a b = true \/ before b a = true.
Hypothesis before_trans :
  forall a b c, before a b = true -> before b c = true -> before a c = true.

(** The first row of the ordered result comes before every row. *)
Lemma order_by_head (l : list A) (h : A) :
  hd_error (Sql.order_by before l) = Some h ->
  In h l /\ forall x, In x l -> before h x = true.
Proof.
  revert h. induction l as [|x l IH]; simpl; intros h Hh; [discriminate|].
  destruct (Sql.order_by before l) as [|y s] eqn:E; simpl in Hh.
  - injection Hh as <-. apply order_by_nil in E. subst l.
    split; [now left|]. intros z [<-|[]].
    destruct (before_total x x); assumption.
  - destruct (IH y eq_refl) as [Hy Hall].
    destruct (before x y) eqn:Exy; simpl in Hh; injection Hh as <-.
    + split; [now left|]. intros z [<-|Hz].
      * destruct (before_total x x); assumption.
      * eapply before_trans; [exact Exy|]. now apply Hall.
    + split; [now right|]. intros z [<-|Hz].
      * destruct (before_total x y) as [F|T]; [congruence|exact T].
      * now apply Hall.
Qed.
End Sorting.

End SqlFacts.

(** ** get_url_status *)

Module DbFacts.
Import Exc Spec.

Lemma count_pos {A} (x : A) (l : list A) : (0 <? Sql.count (x :: l)) = true.
Proof. unfold Sql.count. apply Z.ltb_lt. simpl List.length. lia. Qed.

(** The guard [total_checks > 0] keeps [None] away from the division. *)
Lemma percentage_of_rows (rows : list Db.check_row) :
  Db.percentage (Sql.count rows) (Sql.sum Db.is_success rows)
  = Ok (raw_uptime rows).
Proof.
  destruct rows as [|c rows]; [reflexivity|].
  unfold Db.percentage. rewrite count_pos. reflexivity.
Qed.

Lemma get_url_status_found off now d u user row :
  Db.select_url d u user = Some row ->
  Db.get_url_status off now d u user
  = Ok (Some (Db.mkStatus u
                (Py.round2 (raw_uptime
                   (Db.window_rows d (Db.id row) (Db.yesterday off now))))
                (option_map Db.timestamp (Db.latest_check d (Db.id row)))
                (Db.truthy_str (Db.category row)))).
Proof.
  intros H. unfold Db.get_url_status, Db.uptime_data. rewrite H.
  now rewrite percentage_of_rows.
Qed.

Lemma get_url_status_total off now d u user :
  exists r, Db.get_url_status off now d u user = Ok r.
Proof.
  destruct (Db.select_url d u user) as [row|] eqn:E.
  - rewrite (get_url_status_found _ _ _ _ _ _ E). eauto.
  - unfold Db.get_url_status. rewrite E. eauto.
Qed.

(** A target is found again through its URL and its owner. *)
Lemma select_url_owned d row :
  In row (Db.urls d) -> Db.user_id row <> 0 -> unique_targets d ->
  exists r, Db.select_url d (Db.url row) (Some (Db.user_id row)) = Some r
            /\ Db.id r = Db.id row.
Proof.
  intros Hin Hnz Huniq. unfold Db.select_url, Db.truthy_int.
  apply Z.eqb_neq in Hnz. rewrite Hnz. simpl.
  destruct (find _ (Db.urls d)) as [r|] eqn:E.
  - exists r. split; [reflexivity|].
    apply find_some in E. destruct E as [Hr Hm].
    apply andb_true_iff in Hm. destruct Hm as [Hu Hi].
    apply String.eqb_eq in Hu. apply Z.eqb_eq in Hi.
    now apply Huniq.
  - apply (find_none _ _ E) in Hin.
    rewrite String.eqb_refl, Z.eqb_refl in Hin. discriminate.
Qed.

Lemma desc_total (a b : Db.check_row) :
  Sql.desc Db.timestamp a b = true \/ Sql.desc Db.timestamp b a = true.
Proof. unfold Sql.desc. apply TextFacts.leb_total. Qed.

Lemma desc_trans (a b c : Db.check_row) :
  Sql.desc Db.timestamp a b = true -> Sql.desc Db.timestamp b c = true ->
  Sql.desc Db.timestamp a c = true.
Proof.
  unfold Sql.desc. intros H1 H2. eapply TextFacts.leb_trans; eassumption.
Qed.

Lemma latest_check_none d target :
  Db.latest_check d target = None <-> checks_of d target = [].
Proof.
  unfold Db.latest_check. fold (checks_of d target). split; intros H.
  - apply (SqlFacts.order_by_nil (Sql.desc Db.timestamp)).
    destruct (Sql.order_by _ _); [reflexivity|discriminate].
  - now rewrite H.
Qed.

Lemma latest_check_some d target c :
  Db.latest_check d target = Some c ->
  In c (checks_of d target)
  /\ forall c', In c' (checks_of d target) ->
                Clock.text_le (Db.timestamp c') (Db.timestamp c) = true.
Proof.
  unfold Db.latest_check. fold (checks_of d target). intros H.
  exact (SqlFacts.order_by_head _ desc_total desc_trans _ _ H).
Qed.

Lemma successes_range (rows : list Db.check_row) :
  0 <= fold_right (fun r acc => Db.is_success r + acc) 0 rows
    <= Sql.count rows.
Proof.
  unfold Sql.count. induction rows as [|c rows IH]; simpl fold_right.
  - simpl. lia.
  - simpl List.length. rewrite Nat2Z.inj_succ.
    unfold Db.is_success at 1 3. destruct (String.eqb _ _); lia.
Qed.

(** X17.  The arithmetic of the percentage, over the rows the window query
    counted: the integer 0 when there is none; otherwise the float
    nearest to a decimal [d / 100] with two places, [d] between 0 and
    10000, that lies within half a hundredth (and the error of two float
    operations) of [100 * successful / total]. *)
Lemma uptime_percentage_arithmetic (rows : list Db.check_row) :
  let successful := fold_right (fun r acc => Db.is_success r + acc) 0 rows in
  let total := Sql.count rows in
  let pct := Py.round2 (raw_uptime rows) in
  (rows = [] -> pct = Py.Int 0)
  /\ (0 <= Py.value pct <= 100)%Q
  /\ exists d,
       0 <= d <= 10000
       /\ Py.value pct = Py.round53 (inject_Z d / 100)
       /\ (rows <> [] ->
           pct = Py.Float (Py.round53 (inject_Z d / 100))
           /\ (- ((1 # 200) + Py.pow2 (- 44))
               <= inject_Z d / 100 - 100 * (inject_Z successful / inject_Z total)
               <= (1 # 200) + Py.pow2 (- 44))%Q).
Proof.
  intros successful total pct.
  destruct rows as [|c rows].
  - split; [reflexivity|]. split; [split; discriminate|].
    exists 0. split; [lia|]. split; [reflexivity|]. congruence.
  - set (l := c :: rows) in *.
    pose proof (successes_range l) as Hs. fold successful total in Hs.
    assert (Ht : 0 < total) by (apply Z.ltb_lt, (count_pos c rows)).
    split; [discriminate|].
    split; [exact (PyFacts.rounded_range successful total Hs Ht)|].
    exists (Py.hundredths (Py.fmul (Py.int_truediv successful total) 100)).
    split; [exact (PyFacts.hundredths_range successful total Hs Ht)|].
    split; [reflexivity|]. intros _.
    split; [reflexivity|].
    exact (PyFacts.hundredths_near successful total Hs Ht).
Qed.

(** The percentage of a target's snapshot is that arithmetic, applied to
    the rows of the target that pass the window test of the query. *)
Lemma uptime_of_target off now d row :
  In row (Db.urls d) -> Db.user_id row <> 0 -> unique_targets d ->
  exists st,
    Db.get_url_status off now d (Db.url row) (Some (Db.user_id row))
    = Ok (Some st)
    /\ Db.uptime_percentage st
       = Py.round2 (raw_uptime
           (Db.window_rows d (Db.id row) (Db.yesterday off now))).
Proof.
  intros Hin Hnz Huniq.
  destruct (select_url_owned d row Hin Hnz Huniq) as (r & Hsel & Hid).
  eexists. split; [apply (get_url_status_found _ _ _ _ _ _ Hsel)|].
  simpl. now rewrite Hid.
Qed.

(** The rows the window query counts.  A row written at [t] passes
    [timestamp > ?] exactly when [t] falls, in UTC, on or after the
    calendar day on which the host's local clock stands: the bound is the
    day before with a ['T'] after the date, and a stored text of that same
    day has a space there. *)
Lemma counted_since_local_midnight off now t :
  0 <= t < Clock.horizon ->
  Clock.usec_per_day <= Clock.datetime_now off now < Clock.horizon ->
  Clock.text_gt (Clock.current_timestamp t) (Db.yesterday off now)
  = (Clock.day_number (Clock.datetime_now off now) <=? Clock.day_number t).
Proof.
  intros Ht Hnow. unfold Db.yesterday.
  assert (Hday : 0 < Clock.usec_per_day) by reflexivity.
  rewrite ClockFacts.window_test; [|exact Ht|unfold Clock.minus_days; lia].
  unfold Clock.minus_days, Clock.day_number.
  replace (Clock.datetime_now off now - 1 * Clock.usec_per_day)
    with (Clock.datetime_now off now + (-1) * Clock.usec_per_day) by lia.
  rewrite Z.div_add by lia.
  apply Bool.eq_true_iff_eq. rewrite Z.ltb_lt, Z.leb_le. lia.
Qed.

(** C3.  For a target of the store, [last_checked] is absent exactly when
    the target has no check at all; otherwise it is the timestamp of one
    of the target's checks and no check of the target, of whatever age,
    has a later timestamp: not as a text, and, for rows stamped by
    [CURRENT_TIMESTAMP], not as a second of time either.  The field does
    not depend on the clock: the 24-hour window plays no part in it. *)
Theorem last_checked_is_latest_of_any_age off now d row :
  In row (Db.urls d) -> Db.user_id row <> 0 -> unique_targets d ->
  exists st,
    Db.get_url_status off now d (Db.url row) (Some (Db.user_id row))
    = Ok (Some st)
    /\ (Db.last_checked st = None <-> checks_of d (Db.id row) = [])
    /\ (forall ts, Db.last_checked st = Some ts ->
          (exists c, In c (checks_of d (Db.id row)) /\ Db.timestamp c = ts)
          /\ forall c, In c (checks_of d (Db.id row)) ->
                       Clock.text_le (Db.timestamp c) ts = true)
    /\ (forall c t t',
          In c (checks_of d (Db.id row)) ->
          Db.timestamp c = Clock.current_timestamp t ->
          Db.last_checked st = Some (Clock.current_timestamp t') ->
          0 <= t < Clock.horizon -> 0 <= t' < Clock.horizon ->
          t / Clock.usec_per_sec <= t' / Clock.usec_per_sec)
    /\ (forall off' now', exists st',
          Db.get_url_status off' now' d (Db.url row) (Some (Db.user_id row))
          = Ok (Some st')
          /\ Db.last_checked st' = Db.last_checked st).
Proof.
  intros Hin Hnz Huniq.
  destruct (select_url_owned d row Hin Hnz Huniq) as (r & Hsel & Hid).
  eexists. split; [apply (get_url_status_found _ _ _ _ _ _ Hsel)|].
  simpl. rewrite Hid.
  assert (Hlatest : forall ts,
            option_map Db.timestamp (Db.latest_check d (Db.id row)) = Some ts ->
            (exists c, In c (checks_of d (Db.id row)) /\ Db.timestamp c = ts)
            /\ forall c, In c (checks_of d (Db.id row)) ->
                         Clock.text_le (Db.timestamp c) ts = true).
  { intros ts Hts.
    destruct (Db.latest_check d (Db.id row)) as [c|] eqn:E; [|discriminate].
    simpl in Hts. injection Hts as <-.
    destruct (latest_check_some _ _ _ E) as [Hc Hmax].
    split; [now exists c|exact Hmax]. }
  split; [|split; [exact Hlatest|split]].
  - rewrite <- latest_check_none.
    destruct (Db.latest_check d (Db.id row)); simpl; split; congruence.
  - intros c t t' Hc Hts Hlast Ht Ht'.
    destruct (Hlatest _ Hlast) as [_ Hmax]. specialize (Hmax c Hc).
    rewrite Hts in Hmax. apply TextFacts.leb_not_gt in Hmax.
    rewrite ClockFacts.current_timestamp_compare in Hmax by assumption.
    now apply Z.compare_le_iff.
  - intros off' now'. eexists.
    split; [apply (get_url_status_found _ _ _ _ _ _ Hsel)|].
    simpl. now rewrite Hid.
Qed.

End DbFacts.

(** ** The window of the percentage *)

Module WindowFacts.
Import Exc Spec.

(** C3, at a store: the target of the specification's example. *)
Lemma last_checked_is_latest_of_any_age_witness :
  exists st,
    Db.get_url_status 0 Scenario.t0 Scenario.db_example Scenario.site (Some 1)
    = Ok (Some st)
    /\ Db.last_checked st = Some "2024-01-02 00:30:00"%string.
Proof.
  destruct (DbFacts.last_checked_is_latest_of_any_age 0 Scenario.t0
              Scenario.db_example
              (Db.mkUrl 1 Scenario.site "2023-12-01 10:00:00" 1 None))
    as (st & Hst & _).
  - left. reflexivity.
  - discriminate.
  - intros a b [<-|[]] [<-|[]] _ _. reflexivity.
  - exists st. split; [exact Hst|].
    vm_compute in Hst. injection Hst as <-. reflexivity.
Defined.

(** C2 (defect).  The specification's example, evaluated at 01:30 on a
    host on UTC.  The rows were written by [add_check_result] 25 hours,
    2 hours and 1 hour before; the bound of the query is the text
    ['2024-01-01T01:30:00'].  The error of 23:30 the day before lies
    inside the trailing 24 hours, but its text, with a space where the
    bound has a ['T'], does not compare greater than the bound: the
    query counts one row and the percentage is 100, where the
    specification counts two probes and gives 50. *)
Theorem spec_example_at_half_past_one :
  Db.yesterday 0 Scenario.t0 = "2024-01-01T01:30:00"%string
  /\ Db.checks Scenario.db_example
     = [Db.mkCheck 1 "2024-01-01 00:30:00" 200 "success" 120;
        Db.mkCheck 1 "2024-01-01 23:30:00" 500 "error" 120;
        Db.mkCheck 1 "2024-01-02 00:30:00" 200 "success" 120]
  /\ Db.window_rows Scenario.db_example 1 (Db.yesterday 0 Scenario.t0)
     = [Db.mkCheck 1 "2024-01-02 00:30:00" 200 "success" 120]
  /\ Db.get_url_status 0 Scenario.t0 Scenario.db_example Scenario.site (Some 1)
     = Ok (Some (Db.mkStatus Scenario.site (Py.Float 100)
                             (Some "2024-01-02 00:30:00"%string) None))
  /\ filter (in_trailing_24h Scenario.t0) (Scenario.spec_example Scenario.t0)
     = [mkProbe (Scenario.t0 - Clock.hours 2) false;
        mkProbe (Scenario.t0 - Clock.hours 1) true]
  /\ uptime_24h Scenario.t0 (Scenario.spec_example Scenario.t0) == 50.
Proof. repeat split; vm_compute; reflexivity. Qed.

(** C1 (defect).  At 00:30 on a host on UTC, a target probed 45 and 40
    minutes ago, once with success and once with an error.  Both rows
    carry the date of the day before, so neither compares greater than
    the bound ['2024-01-01T00:30:00']: the snapshot reports the integer
    0, as for a target without any probe, where the percentage over the
    trailing 24 hours is 100 * 1 / 2 = 50. *)
Theorem uptime_half_an_hour_after_midnight :
  Db.checks Scenario.db_last_hour
  = [Db.mkCheck 1 "2024-01-01 23:45:00" 200 "success" 120;
     Db.mkCheck 1 "2024-01-01 23:50:00" 500 "error" 120]
  /\ Db.window_rows Scenario.db_last_hour 1 (Db.yesterday 0 Scenario.t1) = []
  /\ Db.get_url_status 0 Scenario.t1 Scenario.db_last_hour Scenario.site (Some 1)
     = Ok (Some (Db.mkStatus Scenario.site (Py.Int 0)
                             (Some "2024-01-01 23:50:00"%string) None))
  /\ filter (in_trailing_24h Scenario.t1) (Scenario.last_hour Scenario.t1)
     = Scenario.last_hour Scenario.t1
  /\ uptime_24h Scenario.t1 (Scenario.last_hour Scenario.t1) == 50.
Proof. repeat split; vm_compute; reflexivity. Qed.

End WindowFacts.

(** ** Reading the log *)

Module LogFacts.
Import Env Spec.

Lemma summarised_app (l l' : list event) :
  summarised (l ++ l') = summarised l ++ summarised l'.
Proof.
  induction l as [|e l IH]; simpl; [reflexivity|].
  destruct e; simpl; now rewrite ?IH.
Qed.

Lemma steps_of_app (l l' : list event) :
  steps_of (l ++ l') = steps_of l ++ steps_of l'.
Proof.
  induction l as [|e l IH]; simpl; [reflexivity|].
  destruct (step_of e); simpl; now rewrite IH.
Qed.

End LogFacts.

(** ** Summaries and the broadcast *)

Module NotificationFacts.
Import Exc Env Notification Spec.

Ltac run := unfold bind, gets, ret, modify, try_except, raise, of_result; simpl.

Lemma filter_length_perm {A} (f : A -> bool) (l l' : list A) :
  Permutation l l' ->
  List.length (filter f l) = List.length (filter f l').
Proof.
  induction 1; simpl; try congruence.
  - destruct (f x); simpl; congruence.
  - destruct (f x), (f y); reflexivity.
Qed.

Lemma send_email_run env recipient subj body w :
  send_email env recipient subj body w
  = (mkWorld (db w) (clock w) (log w ++ [EvMail recipient subj body]),
     Ok (negb (raises (smtp env recipient)))).
Proof.
  unfold send_email, emit. run.
  destruct (smtp env recipient) as [[]|e]; simpl; [reflexivity|].
  destruct e; reflexivity.
Qed.

(** The loop reads the store and leaves the world as it was; it adds one
    to [down_sites] for each row whose snapshot is below 99. *)
Lemma summary_loop_run env user rows :
  forall data down w, exists data',
    summary_loop env user rows data down w
    = (w, Ok (data',
              down + Z.of_nat (List.length (filter (below_99 env w user) rows)))).
Proof.
  induction rows as [|row rows IH]; intros data down w; simpl.
  - exists data. run. now rewrite Z.add_0_r.
  - unfold below_99 at 1. run.
    destruct (DbFacts.get_url_status_total (utcoffset env) (clock w) (db w)
                (Db.url row) (Some user)) as [r Hr].
    rewrite Hr. simpl. destruct r as [st|].
    + destruct (IH (data ++ [st])
                   (if Py.lt_int (Db.uptime_percentage st) 99
                    then down + 1 else down) w) as [data' Hd].
      exists data'. rewrite Hd. f_equal. f_equal. f_equal.
      destruct (Py.lt_int (Db.uptime_percentage st) 99); simpl List.length; lia.
    + destruct (IH data down w) as [data' Hd]. exists data'. exact Hd.
Qed.

(** What one call of [send_user_uptime_summary] does, case by case. *)
Lemma send_user_uptime_summary_cases self env user addr w :
  let w1 := mkWorld (db w) (clock w) (log w ++ [EvSummary user]) in
  let rows := Db.get_user_urls (db w) user in
  (send_user_uptime_summary self env user addr w = (w1, Ok false)
   /\ (email_enabled self = false \/ storage_fault env user <> None \/ rows = []))
  \/
  (exists body subj,
     send_user_uptime_summary self env user addr w
     = (mkWorld (db w) (clock w) (log w ++ [EvSummary user; EvMail addr subj body]),
        Ok (negb (raises (smtp env addr))))
     /\ email_enabled self = true /\ storage_fault env user = None /\ rows <> []
     /\ total_sites body = Sql.count rows
     /\ down_sites body
        = Z.of_nat (List.length (filter (below_99 env w user) rows))).
Proof.
  intros w1 rows. unfold send_user_uptime_summary, emit.
  destruct (email_enabled self) eqn:En; simpl.
  2:{ left. split; [reflexivity|]. now left. }
  unfold read_user_urls.
  destruct (storage_fault env user) as [e|] eqn:Ef.
  { left. split; [reflexivity|]. right. left. discriminate. }
  run. fold rows.
  destruct rows as [|r0 rows'] eqn:Er.
  { left. split; [reflexivity|]. now right; right. }
  rewrite <- Er. right.
  destruct (summary_loop_run env user rows [] 0 w1) as [data' Hd].
  unfold w1 in Hd. rewrite Hd. cbv beta iota. rewrite send_email_run. simpl.
  eexists. eexists. split.
  - rewrite <- app_assoc. simpl.
    destruct (smtp env addr); reflexivity.
  - repeat split; try reflexivity. rewrite Er. discriminate.
Qed.

(** C8.  When a summary is composed for a user who owns at least one
    target, its degraded-site count is the number of the user's targets
    whose snapshot, taken at that moment, is below 99; its total is the
    number of the user's targets. *)
Theorem degraded_count_of_summary self env user addr w :
  email_enabled self = true ->
  storage_fault env user = None ->
  targets_of (db w) user <> [] ->
  exists subj body,
    send_user_uptime_summary self env user addr w
    = (mkWorld (db w) (clock w) (log w ++ [EvSummary user; EvMail addr subj body]),
       Ok (negb (raises (smtp env addr))))
    /\ down_sites body
       = Z.of_nat (List.length (filter (degraded env w) (targets_of (db w) user)))
    /\ total_sites body = Z.of_nat (List.length (targets_of (db w) user)).
Proof.
  intros En Ef Hne.
  assert (Hperm : Permutation (Db.get_user_urls (db w) user) (targets_of (db w) user))
    by apply SqlFacts.order_by_perm.
  destruct (send_user_uptime_summary_cases self env user addr w)
    as [[_ [H|[H|H]]]|(body & subj & Hrun & _ & _ & _ & Htot & Hdown)].
  - congruence.
  - congruence.
  - rewrite H in Hperm. apply Permutation_nil in Hperm. congruence.
  - exists subj, body. split; [exact Hrun|]. split.
    + rewrite Hdown. f_equal.
      rewrite (filter_length_perm _ _ _ Hperm). f_equal.
      apply filter_ext_in. intros r Hr.
      apply filter_In in Hr. destruct Hr as [_ Hu]. apply Z.eqb_eq in Hu.
      unfold below_99, degraded. now rewrite Hu.
    + rewrite Htot. unfold Sql.count. f_equal. now apply Permutation_length.
Qed.

(** One call: it never raises, it logs itself, and its boolean is false
    whenever the store or the relay failed. *)
Lemma send_user_uptime_summary_shape self env user addr w :
  exists b mails,
    send_user_uptime_summary self env user addr w
    = (mkWorld (db w) (clock w) (log w ++ EvSummary user :: mails), Ok b)
    /\ summarised mails = [] /\ steps_of mails = []
    /\ (storage_fault env user <> None -> b = false)
    /\ (forall e, smtp env addr = Raise e -> b = false)
    /\ (email_enabled self = true -> storage_fault env user = None ->
        Db.get_user_urls (db w) user <> [] -> smtp env addr = Ok tt ->
        b = true).
Proof.
  destruct (send_user_uptime_summary_cases self env user addr w)
    as [[Hrun Hwhy]|(body & subj & Hrun & En & Ef & Hne & _)].
  - exists false, []. split; [exact Hrun|]. split; [reflexivity|].
    split; [reflexivity|]. split; [reflexivity|]. split; [reflexivity|].
    intros En Ef Hne _. destruct Hwhy as [H|[H|H]]; congruence.
  - exists (negb (raises (smtp env addr))), [EvMail addr subj body].
    split; [exact Hrun|]. split; [reflexivity|]. split; [reflexivity|].
    split; [congruence|]. split.
    + intros e He. now rewrite He.
    + intros _ _ _ Hs. now rewrite Hs.
Qed.

Lemma broadcast_loop self env users :
  forall w, exists new,
    for_each users
      (fun user_data =>
         _ <- send_user_uptime_summary self env
                (Db.uid user_data) (Db.email user_data) ;;
         ret tt) w
    = (mkWorld (db w) (clock w) (log w ++ new), Ok tt)
    /\ summarised new = map Db.uid users
    /\ steps_of new = [].
Proof.
  induction users as [|u users IH]; intros w; simpl.
  - exists []. rewrite app_nil_r. destruct w. repeat split; reflexivity.
  - destruct (send_user_uptime_summary_shape self env (Db.uid u) (Db.email u) w)
      as (b & mails & Hrun & Hm & Hs & _).
    unfold bind at 1 2. rewrite Hrun. cbv beta iota. unfold ret at 1.
    destruct (IH (mkWorld (db w) (clock w)
                          (log w ++ EvSummary (Db.uid u) :: mails)))
      as (new & Hloop & Hnew & Hsteps).
    exists (EvSummary (Db.uid u) :: mails ++ new). split; [|split].
    + rewrite Hloop. simpl. now rewrite <- app_assoc.
    + simpl. rewrite LogFacts.summarised_app, Hm, Hnew. reflexivity.
    + simpl. rewrite LogFacts.steps_of_app, Hs, Hsteps. reflexivity.
Qed.

(** What a broadcast does to the world. *)
Lemma broadcast_run self env w :
  exists new,
    send_notifications_to_all_users self env w
    = (mkWorld (db w) (clock w) (log w ++ EvBroadcast :: new), Ok tt)
    /\ summarised new
       = (if email_enabled self
          then map Db.uid (Db.get_users_with_urls (db w))
          else [])
    /\ steps_of new = [].
Proof.
  unfold send_notifications_to_all_users, emit.
  destruct (email_enabled self); simpl negb; cbv iota.
  2:{ exists []. run. repeat split; reflexivity. }
  unfold bind at 1, modify. cbv beta iota.
  unfold try_except, bind at 1, gets. cbn [db clock log].
  destruct (Db.get_users_with_urls (db w)) as [|u users] eqn:E.
  { exists []. repeat split; reflexivity. }
  destruct (broadcast_loop self env (u :: users)
              (mkWorld (db w) (clock w) (log w ++ [EvBroadcast])))
    as (new & Hloop & Hnew & Hsteps).
  rewrite Hloop. exists new. cbn [db clock log].
  split; [|split; assumption].
  rewrite <- app_assoc. reflexivity.
Qed.

(** C9.  The broadcast calls the summary of every user who owns a target,
    in turn, whatever the store and the relay do for any of them, and
    returns normally.  The summary of one user never raises either: its
    boolean is false when reading the user's rows failed or the relay
    refused the mail, and true when the mail went out. *)
Theorem broadcast_survives_failures self env w :
  (exists new,
     send_notifications_to_all_users self env w
     = (mkWorld (db w) (clock w) (log w ++ EvBroadcast :: new), Ok tt)
     /\ summarised new
        = if email_enabled self
          then map Db.uid (Db.get_users_with_urls (db w))
          else [])
  /\ (forall user addr, exists b w',
        send_user_uptime_summary self env user addr w = (w', Ok b)
        /\ (storage_fault env user <> None -> b = false)
        /\ (forall e, smtp env addr = Raise e -> b = false)
        /\ (email_enabled self = true -> storage_fault env user = None ->
            Db.get_user_urls (db w) user <> [] -> smtp env addr = Ok tt ->
            b = true)).
Proof.
  split.
  - destruct (broadcast_run self env w) as (new & Hrun & Hnew & _).
    exists new. split; assumption.
  - intros user addr.
    destruct (send_user_uptime_summary_shape self env user addr w)
      as (b & mails & Hrun & _ & _ & H1 & H2 & H3).
    exists b. eexists. split; [exact Hrun|]. auto.
Qed.

Lemma degraded_count_of_summary_witness :
  exists subj body,
    send_user_uptime_summary (mkService true) Scenario.env_mixed 1
                             "ann@example.org" Scenario.w_probed
    = (mkWorld (db Scenario.w_probed) (clock Scenario.w_probed)
               (log Scenario.w_probed
                ++ [EvSummary 1; EvMail "ann@example.org" subj body]),
       Ok true)
    /\ down_sites body = 1
    /\ total_sites body = 2.
Proof.
  destruct (degraded_count_of_summary (mkService true) Scenario.env_mixed 1
              "ann@example.org" Scenario.w_probed)
    as (subj & body & Hrun & Hdown & Htotal).
  - reflexivity.
  - reflexivity.
  - vm_compute. discriminate.
  - exists subj, body. split; [exact Hrun|]. split.
    + rewrite Hdown. vm_compute. reflexivity.
    + rewrite Htotal. vm_compute. reflexivity.
Defined.

End NotificationFacts.

(** ** A probing pass *)

Module PassFacts.
Import Exc Env Monitoring Spec.

(** The state a probe leaves behind. *)
Lemma probe_effect env start row st :
  exists c t,
    check_single_url_at env start row st
    = (mkState (self st)
         (mkWorld (Db.mkDb (Db.users (db (world st))) (Db.urls (db (world st)))
                           (Db.checks (db (world st)) ++ [c]))
                  t
                  (log (world st) ++ [EvGet (session (self st)) (Db.url row)])),
       Ok tt)
    /\ Db.url_id c = Db.id row.
Proof.
  eexists. eexists. split.
  - rewrite MonitoringFacts.check_single_url_at_run. reflexivity.
  - reflexivity.
Qed.

(** The probes of a pass, run one after the other in completion order:
    none raises, each appends its row, and nothing else changes but the
    clock and the log of requests. *)
Lemma gather_probes env start rows :
  forall st, exists results new t gets,
    gather (map (check_single_url_at env start) rows) st
    = (mkState (self st)
         (mkWorld (Db.mkDb (Db.users (db (world st))) (Db.urls (db (world st)))
                           (Db.checks (db (world st)) ++ new))
                  t
                  (log (world st) ++ gets)),
       Ok results)
    /\ map Db.url_id new = map Db.id rows
    /\ Forall (fun r => raises r = false) results
    /\ steps_of gets = []
    /\ summarised gets = [].
Proof.
  induction rows as [|row rows IH]; intros st; simpl.
  - exists [], [], (clock (world st)), []. rewrite !app_nil_r.
    destruct st as [sv [[us ur ch] t l]]. repeat split. constructor.
  - destruct (probe_effect env start row st) as (c & t & Hrun & Hc).
    unfold bind at 1, capture. rewrite Hrun. cbv beta iota.
    unfold bind at 1.
    match goal with |- context [gather _ ?s] =>
      destruct (IH s) as (results & new & t' & gets & Hg & Hids & Hres & Hst & Hsm)
    end.
    rewrite Hg. cbv beta iota. unfold ret.
    cbn [self world db clock log Db.users Db.urls Db.checks].
    exists (Ok tt :: results), (c :: new), t',
           (EvGet (session (self st)) (Db.url row) :: gets).
    rewrite <- !app_assoc. simpl. repeat split.
    + now rewrite Hc, Hids.
    + now constructor.
    + exact Hst.
    + exact Hsm.
Qed.

(** What a pass does to the state. *)
Lemma check_all_urls_run env st :
  exists new t gets,
    check_all_urls env st
    = (mkState (self st)
         (mkWorld (Db.mkDb (Db.users (db (world st))) (Db.urls (db (world st)))
                           (Db.checks (db (world st)) ++ new))
                  t
                  (log (world st)
                   ++ EvPass (map Db.id (Db.urls (db (world st)))) :: gets)),
       Ok tt)
    /\ Permutation (map Db.url_id new) (map Db.id (Db.urls (db (world st))))
    /\ steps_of gets = []
    /\ summarised gets = [].
Proof.
  unfold check_all_urls, Db.get_all_urls, emit.
  unfold bind at 1, gets at 1. cbv beta iota.
  unfold bind at 1, lift, modify. cbn [self world db clock log].
  destruct (Db.urls (db (world st))) as [|row rows] eqn:E.
  - exists [], (clock (world st)), []. rewrite app_nil_r. unfold ret.
    rewrite <- E. destruct st as [sv [[us ur ch] t l]]. simpl in *.
    subst ur. repeat split. constructor.
  - unfold bind at 1, gets at 1. cbv beta iota.
    unfold bind at 1, gets at 1. cbv beta iota.
    cbn [self world db clock log].
    unfold bind at 1.
    match goal with |- context [gather (map _ ?rs) ?s] =>
      destruct (gather_probes env (clock (world st)) rs s)
        as (results & new & t & gets & Hg & Hids & _ & Hst & Hsm);
      assert (Hp : Permutation rs (row :: rows))
        by apply SqlFacts.order_by_perm
    end.
    rewrite Hg. cbv beta iota. unfold ret.
    cbn [self world db clock log Db.users Db.urls Db.checks].
    exists new, t, gets. rewrite <- app_assoc. simpl. rewrite E.
    repeat split; try assumption.
    rewrite Hids. exact (Permutation_map Db.id Hp).
Qed.

Lemma one_occurrence (x : Z) (l : list Z) :
  NoDup l -> In x l ->
  List.length (filter (fun y => y =? x) l) = 1%nat.
Proof.
  induction 1 as [|y l Hy Hnd IH]; intros Hin; [contradiction|].
  simpl. destruct (Z.eqb_spec y x) as [->|Hne].
  - simpl. f_equal.
    assert (Hnone : forall l', ~ In x l' ->
              filter (fun y => y =? x) l' = []).
    { induction l' as [|z l' IH']; intros Hz; simpl; [reflexivity|].
      destruct (Z.eqb_spec z x) as [->|_].
      - exfalso. apply Hz. now left.
      - apply IH'. intros H. apply Hz. now right. }
    now rewrite Hnone.
  - destruct Hin as [->|Hin]; [congruence|]. now apply IH.
Qed.

Lemma filter_map_length {A} (f : A -> Z) (p : Z -> bool) (l : list A) :
  List.length (filter (fun a => p (f a)) l)
  = List.length (filter p (map f l)).
Proof.
  induction l as [|a l IH]; simpl; [reflexivity|].
  destruct (p (f a)); simpl; now rewrite IH.
Qed.

(** C5.  A pass over the targets of the store returns normally whatever
    the probes come to, and when it returns each target has exactly one
    new row in [checks]; no other row is written. *)
Theorem pass_records_every_target env st :
  NoDup (map Db.id (Db.urls (db (world st)))) ->
  exists st' new,
    check_all_urls env st = (st', Ok tt)
    /\ Db.checks (db (world st')) = Db.checks (db (world st)) ++ new
    /\ List.length new = List.length (Db.urls (db (world st)))
    /\ forall row, In row (Db.urls (db (world st))) ->
         List.length (filter (fun c => Db.url_id c =? Db.id row) new) = 1%nat.
Proof.
  intros Hnd.
  destruct (check_all_urls_run env st) as (new & t & gets & Hrun & Hp & _).
  eexists. exists new. split; [exact Hrun|]. split; [reflexivity|]. split.
  - apply Permutation_length in Hp. now rewrite !length_map in Hp.
  - intros row Hrow.
    rewrite (filter_map_length Db.url_id (fun y => y =? Db.id row)).
    rewrite (NotificationFacts.filter_length_perm _ _ _ Hp).
    apply one_occurrence; [exact Hnd|]. now apply in_map.
Qed.

Lemma pass_records_every_target_witness :
  exists st' new,
    check_all_urls Scenario.env_mixed Scenario.st_running = (st', Ok tt)
    /\ Db.checks (db (world st')) = new
    /\ List.length new = 3%nat
    /\ forall row, In row (Db.urls Scenario.db_three) ->
         List.length (filter (fun c => Db.url_id c =? Db.id row) new) = 1%nat.
Proof.
  destruct (pass_records_every_target Scenario.env_mixed Scenario.st_running)
    as (st' & new & Hrun & Hchecks & Hlen & Hone).
  - simpl. repeat constructor; simpl; intuition discriminate.
  - exists st', new. repeat split; assumption.
Defined.

End PassFacts.

(** ** The scheduler *)

Module SchedulerFacts.
Import Exc Env Monitoring Spec.

Lemma bind_ok {S A B} (m : M S A) (k : A -> M S B) (s s' : S) (a : A) :
  m s = (s', Ok a) -> bind m k s = k a s'.
Proof. intros H. unfold bind. now rewrite H. Qed.

Lemma sleep_run secs st :
  sleep secs st
  = (mkState (self st)
       (mkWorld (db (world st)) (clock (world st) + Clock.seconds secs)
                (log (world st) ++ [EvSleep secs])),
     Ok tt).
Proof. reflexivity. Qed.

Lemma notify_run env st :
  exists w' new,
    notify env st = (mkState (self st) w', Ok tt)
    /\ log w' = log (world st) ++ new
    /\ steps_of new = [closing_step (notification_service (self st))].
Proof.
  unfold notify. unfold bind, gets. cbv beta iota.
  destruct (notification_service (self st)) as [ns|].
  - destruct (NotificationFacts.broadcast_run ns env (world st))
      as (new & Hrun & _ & Hsteps).
    unfold lift. rewrite Hrun.
    eexists. exists (EvBroadcast :: new). split; [reflexivity|].
    split; [reflexivity|]. simpl. now rewrite Hsteps.
  - eexists. exists [EvNoBroadcast]. repeat split.
Qed.

Lemma pass_run env st :
  exists w' new,
    check_all_urls env st = (mkState (self st) w', Ok tt)
    /\ log w' = log (world st) ++ new
    /\ steps_of new = [Pass].
Proof.
  destruct (PassFacts.check_all_urls_run env st)
    as (rows & t & gets & Hrun & _ & Hsteps & _).
  eexists. eexists. split; [exact Hrun|]. split; [reflexivity|].
  simpl. now rewrite Hsteps.
Qed.

(** [n] iterations of the loop while nobody asks it to stop. *)
Lemma monitoring_loop_steps env :
  forall n k st,
    running (self st) = true ->
    (forall j, (k <= j < k + n)%nat -> stop_requested env j = false) ->
    exists w' new,
      monitoring_loop env n k st = (mkState (self st) w', Ok tt)
      /\ log w' = log (world st) ++ new
      /\ steps_of new
         = List.concat (repeat (iteration (notification_service (self st))) n).
Proof.
  induction n as [|n IH]; intros k st Hrunning Hstop.
  - exists (world st), []. simpl. rewrite app_nil_r.
    destruct st. repeat split.
  - cbn [monitoring_loop].
    rewrite (bind_ok _ _ st st (running (self st)) eq_refl).
    rewrite Hrunning.
    rewrite (bind_ok _ _ _ _ _ (sleep_run 300 st)).
    rewrite (Hstop k) by lia.
    rewrite (bind_ok (ret tt) _ _ _ tt eq_refl).
    match goal with |- context [bind (check_all_urls env) _ ?s] =>
      destruct (pass_run env s) as (w1 & new1 & Hpass & Hlog1 & Hsteps1)
    end.
    rewrite (bind_ok _ _ _ _ _ Hpass).
    match goal with |- context [bind (notify env) _ ?s] =>
      destruct (notify_run env s) as (w2 & new2 & Hnote & Hlog2 & Hsteps2)
    end.
    rewrite (bind_ok _ _ _ _ _ Hnote).
    cbn [self world log] in *.
    destruct (IH (S k) (mkState (self st) w2) Hrunning)
      as (w3 & new3 & Hloop & Hlog3 & Hsteps3).
    { intros j Hj. apply Hstop. lia. }
    rewrite Hloop. cbn [self world] in *.
    exists w3, (EvSleep 300 :: new1 ++ new2 ++ new3).
    split; [reflexivity|]. split.
    + rewrite Hlog3, Hlog2, Hlog1. rewrite <- !app_assoc. reflexivity.
    + cbn [steps_of step_of].
      rewrite !LogFacts.steps_of_app, Hsteps1, Hsteps2, Hsteps3.
      reflexivity.
Qed.

(** C6, as the code has it.  [start_monitoring] makes one pass at once;
    then, as long as nobody stops it, every iteration of its loop sleeps
    300 seconds, makes one pass, and ends with the broadcast when the
    notification service could be constructed at start-up, and with a
    logged skip when it could not. *)
Theorem scheduler_steps env n st :
  (forall k, (k < n)%nat -> stop_requested env k = false) ->
  exists st' new,
    start_monitoring env n st = (st', Ok tt)
    /\ log (world st') = log (world st) ++ new
    /\ steps_of new
       = Pass :: List.concat (repeat (iteration (notification_service (self st))) n).
Proof.
  intros Hstop. unfold start_monitoring, enter_running.
  rewrite (bind_ok _ _ st _ tt eq_refl).
  match goal with |- context [bind (check_all_urls env) _ ?s] =>
    destruct (pass_run env s) as (w1 & new1 & Hpass & Hlog1 & Hsteps1);
    set (s0 := s) in *
  end.
  rewrite (bind_ok _ _ _ _ _ Hpass).
  destruct (monitoring_loop_steps env n 0 (mkState (self s0) w1))
    as (w2 & new2 & Hloop & Hlog2 & Hsteps2).
  { reflexivity. }
  { intros j Hj. apply Hstop. lia. }
  rewrite Hloop. eexists. exists (new1 ++ new2).
  split; [reflexivity|]. split.
  - cbn [self world log] in *. rewrite Hlog2, Hlog1.
    now rewrite <- app_assoc.
  - rewrite LogFacts.steps_of_app, Hsteps1, Hsteps2. reflexivity.
Qed.

Lemma scheduler_steps_witness :
  exists st' new,
    start_monitoring Scenario.env_mixed 2 Scenario.st_mixed = (st', Ok tt)
    /\ log (world st') = new
    /\ steps_of new
       = [Pass; Sleep 300; Pass; Broadcast; Sleep 300; Pass; Broadcast].
Proof.
  destruct (scheduler_steps Scenario.env_mixed 2 Scenario.st_mixed)
    as (st' & new & Hrun & Hlog & Hsteps).
  - intros k _. reflexivity.
  - exists st', new. split; [exact Hrun|]. split; [exact Hlog|exact Hsteps].
Defined.

(** C6, as the claim has it, fails when the notification service could
    not be constructed: the iteration ends without any broadcast. *)
Lemma scheduler_without_notification_service :
  notification_service (self Scenario.st_no_mail) = None
  /\ steps_of (log (world (fst (start_monitoring Scenario.env_no_mail 1
                                                 Scenario.st_no_mail))))
     = [Pass; Sleep 300; Pass; NoBroadcast]
  /\ ~ In Broadcast
          (steps_of (log (world (fst (start_monitoring Scenario.env_no_mail 1
                                                       Scenario.st_no_mail))))).
Proof.
  split; [reflexivity|]. split; [vm_compute; reflexivity|].
  vm_compute. intros [H|[H|[H|[H|[]]]]]; discriminate.
Qed.

End SchedulerFacts.

(** ** The registry of users and targets *)

Module RegistryFacts.
Import Exc Registry Spec.

Lemma largest_bound (keys : list Z) (k : Z) :
  In k keys -> k <= largest keys.
Proof.
  induction keys as [|x keys IH]; intros H; [contradiction|].
  simpl. destruct H as [->|H]; [lia|]. specialize (IH H). lia.
Qed.

Lemma next_rowid_fresh (keys : list Z) (seq : Z) :
  1 <= next_rowid keys seq
  /\ seq < next_rowid keys seq
  /\ forall k, In k keys -> k < next_rowid keys seq.
Proof.
  unfold next_rowid.
  assert (0 <= largest keys).
  { induction keys as [|x keys IH]; simpl; lia. }
  repeat split; try lia.
  intros k Hin. apply largest_bound in Hin. lia.
Qed.

Lemma find_app_none {A} (f : A -> bool) (l l' : list A) :
  find f l = None -> find f (l ++ l') = find f l'.
Proof.
  induction l as [|a l IH]; simpl; [reflexivity|].
  destruct (f a); [discriminate|exact IH].
Qed.

Lemma find_app_some {A} (f : A -> bool) (l l' : list A) (x : A) :
  find f l = Some x -> find f (l ++ l') = Some x.
Proof.
  induction l as [|a l IH]; simpl; [discriminate|].
  destruct (f a); [trivial|exact IH].
Qed.

Lemma existsb_find {A} (f : A -> bool) (l : list A) :
  existsb f l = false <-> find f l = None.
Proof.
  induction l as [|a l IH]; simpl; [tauto|].
  destruct (f a); simpl; [split; discriminate|exact IH].
Qed.

(** In a list without repeated keys, [find] by key returns the element. *)
Lemma find_by_key {A} (key : A -> Z) (l : list A) (x : A) :
  NoDup (map key l) -> In x l ->
  find (fun y => key y =? key x) l = Some x.
Proof.
  induction l as [|a l IH]; simpl; intros Hnd Hin; [contradiction|].
  inversion Hnd as [|? ? Hnot Hnd']; subst.
  destruct Hin as [->|Hin]; [now rewrite Z.eqb_refl|].
  destruct (Z.eqb_spec (key a) (key x)) as [E|_]; [|now apply IH].
  exfalso. apply Hnot. rewrite E. now apply in_map.
Qed.

Lemma find_by_name (l : list Db.user_row) (x : Db.user_row) :
  NoDup (map Db.username l) -> In x l ->
  find (fun u => String.eqb (Db.username u) (Db.username x)) l = Some x.
Proof.
  induction l as [|a l IH]; simpl; intros Hnd Hin; [contradiction|].
  inversion Hnd as [|? ? Hnot Hnd']; subst.
  destruct Hin as [->|Hin]; [now rewrite String.eqb_refl|].
  destruct (String.eqb_spec (Db.username a) (Db.username x)) as [E|_];
    [|now apply IH].
  exfalso. apply Hnot. rewrite E. now apply in_map.
Qed.

(** The secret at the position of a user is the one [find] returns. *)
Lemma secret_of_user (secrets : list secret) (users : list Db.user_row)
    (u : Db.user_row) :
  map owner secrets = map Db.uid users ->
  NoDup (map Db.uid users) -> In u users ->
  exists c, find (fun c => owner c =? Db.uid u) secrets = Some c
            /\ In c secrets /\ owner c = Db.uid u.
Proof.
  intros Hmap Hnd Hin.
  assert (Hu : In (Db.uid u) (map owner secrets))
    by (rewrite Hmap; now apply in_map).
  apply in_map_iff in Hu. destruct Hu as (c & Hc & Hcin).
  destruct (find (fun c0 => owner c0 =? Db.uid u) secrets) as [c'|] eqn:E.
  - exists c'. apply find_some in E. destruct E as [Hin' He].
    apply Z.eqb_eq in He. auto.
  - apply (find_none _ _ E) in Hcin. rewrite Hc, Z.eqb_refl in Hcin.
    discriminate.
Qed.

Section Accounts.
Variable pbkdf2 : string -> string -> string.

(** X1.  A user is accepted exactly with a password whose derived key, under
    the salt stored for the user, is the stored hash. *)
Theorem verify_user_accepts_iff (s : store) (name password : string)
    (id : Z) (mail : string) :
  consistent s ->
  verify_user pbkdf2 s name password = Some (id, mail)
  <-> exists u c,
        In u (Db.users (tables s)) /\ Db.username u = name
        /\ In c (secrets s) /\ owner c = Db.uid u
        /\ pbkdf2 password (salt c) = password_hash c
        /\ id = Db.uid u /\ mail = Db.email u.
Proof.
  intros (_ & _ & _ & Hnames & Hids & _ & Hsec & _).
  unfold verify_user, verify_password, hash_password. cbn [fst].
  split.
  - destruct (find _ (Db.users (tables s))) as [u|] eqn:Eu; [|discriminate].
    apply find_some in Eu. destruct Eu as [Hu Hn]. apply String.eqb_eq in Hn.
    destruct (find _ (secrets s)) as [c|] eqn:Ec; [|discriminate].
    apply find_some in Ec. destruct Ec as [Hc Ho]. apply Z.eqb_eq in Ho.
    destruct (String.eqb_spec (pbkdf2 password (salt c)) (password_hash c));
      [|discriminate].
    intros H. injection H as <- <-. exists u, c. auto 10.
  - intros (u & c & Hu & Hn & Hc & Ho & Hk & -> & ->). subst name.
    rewrite (find_by_name _ _ Hnames Hu).
    assert (Hfind : find (fun c0 => owner c0 =? Db.uid u) (secrets s) = Some c).
    { rewrite <- Ho. apply (find_by_key owner); [|exact Hc].
      now rewrite Hsec. }
    rewrite Hfind, Hk, String.eqb_refl. reflexivity.
Qed.

Lemma create_then_verify (token : string) (s s' : store)
    (name password mail : string) (id : Z) :
  consistent s ->
  create_user pbkdf2 token s name password mail = (s', Some id) ->
  verify_user pbkdf2 s' name password = Some (id, mail).
Proof.
  intros (_ & _ & _ & Hnames & Hids & Hrange & Hsec & _) Hc.
  unfold create_user, hash_password in Hc.
  destruct (existsb _ _) eqn:Ex; [discriminate|].
  injection Hc as <- <-.
  pose proof (next_rowid_fresh (map Db.uid (Db.users (tables s))) (user_seq s))
    as (H1 & Hseq & Hfresh).
  set (id := next_rowid _ _) in *.
  unfold verify_user. cbn [tables Db.users secrets].
  apply existsb_find in Ex. rewrite (find_app_none _ _ _ Ex).
  cbn [find Db.username]. rewrite String.eqb_refl. cbn [Db.uid].
  assert (Hnone : find (fun c => owner c =? id) (secrets s) = None).
  { apply find_absent. intros c Hcin. apply Z.eqb_neq.
    assert (Ho : In (owner c) (map Db.uid (Db.users (tables s))))
      by (rewrite <- Hsec; now apply in_map).
    apply Hfresh in Ho. lia. }
  rewrite (find_app_none _ _ _ Hnone). cbn [find owner].
  rewrite Z.eqb_refl. unfold verify_password, hash_password.
  cbn [fst password_hash salt]. now rewrite String.eqb_refl.
Qed.

(** X2.  Registration and login: after [create_user] returned an id, the same
    name and password are accepted and give that id and the e-mail; the
    id is at least 1 and above the id of every user there was. *)
Theorem registered_user_is_accepted (token : string) (s s' : store)
    (name password mail : string) (id : Z) :
  consistent s ->
  create_user pbkdf2 token s name password mail = (s', Some id) ->
  verify_user pbkdf2 s' name password = Some (id, mail)
  /\ 1 <= id
  /\ forall u, In u (Db.users (tables s)) -> Db.uid u < id.
Proof.
  intros Hs Hc. split; [exact (create_then_verify _ _ _ _ _ _ _ Hs Hc)|].
  unfold create_user, hash_password in Hc.
  destruct (existsb _ _) eqn:Ex; [discriminate|].
  injection Hc as <- <-.
  pose proof (next_rowid_fresh (map Db.uid (Db.users (tables s))) (user_seq s))
    as (H1 & Hseq & Hfresh).
  split; [exact H1|]. intros u Hu. apply Hfresh. now apply in_map.
Qed.

(** X3.  [create_user] returns [None] exactly for a name that [users] already
    holds, whatever the password and the e-mail, and then it leaves the
    store as it was. *)
Theorem create_user_refuses_taken_names (token : string) (s : store)
    (name password mail : string) :
  (snd (create_user pbkdf2 token s name password mail) = None
   <-> In name (map Db.username (Db.users (tables s))))
  /\ (snd (create_user pbkdf2 token s name password mail) = None ->
      fst (create_user pbkdf2 token s name password mail) = s).
Proof.
  unfold create_user, hash_password.
  destruct (existsb _ _) eqn:E; cbn [fst snd].
  - split; [|reflexivity]. split; [intros _|reflexivity].
    apply existsb_exists in E. destruct E as (u & Hu & Hn).
    apply String.eqb_eq in Hn. rewrite <- Hn. now apply in_map.
  - split; [|discriminate]. split; [discriminate|]. intros Hin.
    apply in_map_iff in Hin. destruct Hin as (u & Hn & Hu).
    assert (F : existsb (fun u => String.eqb (Db.username u) name)
                        (Db.users (tables s)) = true).
    { apply existsb_exists. exists u. split; [exact Hu|].
      now apply String.eqb_eq. }
    congruence.
Qed.

(** X4.  Registering one account changes the answer of [verify_user] for no
    other name. *)
Theorem registration_is_local (token : string) (s s' : store)
    (name password mail other pw : string) (r : option Z) :
  consistent s ->
  create_user pbkdf2 token s name password mail = (s', r) ->
  other <> name ->
  verify_user pbkdf2 s' other pw = verify_user pbkdf2 s other pw.
Proof.
  intros (_ & _ & _ & Hnames & Hids & Hrange & Hsec & _) Hc Hne.
  unfold create_user, hash_password in Hc.
  destruct (existsb _ _) eqn:Ex; injection Hc as <- <-; [reflexivity|].
  pose proof (next_rowid_fresh (map Db.uid (Db.users (tables s))) (user_seq s))
    as (H1 & Hseq & Hfresh).
  set (id := next_rowid _ _) in *.
  unfold verify_user. cbn [tables Db.users secrets].
  destruct (find (fun u => String.eqb (Db.username u) other)
                 (Db.users (tables s))) as [u|] eqn:Eu.
  - rewrite (find_app_some _ _ _ _ Eu).
    apply find_some in Eu. destruct Eu as [Hu _].
    destruct (secret_of_user _ _ u Hsec Hids Hu) as (c & Hfind & _).
    now rewrite (find_app_some _ _ _ _ Hfind), Hfind.
  - rewrite (find_app_none _ _ _ Eu). cbn [find Db.username].
    apply String.eqb_neq in Hne. rewrite String.eqb_sym in Hne.
    now rewrite Hne.
Qed.
End Accounts.

Lemma NoDup_key_inj {A} (key : A -> Z) (l : list A) (a b : A) :
  NoDup (map key l) -> In a l -> In b l -> key a = key b -> a = b.
Proof.
  induction l as [|x l IH]; simpl; intros Hnd Ha Hb E; [contradiction|].
  inversion Hnd as [|? ? Hnot Hnd']; subst.
  destruct Ha as [->|Ha], Hb as [->|Hb]; trivial.
  - exfalso. apply Hnot. rewrite E. now apply in_map.
  - exfalso. apply Hnot. rewrite <- E. now apply in_map.
  - now apply IH.
Qed.

Lemma NoDup_map_filter {A} (key : A -> Z) (p : A -> bool) (l : list A) :
  NoDup (map key l) -> NoDup (map key (filter p l)).
Proof.
  induction l as [|x l IH]; simpl; intros Hnd; [constructor|].
  inversion Hnd as [|? ? Hnot Hnd']; subst.
  destruct (p x); simpl; [|now apply IH].
  constructor; [|now apply IH].
  intros Hin. apply Hnot. apply in_map_iff in Hin.
  destruct Hin as (y & Hy & Hyin). apply filter_In in Hyin.
  rewrite <- Hy. apply in_map. tauto.
Qed.

Lemma NoDup_snoc {A} (l : list A) (x : A) :
  NoDup l -> ~ In x l -> NoDup (l ++ [x]).
Proof.
  induction l as [|a l IH]; simpl; intros Hnd Hx.
  - constructor; [tauto|constructor].
  - inversion Hnd as [|? ? Hnot Hnd']; subst. constructor.
    + intros Hin. apply in_app_or in Hin. destruct Hin as [Hin|[->|[]]]; tauto.
    + apply IH; tauto.
Qed.

Lemma owns_iff (d : Db.database) (u : string) (user : Z) :
  user_owns_url d u user = true
  <-> exists r, In r (Db.urls d) /\ Db.url r = u /\ Db.user_id r = user.
Proof.
  unfold user_owns_url.
  destruct (find _ (Db.urls d)) as [r|] eqn:E; split; try discriminate; trivial.
  - intros _. apply find_some in E. destruct E as [Hin Hm].
    apply andb_true_iff in Hm. destruct Hm as [Hu Hi].
    apply String.eqb_eq in Hu. apply Z.eqb_eq in Hi. eauto.
  - intros (r & Hin & Hu & Hi). apply (find_none _ _ E) in Hin.
    rewrite Hu, Hi, String.eqb_refl, Z.eqb_refl in Hin. discriminate.
Qed.

Lemma not_owned (d : Db.database) (u : string) (user : Z) :
  user_owns_url d u user = false ->
  find (fun r => String.eqb (Db.url r) u && (Db.user_id r =? user)) (Db.urls d)
  = None.
Proof. unfold user_owns_url. now destruct (find _ _). Qed.

(** ** The invariant of the store *)

Lemma empty_is_consistent : consistent empty.
Proof.
  unfold consistent, empty. simpl.
  repeat split; try constructor; try contradiction; intros; contradiction.
Qed.

Section Writes.
Variable pbkdf2 : string -> string -> string.

Lemma create_user_consistent token s name password mail :
  consistent s ->
  consistent (fst (create_user pbkdf2 token s name password mail)).
Proof.
  intros Hs. pose proof Hs as (H1 & H2 & H3 & Hnames & Hids & Hrange & Hsec & Href).
  unfold create_user, hash_password.
  destruct (existsb _ _) eqn:Ex; [exact Hs|]. cbn [fst].
  pose proof (next_rowid_fresh (map Db.uid (Db.users (tables s))) (user_seq s))
    as (Hone & Hseq & Hfresh).
  set (id := next_rowid _ _) in *.
  unfold consistent. cbn [tables Db.urls Db.users Db.checks secrets user_seq url_seq].
  repeat split; try assumption; try (intros; now apply H2).
  - rewrite map_app. cbn [map Db.username].
    apply NoDup_snoc; [exact Hnames|]. intros Hx. apply in_map_iff in Hx.
    destruct Hx as (u & Hu & Huin).
    assert (F : existsb (fun u => String.eqb (Db.username u) name)
                        (Db.users (tables s)) = true).
    { apply existsb_exists. exists u. split; [exact Huin|].
      now apply String.eqb_eq. }
    congruence.
  - rewrite map_app. cbn [map Db.uid].
    apply NoDup_snoc; [exact Hids|]. intros Hx. apply Hfresh in Hx. lia.
  - apply in_app_or in H. destruct H as [H|[<-|[]]]; cbn [Db.uid]; [|lia].
    apply Hrange in H. lia.
  - apply in_app_or in H. destruct H as [H|[<-|[]]]; cbn [Db.uid]; [|lia].
    apply Hrange in H. lia.
  - rewrite !map_app. cbn [map owner Db.uid]. now rewrite Hsec.
Qed.
End Writes.

Lemma add_url_consistent t s u user cat :
  consistent s -> consistent (fst (add_url t s u user cat)).
Proof.
  intros Hs. pose proof Hs as (Hnd & Hrange & Huniq & Hnames & Hids & Hur & Hsec & Href).
  unfold add_url. destruct (user_owns_url (tables s) u user) eqn:Eo; [exact Hs|].
  cbn [fst].
  pose proof (next_rowid_fresh (map Db.id (Db.urls (tables s))) (url_seq s))
    as (Hone & Hseq & Hfresh).
  set (key := next_rowid _ _) in *.
  unfold consistent. cbn [tables Db.urls Db.users Db.checks secrets user_seq url_seq].
  repeat split; try assumption;
    try (match goal with
         | H : In _ (Db.users _) |- _ => apply Hur in H; lia
         end).
  - rewrite map_app. cbn [map Db.id]. apply NoDup_snoc; [exact Hnd|].
    intros Hx. apply Hfresh in Hx. lia.
  - apply in_app_or in H. destruct H as [H|[<-|[]]]; cbn [Db.id]; [|lia].
    apply Hrange in H. lia.
  - apply in_app_or in H. destruct H as [H|[<-|[]]]; cbn [Db.id]; [|lia].
    apply Hrange in H. lia.
  - intros a b Ha Hb Eu Ei.
    apply in_app_or in Ha. apply in_app_or in Hb.
    assert (Hnew : forall r, In r (Db.urls (tables s)) -> Db.url r = u ->
                      Db.user_id r = user -> False).
    { intros r Hr E1 E2.
      assert (O : user_owns_url (tables s) u user = true)
        by (apply owns_iff; eauto).
      congruence. }
    destruct Ha as [Ha|[<-|[]]], Hb as [Hb|[<-|[]]]; cbn [Db.id Db.url Db.user_id] in *.
    + now apply Huniq.
    + exfalso. eapply Hnew; eauto.
    + exfalso. eapply Hnew; eauto.
    + reflexivity.
  - intros c Hc. destruct (Href c Hc) as (r & Hr & Hid).
    exists r. split; [apply in_or_app; now left|exact Hid].
Qed.

Lemma remove_url_consistent s u user :
  consistent s -> consistent (fst (remove_url s u user)).
Proof.
  intros Hs. pose proof Hs as (Hnd & Hrange & Huniq & Hnames & Hids & Hur & Hsec & Href).
  unfold remove_url. destruct (find _ _) as [row|] eqn:E; [|exact Hs].
  cbn [fst]. unfold consistent, with_tables.
  cbn [tables Db.urls Db.users Db.checks secrets user_seq url_seq].
  repeat split; try assumption;
    try (match goal with
         | H : In _ (Db.users _) |- _ => apply Hur in H; lia
         end).
  - now apply NoDup_map_filter.
  - apply filter_In in H. destruct H as [H _]. apply Hrange in H. lia.
  - apply filter_In in H. destruct H as [H _]. apply Hrange in H. lia.
  - intros a b Ha Hb. apply filter_In in Ha, Hb. apply Huniq; tauto.
  - intros c Hc. apply filter_In in Hc. destruct Hc as [Hc Hk].
    destruct (Href c Hc) as (r & Hr & Hid). exists r. split; [|exact Hid].
    apply filter_In. split; [exact Hr|]. now rewrite Hid.
Qed.

Lemma update_url_category_consistent s u user cat :
  consistent s -> consistent (fst (update_url_category s u user cat)).
Proof.
  intros (Hnd & Hrange & Huniq & Hnames & Hids & Hur & Hsec & Href).
  unfold update_url_category. cbn [fst]. unfold consistent, with_tables.
  cbn [tables Db.urls Db.users Db.checks secrets user_seq url_seq].
  set (upd := fun r : Db.url_row =>
                if String.eqb (Db.url r) u && (Db.user_id r =? user)
                then Db.mkUrl (Db.id r) (Db.url r) (Db.created_at r)
                              (Db.user_id r) (Some cat)
                else r).
  assert (Kid : forall r, Db.id (upd r) = Db.id r)
    by (intros r; unfold upd; now destruct (_ && _)).
  assert (Kurl : forall r, Db.url (upd r) = Db.url r)
    by (intros r; unfold upd; now destruct (_ && _)).
  assert (Kuser : forall r, Db.user_id (upd r) = Db.user_id r)
    by (intros r; unfold upd; now destruct (_ && _)).
  repeat split; try assumption;
    try (match goal with
         | H : In _ (Db.users _) |- _ => apply Hur in H; lia
         end).
  - rewrite map_map. rewrite (map_ext _ Db.id Kid). exact Hnd.
  - apply in_map_iff in H. destruct H as (r0 & <- & Hr0). rewrite Kid.
    apply Hrange in Hr0. lia.
  - apply in_map_iff in H. destruct H as (r0 & <- & Hr0). rewrite Kid.
    apply Hrange in Hr0. lia.
  - intros a b Ha Hb. apply in_map_iff in Ha, Hb.
    destruct Ha as (a0 & <- & Ha0), Hb as (b0 & <- & Hb0).
    rewrite !Kid, !Kurl, !Kuser. now apply Huniq.
  - intros c Hc. destruct (Href c Hc) as (r & Hr & Hid).
    exists (upd r). split; [now apply in_map|now rewrite Kid].
Qed.

Lemma select_by_owner d u user :
  user <> 0 -> Db.select_url d u (Some user) = find (owned_by u user) (Db.urls d).
Proof.
  intros H. unfold Db.select_url, Db.truthy_int.
  apply Z.eqb_neq in H. now rewrite H.
Qed.

Lemma filter_both {A} (f g : A -> bool) (l : list A) :
  filter (fun x => f x && g x) l = filter g (filter f l).
Proof.
  induction l as [|a l IH]; simpl; [reflexivity|].
  destruct (f a); simpl; [destruct (g a)|]; now rewrite IH.
Qed.

(** The snapshot is a function of the row found and of the checks that
    carry its id. *)
Lemma status_of_row off now d u user row :
  Db.select_url d u user = Some row ->
  Db.get_url_status off now d u user
  = Ok (Some (Db.mkStatus u
         (Py.round2 (raw_uptime
            (filter (fun c => Clock.text_gt (Db.timestamp c) (Db.yesterday off now))
                    (checks_of d (Db.id row)))))
         (option_map Db.timestamp
            (hd_error (Sql.order_by (Sql.desc Db.timestamp)
                                    (checks_of d (Db.id row)))))
         (Db.truthy_str (Db.category row)))).
Proof.
  intros H. rewrite (DbFacts.get_url_status_found _ _ _ _ _ _ H).
  unfold Db.window_rows, Db.latest_check, checks_of.
  now rewrite filter_both.
Qed.

Lemma status_without_row off now d u user :
  Db.select_url d u user = None -> Db.get_url_status off now d u user = Ok None.
Proof. intros H. unfold Db.get_url_status. now rewrite H. Qed.

Lemma status_agree off now d d' u user :
  (Db.select_url d u user = None /\ Db.select_url d' u user = None)
  \/ (exists r r', Db.select_url d u user = Some r
                   /\ Db.select_url d' u user = Some r'
                   /\ Db.id r' = Db.id r /\ Db.category r' = Db.category r
                   /\ checks_of d' (Db.id r) = checks_of d (Db.id r)) ->
  Db.get_url_status off now d' u user = Db.get_url_status off now d u user.
Proof.
  intros [[H H']|(r & r' & H & H' & Hid & Hcat & Hch)].
  - now rewrite !status_without_row.
  - rewrite (status_of_row _ _ _ _ _ _ H), (status_of_row _ _ _ _ _ _ H').
    now rewrite Hid, Hcat, Hch.
Qed.

Lemma no_checks_of_new_key s key :
  consistent s -> url_seq s < key -> checks_of (tables s) key = [].
Proof.
  intros (_ & Hrange & _ & _ & _ & _ & _ & Href) Hk. unfold checks_of.
  destruct (filter _ _) as [|c l] eqn:E; [reflexivity|].
  assert (Hc : In c (filter (fun c => Db.url_id c =? key) (Db.checks (tables s))))
    by (rewrite E; now left).
  apply filter_In in Hc. destruct Hc as [Hc Hid]. apply Z.eqb_eq in Hid.
  destruct (Href c Hc) as (r & Hr & Hrid). apply Hrange in Hr. lia.
Qed.

Lemma add_url_appends t s u user cat :
  user_owns_url (tables s) u user = false ->
  let key := next_rowid (map Db.id (Db.urls (tables s))) (url_seq s) in
  let row := Db.mkUrl key u (Clock.current_timestamp t) user cat in
  add_url t s u user cat
  = (mkStore (Db.mkDb (Db.users (tables s)) (Db.urls (tables s) ++ [row])
                      (Db.checks (tables s)))
             (secrets s) (user_seq s) key,
     true)
  /\ find (owned_by u user) (Db.urls (tables s) ++ [row]) = Some row.
Proof.
  intros Ho key row. unfold add_url. rewrite Ho. split; [reflexivity|].
  rewrite (find_app_none _ _ _ (not_owned _ _ _ Ho)).
  unfold owned_by, row. cbn [find Db.url Db.user_id].
  now rewrite String.eqb_refl, Z.eqb_refl.
Qed.

(** The snapshot of a target that has just been registered. *)
Lemma fresh_target_status t s u user cat off now :
  consistent s -> user <> 0 -> user_owns_url (tables s) u user = false ->
  Db.get_url_status off now (tables (fst (add_url t s u user cat))) u (Some user)
  = Ok (Some (Db.mkStatus u (Py.Int 0) None (Db.truthy_str cat))).
Proof.
  intros Hs Hnz Ho. destruct (add_url_appends t s u user cat Ho) as [Hadd Hfind].
  rewrite Hadd. cbn [fst tables].
  pose proof (next_rowid_fresh (map Db.id (Db.urls (tables s))) (url_seq s))
    as (_ & Hseq & _).
  erewrite status_of_row;
    [|rewrite select_by_owner by exact Hnz; cbn [Db.urls]; exact Hfind].
  cbn [Db.id Db.category].
  match goal with |- context [checks_of _ ?k] =>
    replace (checks_of _ k) with (checks_of (tables s) k) by reflexivity;
    rewrite (no_checks_of_new_key s k Hs Hseq)
  end.
  reflexivity.
Qed.

(** X5.  A target that was just registered: it is owned, its snapshot is the
    integer 0 with no [last_checked], and registering it again is refused
    without any change. *)
Theorem new_target_snapshot t s u user cat off now :
  consistent s -> user <> 0 -> user_owns_url (tables s) u user = false ->
  exists s',
    add_url t s u user cat = (s', true)
    /\ user_owns_url (tables s') u user = true
    /\ Db.get_url_status off now (tables s') u (Some user)
       = Ok (Some (Db.mkStatus u (Py.Int 0) None (Db.truthy_str cat)))
    /\ forall t' cat', add_url t' s' u user cat' = (s', false).
Proof.
  intros Hs Hnz Ho.
  pose proof (fresh_target_status t s u user cat off now Hs Hnz Ho) as Hst.
  destruct (add_url_appends t s u user cat Ho) as [Hadd Hfind].
  rewrite Hadd in Hst. cbn [fst] in Hst.
  eexists. split; [exact Hadd|]. cbn [tables] in *.
  match type of Hfind with find _ ?l = _ =>
    assert (Hown : forall d, Db.urls d = l -> user_owns_url d u user = true)
  end.
  { intros d Hd. unfold user_owns_url. fold (owned_by u user).
    now rewrite Hd, Hfind. }
  split; [now apply Hown|]. split; [exact Hst|].
  intros t' cat'. unfold add_url. cbn [tables].
  rewrite Hown; reflexivity.
Qed.

(** X6.  Registering a target changes the snapshot of no other target. *)
Theorem add_url_is_local t s u user cat u' user' off now :
  user' <> 0 -> (u', user') <> (u, user) ->
  Db.get_url_status off now (tables (fst (add_url t s u user cat))) u' (Some user')
  = Db.get_url_status off now (tables s) u' (Some user').
Proof.
  intros Hnz Hne. unfold add_url.
  destruct (user_owns_url (tables s) u user); [reflexivity|]. cbn [fst tables].
  apply status_agree. rewrite !select_by_owner by exact Hnz. cbn [Db.urls].
  destruct (find (owned_by u' user') (Db.urls (tables s))) as [r|] eqn:E.
  - right. exists r, r. rewrite (find_app_some _ _ _ _ E). auto.
  - left. split; [reflexivity|]. rewrite (find_app_none _ _ _ E).
    unfold owned_by. cbn [find Db.url Db.user_id].
    destruct (String.eqb_spec u u') as [->|_]; [|reflexivity].
    destruct (Z.eqb_spec user user') as [->|_]; [congruence|reflexivity].
Qed.

Lemma find_filter {A} (f g : A -> bool) (l : list A) :
  find f (filter g l) = find (fun x => g x && f x) l.
Proof.
  induction l as [|a l IH]; simpl; [reflexivity|].
  destruct (g a); simpl; [destruct (f a); [reflexivity|exact IH]|exact IH].
Qed.

Lemma find_ext_in {A} (f g : A -> bool) (l : list A) :
  (forall x, In x l -> f x = g x) -> find f l = find g l.
Proof.
  induction l as [|a l IH]; simpl; intros H; [reflexivity|].
  rewrite (H a (or_introl eq_refl)). destruct (g a); [reflexivity|].
  apply IH. intros x Hx. apply H. now right.
Qed.

Lemma filter_filter_same {A} (f g : A -> bool) (l : list A) :
  (forall x, f x = true -> g x = true) ->
  filter f (filter g l) = filter f l.
Proof.
  intros H. induction l as [|a l IH]; simpl; [reflexivity|].
  destruct (g a) eqn:G; simpl.
  - destruct (f a); now rewrite IH.
  - destruct (f a) eqn:F; [apply H in F; congruence|exact IH].
Qed.

Lemma removed_is_not_owned s u user :
  consistent s ->
  user_owns_url (tables (fst (remove_url s u user))) u user = false.
Proof.
  intros (_ & _ & Huniq & _). unfold remove_url, user_owns_url.
  fold (owned_by u user).
  destruct (find (owned_by u user) (Db.urls (tables s))) as [row|] eqn:E;
    cbn [fst]; [|now rewrite E].
  unfold with_tables. cbn [tables Db.urls].
  pose proof (find_some _ _ E) as [Hrow Hm].
  apply andb_true_iff in Hm. destruct Hm as [Hu Hi].
  apply String.eqb_eq in Hu. apply Z.eqb_eq in Hi.
  rewrite find_absent; [reflexivity|]. intros r Hr. apply filter_In in Hr.
  destruct Hr as [Hr Hk]. apply negb_true_iff, Z.eqb_neq in Hk.
  unfold owned_by.
  destruct (String.eqb_spec (Db.url r) u) as [Eu|]; [|reflexivity].
  destruct (Z.eqb_spec (Db.user_id r) user) as [Ei|]; [|reflexivity].
  exfalso. apply Hk. apply Huniq; congruence.
Qed.

(** X7.  Removing a target takes its row and the checks that carry its id, and
    nothing else; the user no longer owns the URL. *)
Theorem remove_url_cascades s u user off now :
  consistent s -> user <> 0 -> user_owns_url (tables s) u user = true ->
  exists row s',
    remove_url s u user = (s', true)
    /\ In row (Db.urls (tables s)) /\ Db.url row = u /\ Db.user_id row = user
    /\ (forall r, In r (Db.urls (tables s'))
                  <-> In r (Db.urls (tables s)) /\ r <> row)
    /\ (forall c, In c (Db.checks (tables s'))
                  <-> In c (Db.checks (tables s)) /\ Db.url_id c <> Db.id row)
    /\ Db.users (tables s') = Db.users (tables s)
    /\ user_owns_url (tables s') u user = false
    /\ Db.get_url_status off now (tables s') u (Some user) = Ok None.
Proof.
  intros Hs Hnz Ho. pose proof Hs as (Hnd & _ & Huniq & _).
  unfold remove_url, user_owns_url in *. fold (owned_by u user) in *.
  destruct (find (owned_by u user) (Db.urls (tables s))) as [row|] eqn:E;
    [|discriminate].
  pose proof (find_some _ _ E) as [Hrow Hm].
  apply andb_true_iff in Hm. destruct Hm as [Hu Hi].
  apply String.eqb_eq in Hu. apply Z.eqb_eq in Hi.
  exists row. eexists. split; [reflexivity|].
  unfold with_tables. cbn [tables Db.urls Db.checks Db.users].
  assert (Hgone : find (owned_by u user)
                    (filter (fun r => negb (Db.id r =? Db.id row))
                            (Db.urls (tables s))) = None).
  { apply find_absent. intros r Hr. apply filter_In in Hr.
    destruct Hr as [Hr Hk]. apply negb_true_iff, Z.eqb_neq in Hk.
    unfold owned_by.
    destruct (String.eqb_spec (Db.url r) u) as [Eu|]; [|reflexivity].
    destruct (Z.eqb_spec (Db.user_id r) user) as [Ei|]; [|reflexivity].
    exfalso. apply Hk. apply Huniq; congruence. }
  split; [exact Hrow|]. split; [exact Hu|]. split; [exact Hi|].
  split; [|split; [|split; [reflexivity|split]]].
  - intros r. rewrite filter_In, negb_true_iff, Z.eqb_neq. split.
    + intros [Hr Hk]. split; [exact Hr|]. now intros ->.
    + intros [Hr Hne]. split; [exact Hr|]. intros Ek. apply Hne.
      now apply (NoDup_key_inj Db.id (Db.urls (tables s))).
  - intros c. rewrite filter_In, negb_true_iff, Z.eqb_neq. tauto.
  - now rewrite Hgone.
  - apply status_without_row. rewrite select_by_owner by exact Hnz. exact Hgone.
Qed.

(** X8.  Removing a target changes the snapshot of no other target; a URL the
    user does not own is refused without any change. *)
Theorem remove_url_is_local s u user :
  (user_owns_url (tables s) u user = false -> remove_url s u user = (s, false))
  /\ (consistent s ->
      forall u' user' off now,
        user' <> 0 -> (u', user') <> (u, user) ->
        Db.get_url_status off now (tables (fst (remove_url s u user))) u' (Some user')
        = Db.get_url_status off now (tables s) u' (Some user')).
Proof.
  split.
  - intros Ho. unfold remove_url. now rewrite (not_owned _ _ _ Ho).
  - intros (Hnd & _ & Huniq & _) u' user' off now Hnz Hne.
    unfold remove_url. fold (owned_by u user).
    destruct (find (owned_by u user) (Db.urls (tables s))) as [row|] eqn:E;
      [|reflexivity].
    pose proof (find_some _ _ E) as [Hrow Hm].
    apply andb_true_iff in Hm. destruct Hm as [Hu Hi].
    apply String.eqb_eq in Hu. apply Z.eqb_eq in Hi.
    cbn [fst]. unfold with_tables. cbn [tables].
    apply status_agree. rewrite !select_by_owner by exact Hnz. cbn [Db.urls].
    rewrite find_filter.
    assert (Hsame : find (fun x => negb (Db.id x =? Db.id row) && owned_by u' user' x)
                      (Db.urls (tables s))
                    = find (owned_by u' user') (Db.urls (tables s))).
    { apply find_ext_in. intros r Hr.
      destruct (owned_by u' user' r) eqn:Er; [|apply andb_false_r].
      rewrite andb_true_r. apply negb_true_iff, Z.eqb_neq. intros Ek.
      assert (r = row) by now apply (NoDup_key_inj Db.id (Db.urls (tables s))).
      subst r. apply andb_true_iff in Er. destruct Er as [Eu Ei].
      apply String.eqb_eq in Eu. apply Z.eqb_eq in Ei. congruence. }
    rewrite Hsame.
    destruct (find (owned_by u' user') (Db.urls (tables s))) as [r|] eqn:Er;
      [|now left].
    right. exists r, r. repeat split; trivial.
    unfold checks_of. cbn [Db.checks].
    apply filter_filter_same. intros c Hc. apply Z.eqb_eq in Hc.
    apply negb_true_iff, Z.eqb_neq. rewrite Hc. intros Ek.
    pose proof (find_some _ _ Er) as [Hr Hm].
    assert (r = row) by now apply (NoDup_key_inj Db.id (Db.urls (tables s))).
    subst r. apply andb_true_iff in Hm. destruct Hm as [Eu Ei].
    apply String.eqb_eq in Eu. apply Z.eqb_eq in Ei. congruence.
Qed.

(** X9.  A URL that is removed and registered again starts without history:
    the new target's snapshot is the integer 0 with no [last_checked]. *)
Theorem removed_target_starts_afresh t s u user cat off now :
  consistent s -> user <> 0 -> user_owns_url (tables s) u user = true ->
  Db.get_url_status off now
    (tables (fst (add_url t (fst (remove_url s u user)) u user cat)))
    u (Some user)
  = Ok (Some (Db.mkStatus u (Py.Int 0) None (Db.truthy_str cat))).
Proof.
  intros Hs Hnz Ho. apply fresh_target_status; [|exact Hnz|].
  - now apply remove_url_consistent.
  - now apply removed_is_not_owned.
Qed.

Lemma find_map_same {A} (f : A -> bool) (g : A -> A) (l : list A) :
  (forall x, f (g x) = f x) -> find f (map g l) = option_map g (find f l).
Proof.
  intros H. induction l as [|a l IH]; simpl; [reflexivity|].
  rewrite H. destruct (f a); [reflexivity|exact IH].
Qed.

Lemma with_same_tables (s : store) : with_tables s (tables s) = s.
Proof. now destruct s. Qed.

(** X10.  Changing the category of a target changes its category and nothing
    else: its percentage and [last_checked] stay, the other targets are
    untouched; a URL the user does not own is refused without change. *)
Theorem category_update s u user cat off now :
  consistent s -> user <> 0 ->
  (user_owns_url (tables s) u user = false ->
   update_url_category s u user cat = (s, false))
  /\ (user_owns_url (tables s) u user = true ->
      exists s' st,
        update_url_category s u user cat = (s', true)
        /\ Db.get_url_status off now (tables s) u (Some user) = Ok (Some st)
        /\ Db.get_url_status off now (tables s') u (Some user)
           = Ok (Some (Db.mkStatus (Db.st_url st) (Db.uptime_percentage st)
                                   (Db.last_checked st)
                                   (Db.truthy_str (Some cat)))))
  /\ (forall u' user',
        user' <> 0 -> (u', user') <> (u, user) ->
        Db.get_url_status off now
          (tables (fst (update_url_category s u user cat))) u' (Some user')
        = Db.get_url_status off now (tables s) u' (Some user')).
Proof.
  intros Hs Hnz.
  pose (upd := fun r : Db.url_row =>
                if owned_by u user r
                then Db.mkUrl (Db.id r) (Db.url r) (Db.created_at r)
                              (Db.user_id r) (Some cat)
                else r).
  assert (Hdef : update_url_category s u user cat
                 = (with_tables s
                      (Db.mkDb (Db.users (tables s))
                               (map upd (Db.urls (tables s)))
                               (Db.checks (tables s))),
                    existsb (owned_by u user) (Db.urls (tables s))))
    by reflexivity.
  rewrite Hdef. clear Hdef.
  assert (Kown : forall v w r, owned_by v w (upd r) = owned_by v w r)
    by (intros v w r; unfold upd; now destruct (owned_by u user r)).
  assert (Kid : forall r, Db.id (upd r) = Db.id r)
    by (intros r; unfold upd; now destruct (owned_by u user r)).
  split; [|split].
  - intros Ho. pose proof (not_owned _ _ _ Ho) as Hnone.
    fold (owned_by u user) in Hnone.
    assert (Hex : existsb (owned_by u user) (Db.urls (tables s)) = false)
      by now apply existsb_find.
    rewrite Hex. f_equal.
    assert (Hmap : map upd (Db.urls (tables s)) = Db.urls (tables s)).
    { rewrite <- (map_id (Db.urls (tables s))) at 2. apply map_ext_in.
      intros r Hr. unfold upd.
      rewrite (find_none _ _ Hnone r Hr). reflexivity. }
    rewrite Hmap. destruct s as [[us ur ch] se a b]. reflexivity.
  - intros Ho. unfold user_owns_url in Ho. fold (owned_by u user) in Ho.
    destruct (find (owned_by u user) (Db.urls (tables s))) as [row|] eqn:E;
      [|discriminate].
    pose proof (find_some _ _ E) as [Hrow Hm].
    assert (Hex : existsb (owned_by u user) (Db.urls (tables s)) = true)
      by (apply existsb_exists; eauto).
    rewrite Hex. eexists. eexists. split; [reflexivity|]. split.
    + apply status_of_row. rewrite select_by_owner by exact Hnz. exact E.
    + unfold with_tables. cbn [tables].
      erewrite status_of_row;
        [|rewrite select_by_owner by exact Hnz; cbn [Db.urls];
          rewrite (find_map_same _ _ _ (Kown u user)), E; reflexivity].
      cbn [Db.st_url Db.uptime_percentage Db.last_checked]. rewrite Kid.
      unfold upd at 3. rewrite Hm. reflexivity.
  - intros u' user' Hnz' Hne. cbn [fst]. unfold with_tables. cbn [tables].
    apply status_agree. rewrite !select_by_owner by exact Hnz'. cbn [Db.urls].
    rewrite (find_map_same _ _ _ (Kown u' user')).
    destruct (find (owned_by u' user') (Db.urls (tables s))) as [r|] eqn:Er;
      [|now left].
    right. exists r, (upd r). repeat split; trivial.
    pose proof (find_some _ _ Er) as [_ Hm]. unfold upd.
    destruct (owned_by u user r) eqn:Eo; [|reflexivity].
    apply andb_true_iff in Hm, Eo. destruct Hm as [A1 A2], Eo as [B1 B2].
    apply String.eqb_eq in A1, B1. apply Z.eqb_eq in A2, B2. congruence.
Qed.

Section SortedOutput.
Context {A : Type} (before : A -> A -> bool).
Hypothesis before_total : forall a b, before a b = true \/ before b a = true.
Hypothesis before_trans :
  forall a b c, before a b = true -> before b c = true -> before a c = true.

Let R (a b : A) : Prop := before a b = true.

Lemma insert_sorted (x : A) (l : list A) :
  StronglySorted R l -> StronglySorted R (Sql.insert before x l).
Proof.
  induction 1 as [|y l Hs IH Hy]; simpl.
  - repeat constructor.
  - destruct (before x y) eqn:E.
    + constructor; [now constructor|].
      constructor; [exact E|].
      eapply Forall_impl; [|exact Hy]. intros z Hz. exact (before_trans _ _ _ E Hz).
    + constructor; [exact IH|].
      eapply Permutation_Forall;
        [symmetry; apply SqlFacts.insert_perm|].
      constructor; [|exact Hy].
      destruct (before_total x y) as [H|H]; [congruence|exact H].
Qed.

Lemma order_by_sorted (l : list A) : StronglySorted R (Sql.order_by before l).
Proof.
  induction l as [|x l IH]; simpl; [constructor|now apply insert_sorted].
Qed.
End SortedOutput.

Lemma firstn_sorted {A} (R : A -> A -> Prop) (n : nat) (l : list A) :
  StronglySorted R l -> StronglySorted R (firstn n l).
Proof.
  intros H. revert n. induction H as [|x l Hs IH Hx]; intros [|n]; simpl;
    try constructor.
  - apply IH.
  - rewrite Forall_forall in *. intros y Hy. apply Hx.
    rewrite <- (firstn_skipn n l). apply in_or_app. now left.
Qed.

Lemma sql_limit_incl {A} (n : Z) (l : list A) (x : A) :
  In x (sql_limit n l) -> In x l.
Proof.
  unfold sql_limit. destruct (n <? 0); [trivial|].
  intros H. rewrite <- (firstn_skipn (Z.to_nat n) l). apply in_or_app. now left.
Qed.









(** X11.  Whatever the tables hold and whoever asks, the log is ordered newest
    first, and every entry is a stored check of a target that carries the
    URL and, when a non-zero user is given, belongs to that user. *)
Theorem logs_newest_first d u user limit :
  StronglySorted newer_first (get_url_logs d u user limit)
  /\ forall c, In c (get_url_logs d u user limit) ->
       In c (Db.checks d)
       /\ exists r, In r (Db.urls d) /\ Db.url r = u /\ Db.id r = Db.url_id c
                    /\ forall n, user = Some n -> n <> 0 -> Db.user_id r = n.
Proof.
  unfold get_url_logs. split.
  - unfold sql_limit. destruct (limit <? 0); [|apply firstn_sorted];
      apply (order_by_sorted _ DbFacts.desc_total DbFacts.desc_trans).
  - intros c Hc. apply sql_limit_incl in Hc.
    apply (Permutation_in _ (SqlFacts.order_by_perm _ _)) in Hc.
    apply in_flat_map in Hc. destruct Hc as (c0 & Hc0 & Hc).
    apply in_map_iff in Hc. destruct Hc as (r & -> & Hr).
    apply filter_In in Hr. destruct Hr as [Hr Hm].
    apply andb_true_iff in Hm. destruct Hm as [Hk Hm].
    apply andb_true_iff in Hm. destruct Hm as [Hu Hw].
    apply Z.eqb_eq in Hk. apply String.eqb_eq in Hu.
    split; [exact Hc0|]. exists r. repeat split; trivial; [congruence|].
    intros n -> Hn. unfold Db.truthy_int in Hw.
    apply Z.eqb_neq in Hn. rewrite Hn in Hw. simpl in Hw.
    now apply Z.eqb_eq in Hw.
Qed.


(** X13.  The targets of a user, as [get_user_urls] lists them: exactly the
    rows of [urls] that belong to the user, each once, the one created
    last first. *)
Theorem user_urls_newest_first d user :
  StronglySorted created_later_first (Db.get_user_urls d user)
  /\ Permutation (Db.get_user_urls d user) (targets_of d user)
  /\ forall r, In r (Db.get_user_urls d user)
               <-> In r (Db.urls d) /\ Db.user_id r = user.
Proof.
  unfold Db.get_user_urls. fold (targets_of d user).
  pose proof (SqlFacts.order_by_perm (Sql.desc Db.created_at)
                                     (targets_of d user)) as Hp.
  split; [|split; [exact Hp|]].
  - apply order_by_sorted.
    + intros a b. unfold Sql.desc. apply TextFacts.leb_total.
    + intros a b c. unfold Sql.desc. intros H1 H2.
      eapply TextFacts.leb_trans; eassumption.
  - intros r. split.
    + intros H. apply (Permutation_in _ Hp) in H. unfold targets_of in H.
      apply filter_In in H. now rewrite Z.eqb_eq in H.
    + intros [H E]. apply (Permutation_in _ (Permutation_sym Hp)).
      apply filter_In. now rewrite Z.eqb_eq.
Qed.

End RegistryFacts.

(** ** Histories *)

Module HistoryFacts.
Import Exc Env Registry History Spec.
Import RegistryFacts.

(** What a pass and an immediate check do to the tables: rows are added
    to [checks], each for a target of [urls]. *)
Lemma pass_tables env st :
  exists new,
    db (Monitoring.world (fst (Monitoring.check_all_urls env st)))
    = Db.mkDb (Db.users (db (Monitoring.world st)))
              (Db.urls (db (Monitoring.world st)))
              (Db.checks (db (Monitoring.world st)) ++ new)
    /\ forall c, In c new ->
         exists r, In r (Db.urls (db (Monitoring.world st)))
                   /\ Db.id r = Db.url_id c.
Proof.
  destruct (PassFacts.check_all_urls_run env st)
    as (new & t & gets & Hrun & Hp & _).
  exists new. rewrite Hrun. split; [reflexivity|].
  intros c Hc.
  assert (Hin : In (Db.url_id c)
                   (map Db.id (Db.urls (db (Monitoring.world st)))))
    by (apply (Permutation_in _ Hp); now apply in_map).
  apply in_map_iff in Hin. destruct Hin as (r & Hid & Hr). eauto.
Qed.

(** An immediate check of a URL that some row carries probes the first
    such row, through whatever session there is, and records one check
    for it. *)
Lemma immediate_check_row env u st row :
  find (fun r => String.eqb (Db.url r) u) (Db.urls (db (Monitoring.world st)))
  = Some row ->
  exists c w',
    Monitoring.check_single_url_immediately env u st
    = (Monitoring.mkState (Monitoring.self st) w', Ok tt)
    /\ db w' = Db.mkDb (Db.users (db (Monitoring.world st)))
                       (Db.urls (db (Monitoring.world st)))
                       (Db.checks (db (Monitoring.world st)) ++ [c])
    /\ Db.url_id c = Db.id row.
Proof.
  intros E.
  unfold Monitoring.check_single_url_immediately, Db.get_all_urls.
  unfold bind at 1, gets at 1. cbv beta iota.
  unfold bind at 1, gets at 1. cbv beta iota. rewrite E.
  destruct (Monitoring.session (Monitoring.self st)) as [sess|] eqn:Es.
  - unfold Monitoring.check_single_url, bind at 1, gets at 1. cbv beta iota.
    rewrite MonitoringFacts.check_single_url_at_run. cbv beta iota zeta.
    eexists. eexists. split; [reflexivity|]. split; reflexivity.
  - unfold bind at 1, Monitoring.set_session at 1, modify. cbv beta iota.
    unfold bind at 1, Monitoring.check_single_url, bind at 1, gets at 1.
    cbv beta iota.
    rewrite MonitoringFacts.check_single_url_at_run. cbv beta iota zeta.
    unfold Monitoring.set_session, modify.
    cbn [Monitoring.world Monitoring.self Monitoring.session
         Monitoring.notification_service Monitoring.running].
    destruct st as [[ns sess run] w]. cbn in Es. subst sess.
    cbn [Monitoring.world Monitoring.self Monitoring.session
         Monitoring.notification_service Monitoring.running].
    eexists. eexists. split; [reflexivity|]. split; reflexivity.
Qed.

Lemma immediate_check_tables env u st :
  exists new,
    db (Monitoring.world
          (fst (Monitoring.check_single_url_immediately env u st)))
    = Db.mkDb (Db.users (db (Monitoring.world st)))
              (Db.urls (db (Monitoring.world st)))
              (Db.checks (db (Monitoring.world st)) ++ new)
    /\ forall c, In c new ->
         exists r, In r (Db.urls (db (Monitoring.world st)))
                   /\ Db.id r = Db.url_id c.
Proof.
  destruct (find (fun r => String.eqb (Db.url r) u)
                 (Db.urls (db (Monitoring.world st)))) as [row|] eqn:E.
  - destruct (immediate_check_row env u st row E) as (c & w' & Hrun & Hdb & Hc).
    exists [c]. rewrite Hrun. cbn [fst Monitoring.world]. split; [exact Hdb|].
    intros c' [<-|[]]. exists row. apply find_some in E.
    split; [exact (proj1 E)|now symmetry].
  - exists []. rewrite app_nil_r.
    unfold Monitoring.check_single_url_immediately, Db.get_all_urls.
    unfold bind at 1, gets at 1. cbv beta iota.
    unfold bind at 1, gets at 1. cbv beta iota. rewrite E.
    unfold ret. cbn [fst].
    destruct st as [sv [[us ur ch] t l]]. split; [reflexivity|].
    intros c [].
Qed.

Lemma recorded_consistent s d :
  consistent s ->
  (exists new,
     d = Db.mkDb (Db.users (tables s)) (Db.urls (tables s))
                 (Db.checks (tables s) ++ new)
     /\ forall c, In c new ->
          exists r, In r (Db.urls (tables s)) /\ Db.id r = Db.url_id c) ->
  consistent (with_tables s d).
Proof.
  intros (H1 & H2 & H3 & H4 & H5 & H6 & H7 & H8) (new & -> & Hnew).
  unfold consistent, with_tables.
  cbn [tables Db.urls Db.users Db.checks secrets user_seq url_seq].
  split; [exact H1|]. split; [exact H2|]. split; [exact H3|].
  split; [exact H4|]. split; [exact H5|]. split; [exact H6|].
  split; [exact H7|].
  intros c Hc. apply in_app_or in Hc. destruct Hc as [Hc|Hc]; auto.
Qed.

Lemma monitored_pass s svc t env :
  exists new,
    db (Monitoring.world
          (fst (Monitoring.check_all_urls env
                  (Monitoring.mkState svc (mkWorld (tables s) t [])))))
    = Db.mkDb (Db.users (tables s)) (Db.urls (tables s))
              (Db.checks (tables s) ++ new)
    /\ forall c, In c new ->
         exists r, In r (Db.urls (tables s)) /\ Db.id r = Db.url_id c.
Proof.
  exact (pass_tables env (Monitoring.mkState svc (mkWorld (tables s) t []))).
Qed.

Lemma monitored_check s svc t env u :
  exists new,
    db (Monitoring.world
          (fst (Monitoring.check_single_url_immediately env u
                  (Monitoring.mkState svc (mkWorld (tables s) t [])))))
    = Db.mkDb (Db.users (tables s)) (Db.urls (tables s))
              (Db.checks (tables s) ++ new)
    /\ forall c, In c new ->
         exists r, In r (Db.urls (tables s)) /\ Db.id r = Db.url_id c.
Proof.
  exact (immediate_check_tables env u
           (Monitoring.mkState svc (mkWorld (tables s) t []))).
Qed.

Section Replayed.
Variable pbkdf2 : string -> string -> string.

Lemma perform_consistent s w :
  consistent s -> consistent (perform pbkdf2 s w).
Proof.
  intros Hs. destruct w; cbn [perform].
  - now apply create_user_consistent.
  - now apply add_url_consistent.
  - now apply remove_url_consistent.
  - now apply update_url_category_consistent.
  - apply recorded_consistent; [exact Hs|apply monitored_pass].
  - apply recorded_consistent; [exact Hs|apply monitored_check].
Qed.

Lemma run_consistent ws :
  forall s, consistent s -> consistent (fold_left (perform pbkdf2) ws s).
Proof.
  induction ws as [|w ws IH]; intros s Hs; [exact Hs|].
  cbn [fold_left]. apply IH. now apply perform_consistent.
Qed.

(** X14.  The schema's constraints and the sequence counters hold of every
    database that a history of writes leaves behind: ids and user names
    are unique, a URL is registered at most once per user, every key lies
    between 1 and the counter of its table, every user has credentials,
    and every check belongs to a target that exists. *)
Theorem every_history_is_consistent (ws : list write) :
  consistent (replay pbkdf2 ws).
Proof. apply run_consistent, empty_is_consistent. Qed.





End Replayed.

End HistoryFacts.

(** ** The summary mail and the broadcast *)

Module ReportFacts.
Import Exc Env Notification Spec Report.

Ltac run := unfold bind, gets, ret, modify, try_except, raise, of_result; simpl.

Lemma summary_loop_data env user rows :
  forall data down w,
    summary_loop env user rows data down w
    = (w, Ok (data ++ snapshots env w user rows,
              down + Z.of_nat (List.length
                                 (filter low (snapshots env w user rows))))).
Proof.
  induction rows as [|row rows IH]; intros data down w; simpl.
  - run. now rewrite Z.add_0_r, app_nil_r.
  - run.
    destruct (DbFacts.get_url_status_total (utcoffset env) (clock w) (db w)
                (Db.url row) (Some user)) as [r Hr].
    rewrite Hr. simpl. destruct r as [st|].
    + rewrite IH. rewrite <- app_assoc. simpl. f_equal. f_equal. f_equal.
      unfold low at 2. destruct (Py.lt_int (Db.uptime_percentage st) 99);
        simpl List.length; lia.
    + rewrite IH. reflexivity.
Qed.

(** A row of [urls] is found again through its URL, with or without its
    owner. *)
Lemma row_has_snapshot env w user row :
  In row (Db.urls (db w)) -> Db.user_id row = user ->
  exists st,
    Db.get_url_status (utcoffset env) (clock w) (db w) (Db.url row) (Some user)
    = Ok (Some st)
    /\ Db.st_url st = Db.url row.
Proof.
  intros Hrow Hu.
  assert (Hsel : exists r, Db.select_url (db w) (Db.url row) (Some user) = Some r).
  { unfold Db.select_url. destruct (Db.truthy_int (Some user)).
    - destruct (find _ _) as [r|] eqn:E; [eauto|].
      apply (find_none _ _ E) in Hrow.
      rewrite String.eqb_refl, Hu, Z.eqb_refl in Hrow. discriminate.
    - destruct (find _ _) as [r|] eqn:E; [eauto|].
      apply (find_none _ _ E) in Hrow.
      rewrite String.eqb_refl in Hrow. discriminate. }
  destruct Hsel as [r Hsel].
  rewrite (DbFacts.get_url_status_found _ _ _ _ _ _ Hsel).
  eexists. split; reflexivity.
Qed.

Lemma snapshots_urls env w user rows :
  (forall row, In row rows -> In row (Db.urls (db w)) /\ Db.user_id row = user) ->
  map Db.st_url (snapshots env w user rows) = map Db.url rows.
Proof.
  unfold snapshots. induction rows as [|row rows IH]; intros H; simpl;
    [reflexivity|].
  destruct (H row (or_introl eq_refl)) as [Hrow Hu].
  destruct (row_has_snapshot env w user row Hrow Hu) as (st & -> & Hst).
  simpl. rewrite Hst. f_equal. apply IH. intros r Hr. apply H. now right.
Qed.

Lemma user_rows_in d user row :
  In row (Db.get_user_urls d user) ->
  In row (Db.urls d) /\ Db.user_id row = user.
Proof.
  unfold Db.get_user_urls. intros H.
  apply (Permutation_in _ (SqlFacts.order_by_perm _ _)) in H.
  apply filter_In in H. destruct H as [H E]. now apply Z.eqb_eq in E.
Qed.

Lemma low_is_not_green st : negb (green (class_of st)) = low st.
Proof.
  unfold class_of, low, ge_int, Py.lt_int.
  destruct (Qle_bool (inject_Z 99) _); [reflexivity|].
  now destruct (Qle_bool (inject_Z 95) _).
Qed.

Lemma filter_map_count {A B} (f : A -> B) (p : B -> bool) (l : list A) :
  List.length (filter p (map f l)) = List.length (filter (fun a => p (f a)) l).
Proof.
  induction l as [|a l IH]; simpl; [reflexivity|].
  destruct (p (f a)); simpl; now rewrite IH.
Qed.

(** The mail that is composed for a user with targets. *)
Lemma summary_mail self env user addr w :
  email_enabled self = true -> storage_fault env user = None ->
  Db.get_user_urls (db w) user <> [] ->
  let rows := Db.get_user_urls (db w) user in
  let data := snapshots env w user rows in
  let down := Z.of_nat (List.length (filter low data)) in
  let name := match Db.get_user_info (db w) user with
              | Some r => Db.username r
              | None => "User"%string
              end in
  send_user_uptime_summary self env user addr w
  = (mkWorld (db w) (clock w)
       (log w ++ [EvSummary user;
                  EvMail addr
                    (if 0 <? down then NeedAttention name down
                     else AllOperational name)
                    (mkSummary name data (Sql.count rows) down)]),
     Ok (negb (raises (smtp env addr)))).
Proof.
  intros En Ef Hne. cbv zeta.
  unfold send_user_uptime_summary, emit. rewrite En. simpl.
  unfold read_user_urls. rewrite Ef. run.
  destruct (Db.get_user_urls (db w) user) as [|r0 rows'] eqn:Er; [congruence|].
  rewrite <- Er.
  rewrite summary_loop_data. cbv beta iota. cbn [db clock log].
  rewrite NotificationFacts.send_email_run. cbn [db clock log].
  rewrite <- app_assoc. simpl.
  destruct (smtp env addr); reflexivity.
Qed.

(** X22.  The summary mail agrees with itself.  Its table has one line per
    target of the user, in the order of [get_user_urls]; [total_sites] is
    the number of lines; [down_sites] is the number of lines that are not
    shown as "success"; and the subject and the headline ask for
    attention exactly when [down_sites] is positive. *)
Theorem summary_mail_is_coherent self env user addr w :
  email_enabled self = true ->
  storage_fault env user = None ->
  targets_of (db w) user <> [] ->
  exists subj body,
    send_user_uptime_summary self env user addr w
    = (mkWorld (db w) (clock w) (log w ++ [EvSummary user; EvMail addr subj body]),
       Ok (negb (raises (smtp env addr))))
    /\ map fst (table body) = map Db.url (Db.get_user_urls (db w) user)
    /\ total_sites body = Z.of_nat (List.length (table body))
    /\ down_sites body
       = Z.of_nat (List.length
                     (filter (fun line => negb (green (snd line))) (table body)))
    /\ ((down_sites body = 0
         /\ subj = AllOperational (sm_username body)
         /\ overall_status (down_sites body) = Operational)
        \/ (0 < down_sites body
            /\ subj = NeedAttention (sm_username body) (down_sites body)
            /\ overall_status (down_sites body) = Attention (down_sites body))).
Proof.
  intros En Ef Hne.
  assert (Hrows : Db.get_user_urls (db w) user <> []).
  { intros H. apply Hne. unfold Db.get_user_urls in H.
    now apply SqlFacts.order_by_nil in H. }
  pose proof (summary_mail self env user addr w En Ef Hrows) as Hrun.
  cbv zeta in Hrun. eexists. eexists. split; [exact Hrun|].
  set (rows := Db.get_user_urls (db w) user) in *.
  set (data := snapshots env w user rows) in *.
  assert (Hurls : map Db.st_url data = map Db.url rows)
    by (apply snapshots_urls; intros row Hr; now apply user_rows_in).
  unfold table. cbn [summary_data total_sites down_sites sm_username].
  split; [now rewrite map_map|]. split.
  - rewrite length_map. unfold Sql.count.
    rewrite <- (length_map Db.url rows), <- Hurls. now rewrite length_map.
  - split.
    + rewrite filter_map_count. cbn [snd]. f_equal. f_equal.
      apply filter_ext. intros st. now rewrite low_is_not_green.
    + unfold overall_status.
      destruct (Z.of_nat (List.length (filter low data))) as [|p|p] eqn:E.
      * left. repeat split.
      * right. repeat split.
      * lia.
Qed.







End ReportFacts.

(** ** The API *)

Module ApiFacts.
Import Exc Env Registry Spec Api.
Import RegistryFacts HistoryFacts.

Section Login.
Variable pbkdf2 : string -> string -> string.

Lemma verified_id_is_positive s name password id mail :
  consistent s ->
  verify_user pbkdf2 s name password = Some (id, mail) -> 1 <= id.
Proof.
  intros (_ & _ & _ & _ & _ & Hrange & _) H. unfold verify_user in H.
  destruct (find _ (Db.users (tables s))) as [u|] eqn:Eu; [|discriminate].
  destruct (find _ (secrets s)) as [c|]; [|discriminate].
  destruct (verify_password _ _ _ _); [|discriminate].
  injection H as <- <-. apply find_some in Eu. destruct Eu as [Hu _].
  apply Hrange in Hu. lia.
Qed.

(** X24.  Authentication never answers 401.  With credentials that
    [verify_user] accepts the request goes on as that user; with any
    others the dependency ends in a [TypeError] that nothing handles.
    An account that [POST /register] has just created can log in. *)
Theorem login_never_answers_401 (s : store) (name password : string) :
  consistent s ->
  (forall code, get_current_user pbkdf2 s name password <> HttpError code)
  /\ (get_current_user pbkdf2 s name password = Uncaught TypeError
      <-> verify_user pbkdf2 s name password = None)
  /\ (forall cu, get_current_user pbkdf2 s name password = Answer cu
                 <-> verify_user pbkdf2 s name password
                     = Some (user_id cu, email cu)
                     /\ username cu = name)
  /\ (forall token mail s' uid,
        register_user pbkdf2 token s name password mail = (s', Answer uid) ->
        get_current_user pbkdf2 s' name password
        = Answer (mkCurrent uid name mail)).
Proof.
  intros Hs.
  assert (Hok : forall s0 id mail,
            consistent s0 ->
            verify_user pbkdf2 s0 name password = Some (id, mail) ->
            get_current_user pbkdf2 s0 name password
            = Answer (mkCurrent id name mail)).
  { intros s0 id mail Hs0 Hv. unfold get_current_user. rewrite Hv.
    pose proof (verified_id_is_positive _ _ _ _ _ Hs0 Hv) as Hpos.
    destruct (Z.eqb_spec id 0); [lia|reflexivity]. }
  split; [|split; [|split]].
  - intros code. destruct (verify_user pbkdf2 s name password) as [[id mail]|] eqn:Hv.
    + rewrite (Hok s id mail Hs Hv). discriminate.
    + unfold get_current_user. rewrite Hv. discriminate.
  - destruct (verify_user pbkdf2 s name password) as [[id mail]|] eqn:Hv.
    + rewrite (Hok s id mail Hs Hv). split; discriminate.
    + unfold get_current_user. rewrite Hv. split; reflexivity.
  - intros cu.
    destruct (verify_user pbkdf2 s name password) as [[id mail]|] eqn:Hv.
    + rewrite (Hok s id mail Hs Hv). split.
      * intros H. injection H as <-. split; reflexivity.
      * intros [H <-]. injection H as -> ->. now destruct cu.
    + unfold get_current_user. rewrite Hv. split; [discriminate|].
      intros [H _]. discriminate.
  - intros token mail s' uid Hreg. unfold register_user in Hreg.
    destruct (create_user pbkdf2 token s name password mail) as [s1 [id|]] eqn:Hc;
      [|discriminate].
    destruct (id =? 0); [discriminate|]. injection Hreg as <- <-.
    apply Hok.
    + pose proof (create_user_consistent pbkdf2 token s name password mail Hs)
        as H. now rewrite Hc in H.
    + exact (create_then_verify pbkdf2 _ _ _ _ _ _ _ Hs Hc).
Qed.
End Login.

Lemma checks_of_app d new target :
  checks_of (Db.mkDb (Db.users d) (Db.urls d) (Db.checks d ++ new)) target
  = checks_of d target ++ filter (fun c => Db.url_id c =? target) new.
Proof. unfold checks_of. cbn [Db.checks]. apply filter_app. Qed.

(** X25.  [POST /track] for a URL the user does not track yet: the target is
    registered and one check is recorded at once, through the first row
    of [urls] that carries the URL.  When another user tracks the same
    URL that row is the other user's, the check goes to the other user's
    target, and the new target is left with the integer 0 and no
    [last_checked]; only when nobody else tracks the URL does the new
    target get the check. *)
Theorem track_url_probes_the_first_row env user u cat a :
  consistent (registry a) -> user <> 0 ->
  user_owns_url (tables (registry a)) u user = false ->
  exists a' c,
    track_url env user u cat a = (a', Answer tt)
    /\ Db.checks (tables (registry a'))
       = Db.checks (tables (registry a)) ++ [c]
    /\ user_owns_url (tables (registry a')) u user = true
    /\ match find (fun r => String.eqb (Db.url r) u)
                  (Db.urls (tables (registry a))) with
       | Some other =>
           Db.user_id other <> user
           /\ Db.url_id c = Db.id other
           /\ forall off t,
                Db.get_url_status off t (tables (registry a')) u (Some user)
                = Ok (Some (Db.mkStatus u (Py.Int 0) None (Db.truthy_str cat)))
       | None =>
           forall off t, exists st,
             Db.get_url_status off t (tables (registry a')) u (Some user)
             = Ok (Some st)
             /\ Db.last_checked st = Some (Db.timestamp c)
       end.
Proof.
  intros Hs Hnz Ho. unfold track_url.
  destruct (add_url_appends (now a) (registry a) u user cat Ho) as [Hadd Hfind].
  rewrite Hadd.
  pose proof (next_rowid_fresh (map Db.id (Db.urls (tables (registry a))))
                (url_seq (registry a))) as (_ & Hseq & _).
  set (key := next_rowid _ _) in *.
  set (row := Db.mkUrl key u (Clock.current_timestamp (now a)) user cat) in *.
  set (old := find (fun r => String.eqb (Db.url r) u)
                   (Db.urls (tables (registry a)))).
  assert (Hfirst : exists first,
            find (fun r => String.eqb (Db.url r) u)
                 (Db.urls (tables (registry a)) ++ [row]) = Some first
            /\ first = match old with Some other => other | None => row end).
  { unfold old. destruct (find _ (Db.urls (tables (registry a)))) as [other|] eqn:E.
    - exists other. split; [now apply find_app_some|reflexivity].
    - exists row. split; [|reflexivity]. rewrite (find_app_none _ _ _ E).
      cbn [find row Db.url]. now rewrite String.eqb_refl. }
  destruct Hfirst as (first & Hfirst & Hwho).
  unfold try_except, monitoring. cbn [registry monitor now trace tables].
  match goal with |- context [Monitoring.check_single_url_immediately env u ?st] =>
    destruct (immediate_check_row env u st first Hfirst)
      as (c & w' & Hrun & Hdb & Hc)
  end.
  rewrite Hrun. cbn [Monitoring.world Monitoring.self db] in *.
  eexists. exists c. split; [reflexivity|].
  cbn [registry]. unfold with_tables. cbn [tables]. rewrite Hdb.
  cbn [Db.checks Db.urls Db.users].
  split; [reflexivity|].
  split.
  { unfold user_owns_url. cbn [Db.urls]. fold (owned_by u user).
    now rewrite Hfind. }
  assert (Hsel : forall d, Db.urls d = Db.urls (tables (registry a)) ++ [row] ->
                   Db.select_url d u (Some user) = Some row).
  { intros d Hd. rewrite select_by_owner by exact Hnz. now rewrite Hd. }
  assert (Hold : checks_of (tables (registry a)) key = [])
    by exact (no_checks_of_new_key _ _ Hs Hseq).
  destruct old as [other|] eqn:Eold; subst first.
  - unfold old in Eold. pose proof (find_some _ _ Eold) as [Hin Hu].
    apply String.eqb_eq in Hu.
    assert (Hother : Db.user_id other <> user).
    { intros Huser.
      assert (O : user_owns_url (tables (registry a)) u user = true)
        by (apply owns_iff; eauto).
      congruence. }
    split; [exact Hother|]. split; [exact Hc|]. intros off t.
    erewrite status_of_row; [|apply Hsel; reflexivity].
    cbn [Db.id Db.category row].
    assert (Hnone : checks_of
              (Db.mkDb (Db.users (tables (registry a)))
                       (Db.urls (tables (registry a)) ++ [row])
                       (Db.checks (tables (registry a)) ++ [c])) key = []).
    { unfold checks_of in *. cbn [Db.checks]. rewrite filter_app, Hold.
      cbn [filter List.app]. rewrite Hc.
      destruct Hs as (_ & Hrange & _). apply Hrange in Hin.
      destruct (Z.eqb_spec (Db.id other) key); [lia|reflexivity]. }
    rewrite Hnone. reflexivity.
  - intros off t. eexists. split; [apply status_of_row, Hsel; reflexivity|].
    cbn [Db.last_checked Db.id row].
    assert (Hone : checks_of
              (Db.mkDb (Db.users (tables (registry a)))
                       (Db.urls (tables (registry a)) ++ [row])
                       (Db.checks (tables (registry a)) ++ [c])) key = [c]).
    { unfold checks_of in *. cbn [Db.checks]. rewrite filter_app, Hold.
      cbn [filter List.app]. rewrite Hc. cbn [Db.id row].
      now rewrite Z.eqb_refl. }
    rewrite Hone. reflexivity.
Qed.

End ApiFacts.

(** ** Runs of the scheduler *)

Module RunFacts.
Import Exc Env Monitoring Spec History.

(** A probe through a closed session fails at once. *)
Lemma closed_probe env start row st sess :
  session (self st) = Some sess -> closed sess = true ->
  check_single_url_at env start row st
  = (mkState (self st)
       (mkWorld (Db.add_check_result start (db (world st)) (Db.id row) 0
                                     "error" 0)
                (Z.max (clock (world st)) start)
                (log (world st) ++ [EvGet (Some sess) (Db.url row)])),
     Ok tt).
Proof.
  intros Hs Hc. rewrite MonitoringFacts.check_single_url_at_run.
  cbv zeta. rewrite Hs. unfold session_get. rewrite Hc.
  cbn [elapsed reply_of]. unfold response_time_ms. cbn [elapsed].
  now rewrite Z.add_0_r.
Qed.

Lemma closed_gather env start sess rows :
  forall st,
    session (self st) = Some sess -> closed sess = true ->
    exists results new t gets,
      gather (map (check_single_url_at env start) rows) st
      = (mkState (self st)
           (mkWorld (Db.mkDb (Db.users (db (world st))) (Db.urls (db (world st)))
                             (Db.checks (db (world st)) ++ new))
                    t
                    (log (world st) ++ gets)),
         Ok results)
      /\ map Db.url_id new = map Db.id rows
      /\ Forall failed_at_once new
      /\ steps_of gets = [].
Proof.
  induction rows as [|row rows IH]; intros st Hs Hc; simpl.
  - exists [], [], (clock (world st)), []. rewrite !app_nil_r.
    destruct st as [sv [[us ur ch] t l]]. repeat split. constructor.
  - unfold bind at 1, capture. rewrite (closed_probe _ _ _ _ _ Hs Hc).
    cbv beta iota. unfold bind at 1.
    match goal with |- context [gather _ ?s] =>
      destruct (IH s Hs Hc) as (results & new & t' & gets & Hg & Hids & Hall & Hst)
    end.
    rewrite Hg. cbv beta iota. unfold ret.
    cbn [self world db clock log Db.users Db.urls Db.checks Db.add_check_result].
    unfold Db.add_check_result. cbn [Db.users Db.urls Db.checks].
    eexists (Ok tt :: results), (_ :: new), t', (_ :: gets).
    rewrite <- !app_assoc. simpl. split; [reflexivity|]. split; [|split].
    + now rewrite Hids.
    + constructor; [repeat split|exact Hall].
    + exact Hst.
Qed.

(** A pass through a closed session: every target gets an "error" row
    with code 0, whatever the site would have answered. *)
Lemma closed_pass env st sess :
  session (self st) = Some sess -> closed sess = true ->
  exists new t gets,
    check_all_urls env st
    = (mkState (self st)
         (mkWorld (Db.mkDb (Db.users (db (world st))) (Db.urls (db (world st)))
                           (Db.checks (db (world st)) ++ new))
                  t
                  (log (world st)
                   ++ EvPass (map Db.id (Db.urls (db (world st)))) :: gets)),
       Ok tt)
    /\ Permutation (map Db.url_id new) (map Db.id (Db.urls (db (world st))))
    /\ Forall failed_at_once new
    /\ steps_of gets = [].
Proof.
  intros Hs Hc. unfold check_all_urls, Db.get_all_urls, emit.
  unfold bind at 1, gets at 1. cbv beta iota.
  unfold bind at 1, lift, modify. cbn [self world db clock log].
  destruct (Db.urls (db (world st))) as [|row rows] eqn:E.
  - exists [], (clock (world st)), []. rewrite app_nil_r. unfold ret.
    rewrite <- E. destruct st as [sv [[us ur ch] t l]]. simpl in *.
    subst ur. repeat split; constructor.
  - unfold bind at 1, gets at 1. cbv beta iota.
    unfold bind at 1, gets at 1. cbv beta iota.
    cbn [self world db clock log].
    unfold bind at 1.
    match goal with |- context [gather (map _ ?rs) ?s] =>
      destruct (closed_gather env (clock (world st)) sess rs s Hs Hc)
        as (results & new & t & gets & Hg & Hids & Hall & Hst);
      assert (Hp : Permutation rs (row :: rows))
        by apply SqlFacts.order_by_perm
    end.
    rewrite Hg. cbv beta iota. unfold ret.
    cbn [self world db clock log Db.users Db.urls Db.checks].
    exists new, t, gets. rewrite <- app_assoc. simpl. rewrite E.
    repeat split; try assumption.
    rewrite Hids. exact (Permutation_map Db.id Hp).
Qed.

(** The broadcast, or the skip, reads the store and writes to the log. *)
Lemma notify_state env st :
  exists new,
    notify env st
    = (mkState (self st)
         (mkWorld (db (world st)) (clock (world st)) (log (world st) ++ new)),
       Ok tt)
    /\ steps_of new = [closing_step (notification_service (self st))].
Proof.
  unfold notify. unfold bind, gets. cbv beta iota.
  destruct (notification_service (self st)) as [ns|].
  - destruct (NotificationFacts.broadcast_run ns env (world st))
      as (new & Hrun & _ & Hsteps).
    unfold lift. rewrite Hrun.
    exists (EvBroadcast :: new). split; [reflexivity|].
    simpl. now rewrite Hsteps.
  - exists [EvNoBroadcast]. split; reflexivity.
Qed.

Lemma concat_repeat_S {A} (l : list A) (n : nat) :
  List.concat (repeat l (S n)) = l ++ List.concat (repeat l n).
Proof. reflexivity. Qed.

(** [n] iterations of the loop while nobody asks it to stop: what they
    leave in the store and in the log. *)
Lemma loop_iterations env :
  forall n k st,
    running (self st) = true ->
    (forall j, (k <= j < k + n)%nat -> stop_requested env j = false) ->
    exists w' new_checks new_log,
      monitoring_loop env n k st = (mkState (self st) w', Ok tt)
      /\ db w' = Db.mkDb (Db.users (db (world st))) (Db.urls (db (world st)))
                         (Db.checks (db (world st)) ++ new_checks)
      /\ Permutation (map Db.url_id new_checks)
           (List.concat (repeat (map Db.id (Db.urls (db (world st)))) n))
      /\ log w' = log (world st) ++ new_log
      /\ steps_of new_log
         = List.concat (repeat (iteration (notification_service (self st))) n).
Proof.
  induction n as [|n IH]; intros k st Hrunning Hstop.
  - exists (world st), [], []. simpl. rewrite !app_nil_r.
    destruct st as [sv [[us ur ch] t l]]. repeat split. constructor.
  - cbn [monitoring_loop].
    rewrite (SchedulerFacts.bind_ok _ _ st st (running (self st)) eq_refl).
    rewrite Hrunning.
    rewrite (SchedulerFacts.bind_ok _ _ _ _ _ (SchedulerFacts.sleep_run 300 st)).
    rewrite (Hstop k) by lia.
    rewrite (SchedulerFacts.bind_ok (ret tt) _ _ _ tt eq_refl).
    match goal with |- context [bind (check_all_urls env) _ ?s] =>
      destruct (PassFacts.check_all_urls_run env s)
        as (new1 & t1 & gets1 & Hpass & Hp1 & Hsteps1 & _)
    end.
    rewrite (SchedulerFacts.bind_ok _ _ _ _ _ Hpass).
    match goal with |- context [bind (notify env) _ ?s] =>
      destruct (notify_state env s) as (new2 & Hnote & Hsteps2)
    end.
    rewrite (SchedulerFacts.bind_ok _ _ _ _ _ Hnote).
    cbn [self world db clock log Db.users Db.urls Db.checks] in *.
    match goal with |- context [monitoring_loop env n (S k) ?s] =>
      destruct (IH (S k) s Hrunning)
        as (w3 & new3 & log3 & Hloop & Hdb3 & Hp3 & Hlog3 & Hsteps3)
    end.
    { intros j Hj. apply Hstop. lia. }
    rewrite Hloop.
    cbn [self world db clock log Db.users Db.urls Db.checks] in *.
    exists w3, (new1 ++ new3),
      (EvSleep 300 :: EvPass (map Db.id (Db.urls (db (world st))))
         :: gets1 ++ new2 ++ log3).
    split; [reflexivity|]. split; [|split; [|split]].
    + now rewrite Hdb3, <- app_assoc.
    + rewrite concat_repeat_S, map_app. now apply Permutation_app.
    + rewrite Hlog3. rewrite <- !app_assoc. reflexivity.
    + cbn [steps_of step_of].
      rewrite !LogFacts.steps_of_app, Hsteps1, Hsteps2, Hsteps3.
      reflexivity.
Qed.

Lemma count_in_concat (x : Z) (l : list Z) (n : nat) :
  List.length (filter (fun y => y =? x) (List.concat (repeat l n)))
  = (n * List.length (filter (fun y => (y =? x)%Z) l))%nat.
Proof.
  induction n as [|n IH]; [reflexivity|].
  rewrite concat_repeat_S, filter_app, length_app, IH. reflexivity.
Qed.

(** X20.  A run of the scheduler that nobody stops, over [n] iterations: the
    tables of users and targets are as they were, and every target has
    [n + 1] new checks, one from the pass at the start and one from each
    iteration; nothing else is written. *)
Theorem scheduler_rows env n st :
  NoDup (map Db.id (Db.urls (db (world st)))) ->
  (forall k, (k < n)%nat -> stop_requested env k = false) ->
  exists st' new,
    start_monitoring env n st = (st', Ok tt)
    /\ db (world st')
       = Db.mkDb (Db.users (db (world st))) (Db.urls (db (world st)))
                 (Db.checks (db (world st)) ++ new)
    /\ List.length new = (S n * List.length (Db.urls (db (world st))))%nat
    /\ forall row, In row (Db.urls (db (world st))) ->
         List.length (filter (fun c => Db.url_id c =? Db.id row) new) = S n.
Proof.
  intros Hnd Hstop. unfold start_monitoring, enter_running.
  rewrite (SchedulerFacts.bind_ok _ _ st _ tt eq_refl).
  match goal with |- context [bind (check_all_urls env) _ ?s] =>
    destruct (PassFacts.check_all_urls_run env s)
      as (new1 & t1 & gets1 & Hpass & Hp1 & _)
  end.
  rewrite (SchedulerFacts.bind_ok _ _ _ _ _ Hpass).
  cbn [self world db clock log Db.users Db.urls Db.checks
       set_running set_session modify fst bind] in *.
  match goal with |- context [monitoring_loop env n 0 ?s] =>
    destruct (loop_iterations env n 0 s eq_refl)
      as (w2 & new2 & log2 & Hloop & Hdb2 & Hp2 & _)
  end.
  { intros j Hj. apply Hstop. lia. }
  rewrite Hloop.
  cbn [self world db clock log Db.users Db.urls Db.checks] in *.
  eexists. exists (new1 ++ new2). split; [reflexivity|].
  cbn [world]. split; [now rewrite Hdb2, <- app_assoc|].
  assert (Hp : Permutation (map Db.url_id (new1 ++ new2))
                 (List.concat (repeat (map Db.id (Db.urls (db (world st))))
                                      (S n)))).
  { rewrite concat_repeat_S, map_app. now apply Permutation_app. }
  split.
  - apply Permutation_length in Hp. rewrite length_map in Hp. rewrite Hp.
    clear. induction (S n) as [|m IH]; [reflexivity|].
    rewrite concat_repeat_S, length_app, IH, length_map. reflexivity.
  - intros row Hrow.
    rewrite (PassFacts.filter_map_length Db.url_id (fun y => y =? Db.id row)).
    rewrite (NotificationFacts.filter_length_perm _ _ _ Hp).
    rewrite count_in_concat.
    rewrite PassFacts.one_occurrence; [lia|exact Hnd|now apply in_map].
Qed.

Lemma stop_run st sess :
  session (self st) = Some sess ->
  stop_monitoring st
  = (mkState (mkService (notification_service (self st))
                        (Some (mkSession (kind sess) true)) false)
             (world st),
     Ok tt).
Proof.
  intros Hs. unfold stop_monitoring, set_running, set_session.
  unfold bind, modify, gets. cbn [self world session]. now rewrite Hs.
Qed.

(** The loop when [stop_monitoring] is called during the sleep of its
    iteration [j + k]. *)
Lemma loop_stops env :
  forall k fuel j st sess,
    running (self st) = true -> session (self st) = Some sess ->
    (k < fuel)%nat ->
    (forall i, (j <= i < j + k)%nat -> stop_requested env i = false) ->
    stop_requested env (j + k) = true ->
    exists w' before last new_log,
      monitoring_loop env fuel j st
      = (mkState (mkService (notification_service (self st))
                            (Some (mkSession (kind sess) true)) false)
                 w',
         Ok tt)
      /\ db w' = Db.mkDb (Db.users (db (world st))) (Db.urls (db (world st)))
                         (Db.checks (db (world st)) ++ before ++ last)
      /\ Permutation (map Db.url_id last)
                     (map Db.id (Db.urls (db (world st))))
      /\ Forall failed_at_once last
      /\ log w' = log (world st) ++ new_log
      /\ steps_of new_log
         = List.concat
             (repeat (iteration (notification_service (self st))) (S k)).
Proof.
  induction k as [|k IH]; intros fuel j st sess Hrunning Hsess Hfuel Hgo Hstop.
  - destruct fuel as [|fuel]; [lia|]. cbn [monitoring_loop].
    rewrite (SchedulerFacts.bind_ok _ _ st st (running (self st)) eq_refl).
    rewrite Hrunning.
    rewrite (SchedulerFacts.bind_ok _ _ _ _ _ (SchedulerFacts.sleep_run 300 st)).
    rewrite Nat.add_0_r in Hstop. rewrite Hstop. cbv iota.
    match goal with |- context [bind stop_monitoring _ ?s] =>
      rewrite (SchedulerFacts.bind_ok _ _ _ _ _ (stop_run s sess Hsess))
    end.
    cbn [self world db clock log].
    match goal with |- context [bind (check_all_urls env) _ ?s] =>
      destruct (closed_pass env s (mkSession (kind sess) true) eq_refl eq_refl)
        as (new1 & t1 & gets1 & Hpass & Hp1 & Hall & Hsteps1)
    end.
    rewrite (SchedulerFacts.bind_ok _ _ _ _ _ Hpass).
    match goal with |- context [bind (notify env) _ ?s] =>
      destruct (notify_state env s) as (new2 & Hnote & Hsteps2)
    end.
    rewrite (SchedulerFacts.bind_ok _ _ _ _ _ Hnote).
    cbn [self world db clock log Db.users Db.urls Db.checks
         notification_service] in *.
    assert (Hend : forall s0, running (self s0) = false ->
                     monitoring_loop env fuel (S j) s0 = (s0, Ok tt)).
    { intros s0 Hr. destruct fuel; [reflexivity|]. cbn [monitoring_loop].
      rewrite (SchedulerFacts.bind_ok _ _ s0 s0 (running (self s0)) eq_refl).
      now rewrite Hr. }
    rewrite Hend by reflexivity.
    eexists. exists [], new1,
      (EvSleep 300 :: EvPass (map Db.id (Db.urls (db (world st))))
         :: gets1 ++ new2).
    split; [reflexivity|]. cbn [db log].
    split; [reflexivity|]. split; [exact Hp1|]. split; [exact Hall|].
    split.
    + rewrite <- !app_assoc. reflexivity.
    + cbn [steps_of step_of List.concat repeat].
      rewrite !LogFacts.steps_of_app, Hsteps1, Hsteps2. reflexivity.
  - destruct fuel as [|fuel]; [lia|]. cbn [monitoring_loop].
    rewrite (SchedulerFacts.bind_ok _ _ st st (running (self st)) eq_refl).
    rewrite Hrunning.
    rewrite (SchedulerFacts.bind_ok _ _ _ _ _ (SchedulerFacts.sleep_run 300 st)).
    rewrite (Hgo j) by lia.
    rewrite (SchedulerFacts.bind_ok (ret tt) _ _ _ tt eq_refl).
    match goal with |- context [bind (check_all_urls env) _ ?s] =>
      destruct (PassFacts.check_all_urls_run env s)
        as (new1 & t1 & gets1 & Hpass & Hp1 & Hsteps1 & _)
    end.
    rewrite (SchedulerFacts.bind_ok _ _ _ _ _ Hpass).
    match goal with |- context [bind (notify env) _ ?s] =>
      destruct (notify_state env s) as (new2 & Hnote & Hsteps2)
    end.
    rewrite (SchedulerFacts.bind_ok _ _ _ _ _ Hnote).
    cbn [self world db clock log Db.users Db.urls Db.checks] in *.
    match goal with |- context [monitoring_loop env fuel (S j) ?s] =>
      destruct (IH fuel (S j) s sess Hrunning Hsess)
        as (w3 & before & last & log3 & Hloop & Hdb3 & Hp3 & Hall & Hlog3
            & Hsteps3)
    end.
    { lia. }
    { intros i Hi. apply Hgo. lia. }
    { now replace (S j + k)%nat with (j + S k)%nat by lia. }
    rewrite Hloop.
    cbn [self world db clock log Db.users Db.urls Db.checks] in *.
    exists w3, (new1 ++ before), last,
      (EvSleep 300 :: EvPass (map Db.id (Db.urls (db (world st))))
         :: gets1 ++ new2 ++ log3).
    split; [reflexivity|]. split; [now rewrite Hdb3, <- !app_assoc|].
    split; [exact Hp3|]. split; [exact Hall|]. split.
    + rewrite Hlog3. rewrite <- !app_assoc. reflexivity.
    + rewrite (concat_repeat_S _ (S k)). cbn [steps_of step_of].
      rewrite !LogFacts.steps_of_app, Hsteps1, Hsteps2, Hsteps3.
      reflexivity.
Qed.

(** X21.  [stop_monitoring] during a sleep does not end the run at once.  The
    loop wakes up, makes one more pass, through the session that was just
    closed, so that every target gets a row "error" with code 0 whatever
    its site would answer; it ends the iteration with the broadcast or
    the skip, and only then leaves, however long it was allowed to run.
    The service is then Stopped and keeps the closed session. *)
Theorem stop_takes_effect_after_one_more_pass env fuel k st :
  (k < fuel)%nat ->
  (forall i, (i < k)%nat -> stop_requested env i = false) ->
  stop_requested env k = true ->
  exists w' before last new_log,
    start_monitoring env fuel st
    = (mkState (mkService (notification_service (self st))
                          (Some (mkSession Shared true)) false)
               w',
       Ok tt)
    /\ db w' = Db.mkDb (Db.users (db (world st))) (Db.urls (db (world st)))
                       (Db.checks (db (world st)) ++ before ++ last)
    /\ Permutation (map Db.url_id last) (map Db.id (Db.urls (db (world st))))
    /\ Forall failed_at_once last
    /\ log w' = log (world st) ++ new_log
    /\ steps_of new_log
       = Pass :: List.concat
                   (repeat (iteration (notification_service (self st))) (S k)).
Proof.
  intros Hfuel Hgo Hstop. unfold start_monitoring, enter_running.
  rewrite (SchedulerFacts.bind_ok _ _ st _ tt eq_refl).
  match goal with |- context [bind (check_all_urls env) _ ?s] =>
    destruct (PassFacts.check_all_urls_run env s)
      as (new1 & t1 & gets1 & Hpass & Hp1 & Hsteps1 & _)
  end.
  rewrite (SchedulerFacts.bind_ok _ _ _ _ _ Hpass).
  cbn [self world db clock log Db.users Db.urls Db.checks
       set_running set_session modify fst bind] in *.
  match goal with |- context [monitoring_loop env fuel 0 ?s] =>
    destruct (loop_stops env k fuel 0%nat s (mkSession Shared false)
                eq_refl eq_refl Hfuel)
      as (w2 & before & last & log2 & Hloop & Hdb2 & Hp2 & Hall & Hlog2
          & Hsteps2)
  end.
  { intros i Hi. apply Hgo. lia. }
  { exact Hstop. }
  rewrite Hloop.
  cbn [self world db clock log Db.users Db.urls Db.checks
       notification_service kind] in *.
  exists w2, (new1 ++ before), last,
    (EvPass (map Db.id (Db.urls (db (world st)))) :: gets1 ++ log2).
  split; [reflexivity|]. split; [now rewrite Hdb2, <- !app_assoc|].
  split; [exact Hp2|]. split; [exact Hall|]. split.
  - rewrite Hlog2. rewrite <- !app_assoc. reflexivity.
  - cbn [steps_of step_of].
    rewrite !LogFacts.steps_of_app, Hsteps1, Hsteps2. reflexivity.
Qed.

End RunFacts.

(** ** The window of the percentage, in general *)

Module DayFacts.
Import Exc Env Spec.

(** X16.  The percentage of a snapshot counts the checks of the current local
    calendar day, not those of the last 24 hours.  For a target whose
    checks were all stamped by [CURRENT_TIMESTAMP], the check written at
    the instant [t] is counted exactly when [t] falls, in UTC, on or after
    the calendar day on which the host's local clock stands. *)
Theorem uptime_counts_the_current_day off now d row
    (written : Db.check_row -> Clock.instant) :
  In row (Db.urls d) -> Db.user_id row <> 0 -> unique_targets d ->
  Clock.usec_per_day <= Clock.datetime_now off now < Clock.horizon ->
  (forall c, In c (checks_of d (Db.id row)) ->
     0 <= written c < Clock.horizon
     /\ Db.timestamp c = Clock.current_timestamp (written c)) ->
  exists st,
    Db.get_url_status off now d (Db.url row) (Some (Db.user_id row))
    = Ok (Some st)
    /\ Db.uptime_percentage st
       = Py.round2
           (raw_uptime
              (filter (fun c => Clock.day_number (Clock.datetime_now off now)
                                <=? Clock.day_number (written c))
                      (checks_of d (Db.id row)))).
Proof.
  intros Hin Hnz Huniq Hnow Hstamps.
  destruct (DbFacts.select_url_owned d row Hin Hnz Huniq) as (r & Hsel & Hid).
  eexists. split; [apply (DbFacts.get_url_status_found _ _ _ _ _ _ Hsel)|].
  cbn [Db.uptime_percentage]. rewrite Hid. do 2 f_equal.
  unfold Db.window_rows. rewrite RegistryFacts.filter_both.
  fold (checks_of d (Db.id row)). apply filter_ext_in. intros c Hc.
  destruct (Hstamps c Hc) as [Ht ->].
  now apply DbFacts.counted_since_local_midnight.
Qed.

End DayFacts.

(** ** The endpoints of an owner *)

Module EndpointFacts.
Import Exc Env Registry Spec Api.
Import RegistryFacts.





(** X27.  [POST /send-report] answers with success exactly when the monitoring
    service has a notification service with mail configured, the user's
    rows can be read, the user owns a target and the relay accepts the
    mail; in every other case it answers 500.  It never ends in an
    exception, and it leaves the tables and the service as they were. *)
Theorem send_report_outcome env cu a :
  exists a' r,
    send_my_report env cu a = (a', r)
    /\ registry a' = registry a /\ monitor a' = monitor a
    /\ (r = Answer tt \/ r = HttpError 500)
    /\ (r = Answer tt
        <-> exists ns,
              Monitoring.notification_service (monitor a) = Some ns
              /\ Notification.email_enabled ns = true
              /\ storage_fault env (user_id cu) = None
              /\ Db.get_user_urls (tables (registry a)) (user_id cu) <> []
              /\ smtp env (email cu) = Ok tt).
Proof.
  unfold send_my_report, try_except, monitoring, Monitoring.send_user_notification.
  unfold bind at 1. unfold bind at 1, gets at 1. cbv beta iota.
  cbn [Monitoring.self Monitoring.world].
  destruct (Monitoring.notification_service (monitor a)) as [ns|] eqn:En.
  2:{ unfold ret. cbn [Monitoring.self Monitoring.world db clock log].
      eexists. eexists. split; [reflexivity|]. cbn [registry monitor].
      split; [now rewrite with_same_tables|]. split; [reflexivity|].
      split; [now right|]. split; [discriminate|].
      intros (ns & H & _). discriminate. }
  unfold Monitoring.lift. cbn [Monitoring.self Monitoring.world].
  set (w := mkWorld (tables (registry a)) (now a) (trace a)).
  destruct (NotificationFacts.send_user_uptime_summary_cases ns env
              (user_id cu) (email cu) w)
    as [[Hrun Hwhy]|(body & subj & Hrun & Hen & Hf & Hne & _)];
    rewrite Hrun; cbn [db clock log Monitoring.self Monitoring.world w].
  - unfold ret. eexists. eexists. split; [reflexivity|]. cbn [registry monitor].
    split; [now rewrite with_same_tables|]. split; [reflexivity|].
    split; [now right|]. split; [discriminate|].
    intros (ns' & Hns & Hen & Hf & Hne & _). injection Hns as <-.
    destruct Hwhy as [H|[H|H]]; [congruence|contradiction|contradiction].
  - destruct (smtp env (email cu)) as [[]|e] eqn:Es; cbn [raises negb]; unfold ret.
    + eexists. eexists. split; [reflexivity|]. cbn [registry monitor].
      split; [now rewrite with_same_tables|]. split; [reflexivity|].
      split; [now left|]. split; [|reflexivity].
      intros _. exists ns. auto.
    + eexists. eexists. split; [reflexivity|]. cbn [registry monitor].
      split; [now rewrite with_same_tables|]. split; [reflexivity|].
      split; [now right|]. split; [discriminate|].
      intros (ns' & _ & _ & _ & _ & H). discriminate.
Qed.

End EndpointFacts.

(** ** The properties on the sample store *)

Module SampleFacts.
Import Exc Env Registry Spec History.
Open Scope string_scope.
Open Scope list_scope.

Lemma store0_consistent : consistent Sample.store0.
Proof.
  unfold consistent, Sample.store0, Sample.checks0, Scenario.db_three.
  cbn [tables Db.urls Db.users Db.checks secrets user_seq url_seq map
       Db.id Db.uid Db.username owner].
  split; [repeat constructor; simpl; intuition discriminate|].
  split; [intros r [<-|[<-|[<-|[]]]]; cbn [Db.id]; lia|].
  split.
  { intros a b [<-|[<-|[<-|[]]]] [<-|[<-|[<-|[]]]]; cbn; intros; trivial;
      discriminate. }
  split; [repeat constructor; simpl; intuition discriminate|].
  split; [repeat constructor; simpl; intuition discriminate|].
  split; [intros u [<-|[<-|[]]]; cbn [Db.uid]; lia|].
  split; [reflexivity|].
  intros c [<-|[<-|[<-|[<-|[]]]]]; cbn [Db.url_id];
    first [ eexists; split; [left; reflexivity|reflexivity]
          | eexists; split; [right; left; reflexivity|reflexivity]
          | eexists; split; [right; right; left; reflexivity|reflexivity] ].
Qed.

Lemma verify_user_accepts_iff_witness :
  verify_user Sample.kdf Sample.store0 "ann" "ann-pw"
  = Some (1, "ann@example.org")
  <-> exists u c,
        In u (Db.users (tables Sample.store0)) /\ Db.username u = "ann"
        /\ In c (secrets Sample.store0) /\ owner c = Db.uid u
        /\ Sample.kdf "ann-pw" (salt c) = password_hash c
        /\ 1 = Db.uid u /\ "ann@example.org" = Db.email u.
Proof.
  apply (RegistryFacts.verify_user_accepts_iff Sample.kdf Sample.store0).
  exact store0_consistent.
Defined.

Lemma registered_user_is_accepted_witness :
  verify_user Sample.kdf
    (fst (create_user Sample.kdf "9b2d" Sample.store0 "cyd" "cyd-pw"
                      "cyd@example.org"))
    "cyd" "cyd-pw"
  = Some (3, "cyd@example.org")
  /\ 1 <= 3
  /\ forall u, In u (Db.users (tables Sample.store0)) -> Db.uid u < 3.
Proof.
  apply (RegistryFacts.registered_user_is_accepted Sample.kdf "9b2d"
           Sample.store0).
  - exact store0_consistent.
  - reflexivity.
Defined.

Lemma registration_is_local_witness :
  verify_user Sample.kdf
    (fst (create_user Sample.kdf "9b2d" Sample.store0 "cyd" "cyd-pw"
                      "cyd@example.org"))
    "bob" "bob-pw"
  = verify_user Sample.kdf Sample.store0 "bob" "bob-pw".
Proof.
  apply (RegistryFacts.registration_is_local Sample.kdf "9b2d" Sample.store0 _
           "cyd" "cyd-pw" "cyd@example.org" "bob" "bob-pw" (Some 3)).
  - exact store0_consistent.
  - reflexivity.
  - discriminate.
Defined.

Lemma new_target_snapshot_witness :
  exists s',
    add_url Scenario.t0 Sample.store0 "https://a.example/" 2 (Some "shop")
    = (s', true)
    /\ user_owns_url (tables s') "https://a.example/" 2 = true
    /\ Db.get_url_status 0 Scenario.t0 (tables s') "https://a.example/" (Some 2)
       = Ok (Some (Db.mkStatus "https://a.example/" (Py.Int 0) None
                               (Some "shop")))
    /\ forall t' cat',
         add_url t' s' "https://a.example/" 2 cat' = (s', false).
Proof.
  apply (RegistryFacts.new_target_snapshot Scenario.t0 Sample.store0
           "https://a.example/" 2 (Some "shop") 0 Scenario.t0).
  - exact store0_consistent.
  - lia.
  - reflexivity.
Defined.

Lemma add_url_is_local_witness :
  Db.get_url_status 0 Scenario.t0
    (tables (fst (add_url Scenario.t0 Sample.store0 "https://a.example/" 2
                          None)))
    "https://a.example/" (Some 1)
  = Db.get_url_status 0 Scenario.t0 (tables Sample.store0)
                      "https://a.example/" (Some 1).
Proof.
  apply RegistryFacts.add_url_is_local.
  - lia.
  - intros H. injection H as H. discriminate.
Defined.

Lemma remove_url_cascades_witness :
  exists row s',
    remove_url Sample.store0 "https://a.example/" 1 = (s', true)
    /\ In row (Db.urls (tables Sample.store0))
    /\ Db.url row = "https://a.example/" /\ Db.user_id row = 1
    /\ (forall r, In r (Db.urls (tables s'))
                  <-> In r (Db.urls (tables Sample.store0)) /\ r <> row)
    /\ (forall c, In c (Db.checks (tables s'))
                  <-> In c (Db.checks (tables Sample.store0))
                      /\ Db.url_id c <> Db.id row)
    /\ Db.users (tables s') = Db.users (tables Sample.store0)
    /\ user_owns_url (tables s') "https://a.example/" 1 = false
    /\ Db.get_url_status 0 Scenario.t0 (tables s') "https://a.example/" (Some 1)
       = Ok None.
Proof.
  apply (RegistryFacts.remove_url_cascades Sample.store0 "https://a.example/" 1
           0 Scenario.t0).
  - exact store0_consistent.
  - lia.
  - reflexivity.
Defined.

Lemma removed_target_starts_afresh_witness :
  Db.get_url_status 0 Scenario.t0
    (tables (fst (add_url Scenario.t0
                    (fst (remove_url Sample.store0 "https://a.example/" 1))
                    "https://a.example/" 1 None)))
    "https://a.example/" (Some 1)
  = Ok (Some (Db.mkStatus "https://a.example/" (Py.Int 0) None None)).
Proof.
  apply (RegistryFacts.removed_target_starts_afresh Scenario.t0 Sample.store0
           "https://a.example/" 1 None 0 Scenario.t0).
  - exact store0_consistent.
  - lia.
  - reflexivity.
Defined.

Lemma category_update_witness :
  (user_owns_url (tables Sample.store0) "https://b.example/" 1 = false ->
   update_url_category Sample.store0 "https://b.example/" 1 "news"
   = (Sample.store0, false))
  /\ (user_owns_url (tables Sample.store0) "https://b.example/" 1 = true ->
      exists s' st,
        update_url_category Sample.store0 "https://b.example/" 1 "news"
        = (s', true)
        /\ Db.get_url_status 0 Scenario.t0 (tables Sample.store0)
                             "https://b.example/" (Some 1)
           = Ok (Some st)
        /\ Db.get_url_status 0 Scenario.t0 (tables s')
                             "https://b.example/" (Some 1)
           = Ok (Some (Db.mkStatus (Db.st_url st) (Db.uptime_percentage st)
                                   (Db.last_checked st)
                                   (Db.truthy_str (Some "news")))))
  /\ (forall u' user',
        user' <> 0 -> (u', user') <> ("https://b.example/", 1) ->
        Db.get_url_status 0 Scenario.t0
          (tables (fst (update_url_category Sample.store0
                          "https://b.example/" 1 "news")))
          u' (Some user')
        = Db.get_url_status 0 Scenario.t0 (tables Sample.store0)
                            u' (Some user')).
Proof.
  apply (RegistryFacts.category_update Sample.store0 "https://b.example/" 1
           "news" 0 Scenario.t0).
  - exact store0_consistent.
  - lia.
Defined.



Lemma summary_mail_is_coherent_witness :
  exists subj body,
    Notification.send_user_uptime_summary (Notification.mkService true)
      Scenario.env_mixed 1 "ann@example.org" Scenario.w_probed
    = (mkWorld (db Scenario.w_probed) (clock Scenario.w_probed)
               (log Scenario.w_probed
                ++ [EvSummary 1; EvMail "ann@example.org" subj body]),
       Ok true)
    /\ Report.table body
       = [("https://b.example/", Report.error);
          ("https://a.example/", Report.success)]
    /\ total_sites body = 2
    /\ subj = NeedAttention "ann" 1.
Proof.
  destruct (ReportFacts.summary_mail_is_coherent (Notification.mkService true)
              Scenario.env_mixed 1 "ann@example.org" Scenario.w_probed)
    as (subj & body & Hrun & _).
  - reflexivity.
  - reflexivity.
  - vm_compute. discriminate.
  - exists subj, body. split; [exact Hrun|].
    vm_compute in Hrun. injection Hrun as <- <-.
    split; [vm_compute; reflexivity|]. split; reflexivity.
Defined.

Lemma login_never_answers_401_witness :
  Api.get_current_user Sample.kdf Sample.store0 "ann" "guess"
  = Api.Uncaught TypeError.
Proof.
  apply (ApiFacts.login_never_answers_401 Sample.kdf Sample.store0 "ann" "guess"
           store0_consistent).
  reflexivity.
Defined.

Lemma track_url_probes_the_first_row_witness :
  exists a' c,
    Api.track_url Scenario.env_mixed 2 "https://a.example/" None Sample.app0
    = (a', Api.Answer tt)
    /\ Db.checks (tables (Api.registry a')) = Sample.checks0 ++ [c]
    /\ Db.url_id c = 1
    /\ Db.get_url_status 0 Scenario.t0 (tables (Api.registry a'))
                         "https://a.example/" (Some 2)
       = Ok (Some (Db.mkStatus "https://a.example/" (Py.Int 0) None None)).
Proof.
  destruct (ApiFacts.track_url_probes_the_first_row Scenario.env_mixed 2
              "https://a.example/" None Sample.app0)
    as (a' & c & Hrun & Hchecks & _ & Hfirst).
  - exact store0_consistent.
  - lia.
  - reflexivity.
  - exists a', c. split; [exact Hrun|]. split; [exact Hchecks|].
    cbn in Hfirst. destruct Hfirst as (_ & Hc & Hst).
    split; [exact Hc|apply Hst].
Defined.

Lemma scheduler_rows_witness :
  exists st' new,
    Monitoring.start_monitoring Scenario.env_mixed 2 Scenario.st_mixed
    = (st', Ok tt)
    /\ Db.checks (db (Monitoring.world st')) = new
    /\ List.length new = 9%nat
    /\ forall row, In row (Db.urls Scenario.db_three) ->
         List.length (filter (fun c => (Db.url_id c =? Db.id row)%Z) new) = 3%nat.
Proof.
  destruct (RunFacts.scheduler_rows Scenario.env_mixed 2 Scenario.st_mixed)
    as (st' & new & Hrun & Hdb & Hlen & Hrows).
  - simpl. repeat constructor; simpl; intuition discriminate.
  - intros k _. reflexivity.
  - exists st', new. split; [exact Hrun|]. rewrite Hdb.
    split; [reflexivity|]. split; [exact Hlen|exact Hrows].
Defined.

Lemma stop_takes_effect_after_one_more_pass_witness :
  exists w' before last new_log,
    Monitoring.start_monitoring Sample.env_stop 5 Scenario.st_mixed
    = (Monitoring.mkState
         (Monitoring.mkService (Some (Notification.mkService true))
                               (Some (mkSession Shared true)) false)
         w',
       Ok tt)
    /\ Db.checks (db w') = before ++ last
    /\ Permutation (map Db.url_id last) [1; 2; 3]
    /\ Forall failed_at_once last
    /\ log w' = new_log
    /\ steps_of new_log
       = [Pass; Sleep 300; Pass; Broadcast; Sleep 300; Pass; Broadcast].
Proof.
  destruct (RunFacts.stop_takes_effect_after_one_more_pass Sample.env_stop 5 1
              Scenario.st_mixed)
    as (w' & before & last & new_log & Hrun & Hdb & Hp & Hall & Hlog & Hsteps).
  - lia.
  - intros i Hi. assert (i = 0%nat) as -> by lia. reflexivity.
  - reflexivity.
  - exists w', before, last, new_log. split; [exact Hrun|].
    rewrite Hdb. split; [reflexivity|]. split; [exact Hp|].
    split; [exact Hall|]. split; [exact Hlog|exact Hsteps].
Defined.

Lemma uptime_counts_the_current_day_witness :
  exists st,
    Db.get_url_status 0 Scenario.t1 Scenario.db_last_hour Scenario.site (Some 1)
    = Ok (Some st)
    /\ Db.uptime_percentage st = Py.Int 0.
Proof.
  destruct (DayFacts.uptime_counts_the_current_day 0 Scenario.t1
              Scenario.db_last_hour
              (Db.mkUrl 1 Scenario.site "2023-12-01 10:00:00" 1 None)
              (fun c => if String.eqb (Db.timestamp c) "2024-01-01 23:45:00"
                        then Scenario.t1 - Clock.seconds 2700
                        else Scenario.t1 - Clock.seconds 2400))
    as (st & Hst & Hup).
  - left. reflexivity.
  - discriminate.
  - intros a b [<-|[]] [<-|[]] _ _. reflexivity.
  - split; [apply Z.leb_le|apply Z.ltb_lt]; reflexivity.
  - intros c Hc. vm_compute in Hc.
    destruct Hc as [<-|[<-|[]]];
      (split; [split; [apply Z.leb_le|apply Z.ltb_lt]; reflexivity
              |reflexivity]).
  - exists st. split; [exact Hst|]. rewrite Hup. vm_compute. reflexivity.
Defined.

Lemma immediate_check_without_session_witness :
  exists w',
    Monitoring.check_single_url_immediately Scenario.env0 Scenario.site
                                            Scenario.st0
    = (Monitoring.mkState (Monitoring.self Scenario.st0) w', Ok tt)
    /\ log w' = [EvGet (Some (mkSession Temporary false)) Scenario.site].
Proof.
  apply (MonitoringFacts.immediate_check_without_session Scenario.env0
           Scenario.site Scenario.st0
           (Db.mkUrl 1 Scenario.site "2023-12-01 10:00:00" 1 None));
    reflexivity.
Defined.



End SampleFacts.
